(** * Rift agent: detection passes, classifier, aggregator and fix lifecycle

    A shallow embedding of [src/rift/agent.py].

    - Python strings are Rocq [string]s read as ASCII text: a character
      above 127 is opaque, neither white space nor a word character, and
      [upper] leaves it alone.  Python integers are [Z]; indices and counts
      that the code never lets go negative are [nat].
    - The dictionary that a scanner appends (keys [file], [line],
      [message], [type], [source]) is the record [Finding]; the dataclass
      [FixResult] is a record of the same name.
    - The dictionary [best] of the aggregator is an association list that
      keeps the place of a key whose value is replaced, as a Python [dict]
      keeps insertion order.
    - Regular expressions are terms of [Re.t], matched by backtracking with
      the priorities of the [re] module.
    - What the code asks of the outside is a parameter: the interpreter's
      [tokenize], [compile] and [py_compile] (record [Interpreter]), the
      module lookup [find_spec], the behaviour of a module under test
      (record [Dynamic.Module]), the file system ([FS]).  Exceptions that the
      code catches are cases of result types; a call that raises to its
      caller returns [Raised] or [None].  The executor is followed for
      modules that leave standard output to the runner; for one that writes
      there itself [_analyze_single_file] is [None].
    - The definitions come first, the properties after them. *)

From Stdlib Require Import String Ascii List ZArith Lia Bool Arith PeanoNat
DecimalString.
Import ListNotations.
Open Scope string_scope.
Open Scope Z_scope.

(** ** Python values *)

Definition LF : ascii := ascii_of_nat 10.
Definition nl : string := String LF EmptyString.

Module Py.

(** [needle in hay]. *)
Fixpoint contains (needle hay : string) : bool :=
  if String.prefix needle hay then true
  else match hay with
       | EmptyString => false
       | String _ t => contains needle t
       end.

(** [s.replace(old, new)] for a non-empty [old]: the occurrences are taken
    from the left and do not overlap; [skip] counts the characters of a
    match that are still to be dropped. *)
Fixpoint replace_from (old new : string) (skip : nat) (s : string) : string :=
  match s with
  | EmptyString => EmptyString
  | String c t =>
      match skip with
      | S k => replace_from old new k t
      | O => if String.prefix old s
             then new ++ replace_from old new (String.length old - 1) t
             else String c (replace_from old new 0 t)
      end
  end.

(** With an empty [old] Python puts [new] before every character and at the
    end. *)
Fixpoint replace_empty (new s : string) : string :=
  match s with
  | EmptyString => new
  | String c t => new ++ String c (replace_empty new t)
  end.

Definition replace (old new s : string) : string :=
  match old with
  | EmptyString => replace_empty new s
  | _ => replace_from old new 0 s
  end.

Definition is_lower (c : ascii) : bool :=
  let n := nat_of_ascii c in (97 <=? n)%nat && (n <=? 122)%nat.

Definition upper_char (c : ascii) : ascii :=
  if is_lower c then ascii_of_nat (nat_of_ascii c - 32) else c.

(** [s.upper()] on ASCII text. *)
Fixpoint upper (s : string) : string :=
  match s with
  | EmptyString => EmptyString
  | String c t => String (upper_char c) (upper t)
  end.

(** [sys.maxsize], on a 64-bit build of the interpreter. *)
Definition maxsize : Z := 2 ^ 63 - 1.

(** [itertools.islice(l, stop)] consumed into a list; a [stop] below 0 or
    above [sys.maxsize] raises [ValueError]. *)
Definition islice {A : Type} (l : list A) (stop : Z) : option (list A) :=
  if (stop <? 0) || (maxsize <? stop) then None
  else Some (firstn (Z.to_nat stop) l).

End Py.

Module Str.

Definition chr (n : nat) : ascii := ascii_of_nat n.
Definition DQ : ascii := chr 34.   (* the double quote *)
Definition SQ : ascii := chr 39.   (* the single quote *)

Definition code_in (lo hi : nat) (c : ascii) : bool :=
  let n := nat_of_ascii c in (lo <=? n)%nat && (n <=? hi)%nat.

(** [c.isspace()] on ASCII: tab, line feed, vertical tab, form feed,
    carriage return, the four separators 28 to 31, and the space. *)
Definition isspace (c : ascii) : bool :=
  code_in 9 13 c || code_in 28 32 c.

Definition isdigit (c : ascii) : bool := code_in 48 57 c.

(** The class of [\w]: letters, digits and the underscore. *)
Definition isword (c : ascii) : bool :=
  code_in 97 122 c || code_in 65 90 c || isdigit c || Ascii.eqb c "_"%char.

Fixpoint lstrip_with (p : ascii -> bool) (s : string) : string :=
  match s with
  | EmptyString => EmptyString
  | String c t => if p c then lstrip_with p t else s
  end.

Fixpoint rstrip_with (p : ascii -> bool) (s : string) : string :=
  match s with
  | EmptyString => EmptyString
  | String c t =>
      match rstrip_with p t with
      | EmptyString => if p c then EmptyString else String c EmptyString
      | t' => String c t'
      end
  end.

(** [s.strip()], [s.lstrip()], [s.rstrip()] and [s.rstrip('\n')]. *)
Definition lstrip (s : string) : string := lstrip_with isspace s.
Definition rstrip (s : string) : string := rstrip_with isspace s.
Definition strip (s : string) : string := lstrip (rstrip s).
Definition rstrip_lf (s : string) : string :=
  rstrip_with (fun c => Ascii.eqb c LF) s.

Definition startswith (s p : string) : bool := String.prefix p s.

Fixpoint last_char (s : string) : option ascii :=
  match s with
  | EmptyString => None
  | String c EmptyString => Some c
  | String _ t => last_char t
  end.

(** [s.endswith(c)] for a one-character [c]. *)
Definition endswith_char (s : string) (c : ascii) : bool :=
  match last_char s with
  | Some d => Ascii.eqb c d
  | None => false
  end.

(** [s.split(sep)[0]] for a one-character [sep]. *)
Fixpoint before_char (sep : ascii) (s : string) : string :=
  match s with
  | EmptyString => EmptyString
  | String c t => if Ascii.eqb c sep then EmptyString
                  else String c (before_char sep t)
  end.

(** [s[:n]]. *)
Fixpoint take (n : nat) (s : string) : string :=
  match n, s with
  | S n', String c t => String c (take n' t)
  | _, _ => EmptyString
  end.

(** The characters after which [splitlines] cuts: line feed, vertical tab,
    form feed, carriage return and the separators 28 to 30. *)
Definition is_linebreak (c : ascii) : bool :=
  code_in 10 13 c || code_in 28 30 c.

(** [s.splitlines()]: a carriage return followed by a line feed is one
    break, and no empty string follows a final break. *)
Fixpoint splitlines (s : string) : list string :=
  match s with
  | EmptyString => []
  | String c t =>
      if is_linebreak c then
        match t with
        | String d _ =>
            if Ascii.eqb c (chr 13) && Ascii.eqb d LF then splitlines t
            else EmptyString :: splitlines t
        | EmptyString => [EmptyString]
        end
      else
        match splitlines t with
        | [] => [String c EmptyString]
        | l :: ls => String c l :: ls
        end
  end.

(** [sep.join(parts)]. *)
Fixpoint join (sep : string) (parts : list string) : string :=
  match parts with
  | [] => EmptyString
  | [p] => p
  | p :: ps => p ++ sep ++ join sep ps
  end.

(** [l[a:b]] for [0 <= a] and [0 <= b]. *)
Definition slice {A : Type} (l : list A) (a b : nat) : list A :=
  firstn (b - a) (skipn a l).

(** [int(s)] on a run of ASCII digits. *)
Definition digits_value (s : string) : Z :=
  fold_left (fun acc c => 10 * acc + Z.of_nat (nat_of_ascii c - 48))
    (list_ascii_of_string s) 0.

End Str.

(** [f.readlines()]: the text cut after each line feed. *)
Fixpoint readlines (s : string) : list string :=
  match s with
  | EmptyString => []
  | String c t =>
      if Ascii.eqb c LF then String c EmptyString :: readlines t
      else match readlines t with
           | [] => [String c EmptyString]
           | l :: ls => String c l :: ls
           end
  end.

(** [f.writelines(lines)] writes the strings one after the other. *)
Definition writelines (lines : list string) : string :=
  fold_right String.append EmptyString lines.

(** [l.insert(i, x)]: a negative index counts from the end, and an index
    beyond either end is clipped to it. *)
Definition list_insert {A : Type} (i : Z) (x : A) (l : list A) : list A :=
  let n := Z.of_nat (length l) in
  let j := Z.to_nat (if i <? 0 then Z.max 0 (n + i) else Z.min i n) in
  (firstn j l ++ x :: skipn j l)%list.

(** ** Regular expressions, as the [re] module matches them *)

Module Re.

(** The pattern language the agent uses.  Matching is by backtracking with
    Python's priorities: the left branch of an alternation first, and as
    many repetitions as possible first. *)
Inductive t : Type :=
| Eps
| Cls (p : ascii -> bool)      (* one character of a class *)
| Seq (a b : t)
| Alt (a b : t)
| Star (a : t)                 (* [a*] *)
| Group (i : nat) (a : t)      (* the capturing group number [i] *)
| Bol                          (* [^] *)
| Eol                          (* [$] *)
| WordB                        (* [\b] *)
| NotBehind (p : ascii -> bool)  (* [(?<![...])] *)
| NotAhead (a : t).              (* [(?!...)] *)

Definition Plus (a : t) : t := Seq a (Star a).
Definition Chr (c : ascii) : t := Cls (Ascii.eqb c).
Definition Any : t := Cls (fun c => negb (Ascii.eqb c LF)).   (* [.] *)
Definition Space : t := Cls Str.isspace.                      (* [\s] *)
Definition Digit : t := Cls Str.isdigit.                      (* [\d] *)
Definition Word : t := Cls Str.isword.                        (* [\w] *)
Definition OneOf (s : string) : t :=
  Cls (fun c => existsb (Ascii.eqb c) (list_ascii_of_string s)).
Definition NoneOf (s : string) : t :=
  Cls (fun c => negb (existsb (Ascii.eqb c) (list_ascii_of_string s))).

(** A literal text; [re.escape] of a name is matched this way. *)
Fixpoint Lit (s : string) : t :=
  match s with
  | EmptyString => Eps
  | String c EmptyString => Chr c
  | String c s' => Seq (Chr c) (Lit s')
  end.

Fixpoint Seqs (l : list t) : t :=
  match l with
  | [] => Eps
  | [a] => a
  | a :: l' => Seq a (Seqs l')
  end.

Fixpoint Alts (l : list t) : t :=
  match l with
  | [] => Cls (fun _ => false)
  | [a] => a
  | a :: l' => Alt a (Alts l')
  end.

(** A position in the subject: the characters already passed, the last one
    first, the characters ahead, and the groups closed so far. *)
Record state : Type := mkState {
  behind : list ascii;
  ahead : list ascii;
  groups : list (nat * string)
}.

Definition at_boundary (st : state) : bool :=
  let w (o : option ascii) :=
    match o with Some c => Str.isword c | None => false end in
  xorb (w (hd_error (behind st))) (w (hd_error (ahead st))).

(** The text passed between [st] and the later state [st']. *)
Definition passed (st st' : state) : string :=
  string_of_list_ascii
    (rev (firstn (length (behind st') - length (behind st)) (behind st'))).

(** [run r st k]: the first way, in priority order, of matching [r] at [st]
    that the continuation [k] accepts. *)
Fixpoint run (r : t) {R : Type} (st : state) (k : state -> option R)
  : option R :=
  match r with
  | Eps => k st
  | Cls p =>
      match ahead st with
      | c :: rest =>
          if p c then k (mkState (c :: behind st) rest (groups st)) else None
      | [] => None
      end
  | Seq a b => run a st (fun st' => run b st' k)
  | Alt a b =>
      match run a st k with
      | Some x => Some x
      | None => run b st k
      end
  | Star a =>
      (fix loop (n : nat) (st : state) : option R :=
         match n with
         | O => k st
         | S n' =>
             match run a st (fun st' =>
                     if (length (ahead st') <? length (ahead st))%nat
                     then loop n' st' else None) with
             | Some x => Some x
             | None => k st
             end
         end) (length (ahead st)) st
  | Group i a =>
      run a st (fun st' =>
        k (mkState (behind st') (ahead st')
             ((i, passed st st') :: groups st')))
  | Bol => match behind st with [] => k st | _ => None end
  | Eol =>
      match ahead st with
      | [] => k st
      | [c] => if Ascii.eqb c LF then k st else None
      | _ => None
      end
  | WordB => if at_boundary st then k st else None
  | NotBehind p =>
      match behind st with
      | c :: _ => if p c then None else k st
      | [] => k st
      end
  | NotAhead a =>
      match run a st (fun _ => Some tt) with
      | Some _ => None
      | None => k st
      end
  end.

(** A match object: the groups, the latest closing of a group first, and
    how many characters the match spans. *)
Definition match_at (r : t) (before after : list ascii)
  : option (list (nat * string) * nat) :=
  run r (mkState before after [])
    (fun st => Some (groups st, (length after - length (ahead st))%nat)).

(** [re.match(r, s)]. *)
Definition match_ (r : t) (s : string) : option (list (nat * string)) :=
  option_map fst (match_at r [] (list_ascii_of_string s)).

Fixpoint search_from (r : t) (before after : list ascii)
  : option (list (nat * string)) :=
  match match_at r before after with
  | Some m => Some (fst m)
  | None =>
      match after with
      | [] => None
      | c :: rest => search_from r (c :: before) rest
      end
  end.

(** [re.search(r, s)]: the leftmost position with a match. *)
Definition search (r : t) (s : string) : option (list (nat * string)) :=
  search_from r [] (list_ascii_of_string s).

(** [m.group(i)] of a group that took part in the match. *)
Fixpoint group (i : nat) (m : list (nat * string)) : string :=
  match m with
  | [] => EmptyString
  | (j, s) :: m' => if Nat.eqb i j then s else group i m'
  end.

(** [len(re.findall(r, s))]: the matches are taken from the left and do
    not overlap; [skip] counts the characters of the last match still to be
    passed. *)
Fixpoint count_from (r : t) (before after : list ascii) (skip : nat) : nat :=
  let here :=
    match skip with
    | O => option_map snd (match_at r before after)
    | S _ => None
    end in
  match after with
  | [] => match here with Some _ => 1%nat | None => 0%nat end
  | c :: rest =>
      match here with
      | Some len => S (count_from r (c :: before) rest (len - 1))
      | None => count_from r (c :: before) rest (skip - 1)
      end
  end.

Definition findall_count (r : t) (s : string) : nat :=
  count_from r [] (list_ascii_of_string s) 0.

End Re.

(** ** Findings *)

(** The dictionary every scanner appends: keys [file], [line], [message],
    [type] and [source], all present in each dictionary the scanners build. *)
Record Finding : Type := mkFinding {
  file : string;
  line : Z;
  message : string;
  type : string;
  source : string
}.

Definition set_file (fp : string) (e : Finding) : Finding :=
  mkFinding fp (line e) (message e) (type e) (source e).

Definition string_Z_eqb (a b : string * Z) : bool :=
  String.eqb (fst a) (fst b) && (snd a =? snd b).

(** The pair that [_add] and the aggregator compare. *)
Definition key_of (e : Finding) : string * Z := (file e, line e).

(** [clone] is [str(self.clone_path)]; the path object is always truthy at
    this point, the function having returned early without one. *)
Definition normalize_path (clone fp : string) : string :=
  if Py.contains clone fp then Py.replace (clone ++ "/") "" fp else fp.

Module Dict.

Definition key : Type := (string * Z)%type.
Definition t (V : Type) : Type := list (key * V).

Fixpoint get {V : Type} (k : key) (d : t V) : option V :=
  match d with
  | [] => None
  | (k', v) :: d' => if string_Z_eqb k k' then Some v else get k d'
  end.

(** [d[k] = v]: an existing key keeps its place, a new one goes last. *)
Fixpoint set {V : Type} (k : key) (v : V) (d : t V) : t V :=
  match d with
  | [] => [(k, v)]
  | (k', v') :: d' =>
      if string_Z_eqb k k' then (k', v) :: d' else (k', v') :: set k v d'
  end.

Definition keys {V : Type} (d : t V) : list key := map fst d.
Definition values {V : Type} (d : t V) : list V := map snd d.

End Dict.

(** ** Classifier: [determine_bug_type] *)

(** The six type names, in the order that both [determine_bug_type] and the
    aggregator's [TYPE_PRIORITY] go through. *)
Definition PRIORITY_ORDER : list string :=
  ["INDENTATION"; "SYNTAX"; "IMPORT"; "TYPE_ERROR"; "LINTING"; "LOGIC"].

(** The class attribute [BUG_KEYWORDS], a dictionary from the six type names
    to keyword lists. *)
Definition BUG_KEYWORDS : list (string * list string) :=
  [ ("INDENTATION",
      ["IndentationError"; "unexpected indent"; "unindent does not match";
       "expected an indented block"; "E1"; "W1"]);
    ("SYNTAX",
      ["SyntaxError"; "invalid syntax"; "can't parse"; "E999";
       "never closed"; "expected"; "was never closed"]);
    ("IMPORT",
      ["ImportError"; "ModuleNotFoundError"; "No module named";
       "cannot import"; "F401"; "F811"]);
    ("TYPE_ERROR",
      ["TypeError"; "unsupported operand"; "cannot concatenate";
       "must be str"; "UnicodeDecodeError"; "UnicodeEncodeError"]);
    ("LINTING",
      ["F841"; "F821"; "F811"; "F401"; "W"; "E2"; "E3"; "E5";
       "unused"; "redefined"; "undefined name"; "ruff"; "pyflakes";
       "line too long"; "whitespace"]);
    ("LOGIC",
      ["NameError"; "AttributeError"; "IndexError"; "KeyError";
       "ValueError"; "ZeroDivisionError"; "RuntimeError";
       "RecursionError"; "OverflowError"; "AssertionError";
       "StopIteration"; "PermissionError"; "FileNotFoundError";
       "OSError"; "MemoryError"; "NotImplementedError";
       "FloatingPointError"; "LookupError"; "bare except";
       "unreachable"; "off-by-one"; "division by zero"]) ].

(** [self.BUG_KEYWORDS.get(bug_type, [])]. *)
Fixpoint keywords_in (table : list (string * list string)) (bug_type : string)
  : list string :=
  match table with
  | [] => []
  | (t, kws) :: table' =>
      if String.eqb bug_type t then kws else keywords_in table' bug_type
  end.

Definition keywords (bug_type : string) : list string :=
  keywords_in BUG_KEYWORDS bug_type.

(** The inner loop: does some keyword of [bug_type], uppercased, occur in
    the uppercased message? *)
Definition keyword_hit (msg bug_type : string) : bool :=
  existsb (fun kw => Py.contains (Py.upper kw) msg) (keywords bug_type).

(** The outer loop over the tuple of type names. *)
Fixpoint first_hit (msg : string) (order : list string) : option string :=
  match order with
  | [] => None
  | bug_type :: order' =>
      if keyword_hit msg bug_type then Some bug_type else first_hit msg order'
  end.

Definition determine_bug_type (error_msg : string) : string :=
  match error_msg with
  | EmptyString => "LOGIC"
  | _ =>
      let msg := Py.upper error_msg in
      match first_hit msg PRIORITY_ORDER with
      | Some bug_type => bug_type
      | None => "LOGIC"
      end
  end.

(** ** Pattern scanner: [run_regex_pattern_detection] *)

Module Pattern.
Import Re.

Definition quote : t := OneOf (String Str.DQ (String Str.SQ EmptyString)).

(** The pattern "^(?:import|from)\s+([\w.]+)". *)
Definition import_re : t :=
  Seqs [Bol; Alt (Lit "import") (Lit "from"); Plus Space;
        Group 1 (Plus (Cls (fun c => Str.isword c || Ascii.eqb c "."%char)))].

(** The pattern "^import\s+(\w+)". *)
Definition unused_re : t :=
  Seqs [Bol; Lit "import"; Plus Space; Group 1 (Plus Word)].

(** A word boundary, the escaped name, a word boundary. *)
Definition name_re (name : string) : t := Seqs [WordB; Lit name; WordB].

(** The pattern
    "^(?:def|class|if|elif|else|for|while|try|except|finally|with|async\s+def|async\s+for|async\s+with)\b". *)
Definition block_keyword_re : t :=
  Seqs [Bol;
        Alts [Lit "def"; Lit "class"; Lit "if"; Lit "elif"; Lit "else";
              Lit "for"; Lit "while"; Lit "try"; Lit "except"; Lit "finally";
              Lit "with";
              Seqs [Lit "async"; Plus Space; Lit "def"];
              Seqs [Lit "async"; Plus Space; Lit "for"];
              Seqs [Lit "async"; Plus Space; Lit "with"]];
        WordB].

(** The pattern "^(?:if|elif|while)\s+" followed by a group that takes the
    rest of the line. *)
Definition cond_re : t :=
  Seqs [Bol; Alts [Lit "if"; Lit "elif"; Lit "while"]; Plus Space;
        Group 1 (Star Any)].

(** The pattern "(?<![=!<>])=(?![=>])". *)
Definition single_eq_re : t :=
  Seqs [NotBehind (fun c => existsb (Ascii.eqb c) (list_ascii_of_string "=!<>"));
        Chr "="%char; NotAhead (OneOf "=>")].

(** The pattern "\b\d+\b\s*\+\s*[Q]|[Q]\s*\+\s*\b\d+\b", where Q stands
    for the two quote characters. *)
Definition str_plus_int_re : t :=
  Alt (Seqs [WordB; Plus Digit; WordB; Star Space; Chr "+"%char; Star Space;
             quote])
      (Seqs [quote; Star Space; Chr "+"%char; Star Space; WordB; Plus Digit;
             WordB]).

(** The pattern "print\s*\(\s*[Q][^Q)]*[Q]\s+\w", Q as above. *)
Definition print_re : t :=
  Seqs [Lit "print"; Star Space; Chr "("%char; Star Space; quote;
        Star (NoneOf (String Str.DQ (String Str.SQ ")")));
        quote; Plus Space; Word].

(** The pattern "/\s*0(?!\.)(?:\b|$)". *)
Definition div_zero_re : t :=
  Seqs [Chr "/"%char; Star Space; Chr "0"%char; NotAhead (Chr "."%char);
        Alt WordB Eol].

(** The patterns "^except\s*:" and "^except\s*Exception\s*:". *)
Definition bare_except_re : t :=
  Seqs [Bol; Lit "except"; Star Space; Chr ":"%char].
Definition except_exception_re : t :=
  Seqs [Bol; Lit "except"; Star Space; Lit "Exception"; Star Space;
        Chr ":"%char].

(** The pattern "==\s*None|!=\s*None|==\s*True|==\s*False". *)
Definition singleton_cmp_re : t :=
  Alts [Seqs [Lit "=="; Star Space; Lit "None"];
        Seqs [Lit "!="; Star Space; Lit "None"];
        Seqs [Lit "=="; Star Space; Lit "True"];
        Seqs [Lit "=="; Star Space; Lit "False"]].

Definition found {A : Type} (o : option A) : bool :=
  match o with Some _ => true | None => false end.

Definition regex_finding (rel_path : string) (lineno : Z)
  (msg bug_type : string) : Finding :=
  mkFinding rel_path lineno msg bug_type "regex".

(** The rules after the module lookup, in the order of the source; each
    one that fires appends its own finding. *)
Definition rules_after_lookup (full_text rel_path : string) (lineno : Z)
  (stripped : string) : list Finding :=
  let emit := regex_finding rel_path lineno in
  (match match_ unused_re stripped with
   | Some m =>
       let name := group 1 m in
       if (findall_count (name_re name) full_text <=? 1)%nat
       then [emit ("IMPORT: '" ++ name ++ "' imported but never used (F401)")
               "IMPORT"]
       else []
   | None => []
   end)
  ++ (let code_part := Str.rstrip (Str.before_char "#" stripped) in
      if found (match_ block_keyword_re stripped)
         && negb (String.eqb code_part EmptyString)
         && negb (Str.endswith_char code_part ":")
      then [emit "SyntaxError: missing colon at end of block statement"
              "SYNTAX"]
      else [])
  ++ (match match_ cond_re stripped with
      | Some m =>
          let cond_body :=
            Str.before_char ":" (Str.before_char "#" (group 1 m)) in
          if found (search single_eq_re cond_body)
          then [emit "SyntaxError: use '==' for comparison, not '=' (assignment in condition)"
                  "SYNTAX"]
          else []
      | None => []
      end)
  ++ (if found (search str_plus_int_re stripped)
      then [emit "TypeError: unsupported operand — cannot concatenate str and int directly"
              "TYPE_ERROR"]
      else [])
  ++ (if found (search print_re stripped)
      then [emit "SyntaxError: missing comma or + in print statement" "SYNTAX"]
      else [])
  ++ (if found (search div_zero_re stripped)
      then [emit "LOGIC: ZeroDivisionError — division by literal zero" "LOGIC"]
      else [])
  ++ (if found (match_ bare_except_re stripped)
         || found (match_ except_exception_re stripped)
      then [emit "LOGIC: bare except — catches all exceptions including system exits; use specific exception types"
              "LOGIC"]
      else [])
  ++ (if found (search singleton_cmp_re stripped)
      then [emit "LOGIC: use 'is' or 'is not' when comparing to None/True/False, not '=='"
              "LOGIC"]
      else []).

(** One turn of the loop over the lines.  [find_spec] is
    [importlib.util.find_spec] seen from here: [Some true] when the module is
    found, [Some false] when it is not, [None] when the lookup raises.  The
    result is [None] when the turn raises, which it can only do in the
    lookup, before anything is appended. *)
Definition scan_line (find_spec : string -> option bool)
  (full_text rel_path : string) (lineno : Z) (raw_line : string)
  : option (list Finding) :=
  let line := Str.rstrip_lf raw_line in
  let stripped := Str.strip line in
  if String.eqb stripped EmptyString || Str.startswith stripped "#" then Some []
  else
    let rest := rules_after_lookup full_text rel_path lineno stripped in
    match match_ import_re stripped with
    | Some m =>
        let module_name := Str.before_char "." (group 1 m) in
        match find_spec module_name with
        | None => None
        | Some true => Some rest
        | Some false =>
            Some (regex_finding rel_path lineno
                    ("ImportError: No module named '" ++ module_name
                       ++ "' — module not installed or not found")
                    "IMPORT" :: rest)
        end
    | None => Some rest
    end.

(** Whether the turn for [raw_line] raises: it is an import line and the
    lookup of its module raises. *)
Definition lookup_raises (find_spec : string -> option bool)
  (raw_line : string) : bool :=
  let stripped := Str.strip (Str.rstrip_lf raw_line) in
  if String.eqb stripped EmptyString || Str.startswith stripped "#" then false
  else
    match match_ import_re stripped with
    | Some m =>
        match find_spec (Str.before_char "." (group 1 m)) with
        | None => true
        | Some _ => false
        end
    | None => false
    end.

(** [for lineno, raw_line in enumerate(raw_lines, 1)], inside the [try]
    whose handler drops the rest of the file. *)
Fixpoint scan_lines (find_spec : string -> option bool)
  (full_text rel_path : string) (lineno : Z) (raw_lines : list string)
  : list Finding :=
  match raw_lines with
  | [] => []
  | raw_line :: raw_lines' =>
      match scan_line find_spec full_text rel_path lineno raw_line with
      | None => []
      | Some found_here =>
          found_here
            ++ scan_lines find_spec full_text rel_path (lineno + 1) raw_lines'
      end
  end.

End Pattern.

(** A Python file of the clone: its path below the clone directory and its
    text, [None] when it cannot be read. *)
Record SourceFile : Type := mkSource {
  rel_path : string;
  text : option string
}.

Definition scan_file (find_spec : string -> option bool) (f : SourceFile)
  : list Finding :=
  match text f with
  | None => []
  | Some full_text =>
      Pattern.scan_lines find_spec full_text (rel_path f) 1
        (readlines full_text)
  end.

(** [python_files] is what [get_python_files] lists; without a clone path
    the method returns the empty list. *)
Definition run_regex_pattern_detection (clone_path : option string)
  (find_spec : string -> option bool) (python_files : list SourceFile)
  : list Finding :=
  match clone_path with
  | None => []
  | Some _ => flat_map (scan_file find_spec) python_files
  end.

(** ** Syntax checker: [run_syntax_check] *)

(** What the interpreter answers to the three questions the checker asks.
    Line numbers of exceptions are naturals or absent ([e.lineno] is
    [None]). *)
Inductive tokenize_result : Type :=
| TokenizeOk
| TokenizeIndentationError (lineno : option N) (msg : string)
| TokenizeTokenError.

Inductive compile_result : Type :=
| CompileOk
| IndentationError (lineno : option N) (msg : string)
| SyntaxError (lineno : option N) (msg : string).

(** The [subprocess.CompletedProcess] that [_run_command] hands back. *)
Record CompletedProcess : Type := mkProcess {
  returncode : Z;
  stdout : string;
  stderr : string
}.

(** [tokenize] is [list(tokenize.generate_tokens(...))] on a text,
    [compile] is the built-in on a text, and [py_compile] is the run of
    [python3 -m py_compile] on a full path. *)
Record Interpreter : Type := mkInterpreter {
  tokenize : string -> tokenize_result;
  compile : string -> compile_result;
  py_compile : string -> CompletedProcess
}.

(** [e.lineno or 1]. *)
Definition lineno_or_1 (lineno : option N) : Z :=
  match lineno with
  | Some n => if (n =? 0)%N then 1 else Z.of_N n
  | None => 1
  end.

(** The closure [_add]: append unless the (file, line) pair is recorded. *)
Definition _add (errors : list Finding) (rel_path : string) (line_no : Z)
  (message bug_type source : string) : list Finding :=
  let already :=
    existsb (fun e => String.eqb (file e) rel_path && (line e =? line_no))
      errors in
  if already then errors
  else (errors ++ [mkFinding rel_path line_no message bug_type source])%list.

Module SyntaxCheck.
Import Re.

Definition dq : string := String Str.DQ EmptyString.

(** The three patterns tried on the output of [py_compile]:
    File Q(group 1: one or more characters other than Q)Q, line (group 2:
    digits), then commas or white space, then (group 3: the rest of the
    line); the same up to the digits, then the end; and (no colon)+ colon
    (digits) colon space (rest of the line).  Q is the double quote. *)
Definition file_line_msg_re : t :=
  Seqs [Lit ("File " ++ dq); Group 1 (Plus (NoneOf dq)); Lit (dq ++ ", line ");
        Group 2 (Plus Digit);
        Plus (Cls (fun c => Ascii.eqb c ","%char || Str.isspace c));
        Group 3 (Star Any)].
Definition file_line_re : t :=
  Seqs [Lit ("File " ++ dq); Group 1 (Plus (NoneOf dq)); Lit (dq ++ ", line ");
        Group 2 (Plus Digit); Eol].
Definition colon_re : t :=
  Seqs [Group 1 (Plus (NoneOf ":")); Chr ":"%char; Group 2 (Plus Digit);
        Lit ": "; Group 3 (Star Any)].

(** The loop over the three patterns, left at the first that matches:
    the path, the line number and the message it extracts. *)
Definition parse_py_compile (error_output : string)
  : option (string * Z * string) :=
  match search file_line_msg_re error_output with
  | Some m => Some (group 1 m, Str.digits_value (group 2 m), group 3 m)
  | None =>
      match search file_line_re error_output with
      | Some m =>
          Some (group 1 m, Str.digits_value (group 2 m),
                Str.take 200 (Str.strip error_output))
      | None =>
          match search colon_re error_output with
          | Some m =>
              Some (group 1 m, Str.digits_value (group 2 m), group 3 m)
          | None => None
          end
      end
  end.

(** Pass 1. *)
Definition pass_tokenize (I : Interpreter) (rel_path content : string)
  (errors : list Finding) : list Finding :=
  match tokenize I content with
  | TokenizeIndentationError lineno msg =>
      _add errors rel_path (lineno_or_1 lineno) ("IndentationError: " ++ msg)
        "INDENTATION" "tokenize"
  | TokenizeTokenError => errors
  | TokenizeOk => errors
  end.

(** Pass 2. *)
Definition pass_compile (I : Interpreter) (rel_path content : string)
  (errors : list Finding) : list Finding :=
  match compile I content with
  | IndentationError lineno msg =>
      _add errors rel_path (lineno_or_1 lineno) ("IndentationError: " ++ msg)
        "INDENTATION" "compile"
  | SyntaxError lineno msg =>
      _add errors rel_path (lineno_or_1 lineno) ("SyntaxError: " ++ msg)
        "SYNTAX" "compile"
  | CompileOk => errors
  end.

(** Pass 3. *)
Definition pass_py_compile (I : Interpreter) (clone py_file : string)
  (errors : list Finding) : list Finding :=
  let result := py_compile I py_file in
  if returncode result =? 0 then errors
  else
    let error_output :=
      if negb (String.eqb (stderr result) EmptyString) then stderr result
      else stdout result in
    match parse_py_compile error_output with
    | Some (rp, ln, msg) =>
        _add errors (normalize_path clone rp) ln
          (Str.take 200 (Str.strip msg)) (determine_bug_type msg) "py_compile"
    | None => errors
    end.

(** The pattern "^(?:def|class|async\s+def)\s". *)
Definition block_header_re : t :=
  Seqs [Bol;
        Alts [Lit "def"; Lit "class"; Seqs [Lit "async"; Plus Space; Lit "def"]];
        Space].

(** The test [is_new_block] of pass 4 on line [i] (from 0). *)
Definition is_new_block (i : nat) (raw_line : string) : bool :=
  let stripped := Str.strip raw_line in
  Pattern.found (match_ block_header_re stripped) && (0 <? i)%nat.

(** What pass 4 does with one accumulated block. *)
Definition compile_block (I : Interpreter) (rel_path : string)
  (block_start : nat) (block_lines : list string) (errors : list Finding)
  : list Finding :=
  let block_src := Str.join nl block_lines in
  if String.eqb (Str.strip block_src) EmptyString then errors
  else
    match compile I block_src with
    | CompileOk => errors
    | IndentationError lineno msg =>
        _add errors rel_path (Z.of_nat block_start + lineno_or_1 lineno)
          ("IndentationError: " ++ msg) "INDENTATION" "block_scan"
    | SyntaxError _ _ =>
        if (1 <? length block_lines)%nat then
          let body_lines := tl block_lines in
          let body_src := Str.join nl body_lines in
          if String.eqb (Str.strip body_src) EmptyString then errors
          else
            match compile I body_src with
            | IndentationError lineno msg =>
                _add errors rel_path
                  (Z.of_nat block_start + 1 + lineno_or_1 lineno)
                  ("IndentationError: " ++ msg) "INDENTATION" "block_scan"
            | SyntaxError _ _ => errors
            | CompileOk => errors
            end
        else errors
    end.

(** The loop of pass 4 from line [i] on: [todo] holds the lines from [i],
    and the state is [block_start] and the error list. *)
Fixpoint block_scan (I : Interpreter) (rel_path : string) (lines : list string)
  (i : nat) (todo : list string) (block_start : nat) (errors : list Finding)
  : list Finding :=
  match todo with
  | [] => errors
  | raw_line :: todo' =>
      let new_block := is_new_block i raw_line in
      let errors' :=
        if new_block || (i =? length lines - 1)%nat then
          compile_block I rel_path block_start
            (Str.slice lines block_start (if new_block then i else i + 1))
            errors
        else errors in
      block_scan I rel_path lines (S i) todo'
        (if new_block then i else block_start) errors'
  end.

(** The lines at which pass 4 sets [block_start], in order. *)
Fixpoint block_starts (i : nat) (todo : list string) : list nat :=
  match todo with
  | [] => []
  | raw_line :: todo' =>
      if is_new_block i raw_line then i :: block_starts (S i) todo'
      else block_starts (S i) todo'
  end.

(** The body of the loop over the files. *)
Definition check_file (I : Interpreter) (clone : string)
  (errors : list Finding) (f : SourceFile) : list Finding :=
  match text f with
  | None => errors
  | Some content =>
      let lines := Str.splitlines content in
      let errors1 := pass_tokenize I (rel_path f) content errors in
      let errors2 := pass_compile I (rel_path f) content errors1 in
      let errors3 :=
        pass_py_compile I clone (clone ++ "/" ++ rel_path f) errors2 in
      block_scan I (rel_path f) lines 0 lines 0 errors3
  end.

End SyntaxCheck.

Definition run_syntax_check (clone_path : option string) (I : Interpreter)
  (python_files : list SourceFile) : list Finding :=
  match clone_path with
  | None => []
  | Some clone => fold_left (SyntaxCheck.check_file I clone) python_files []
  end.

(** ** Dynamic executor: [_analyze_single_file] *)

(** [_map_exception_to_bug_type]: the dictionary and its default. *)
Definition exception_mapping : list (string * string) :=
  [ ("IndentationError", "INDENTATION"); ("TabError", "INDENTATION");
    ("SyntaxError", "SYNTAX");
    ("ImportError", "IMPORT"); ("ModuleNotFoundError", "IMPORT");
    ("TypeError", "TYPE_ERROR"); ("UnicodeDecodeError", "TYPE_ERROR");
    ("UnicodeEncodeError", "TYPE_ERROR");
    ("NameError", "LOGIC"); ("AttributeError", "LOGIC");
    ("IndexError", "LOGIC"); ("KeyError", "LOGIC"); ("ValueError", "LOGIC");
    ("ZeroDivisionError", "LOGIC"); ("RecursionError", "LOGIC");
    ("FileNotFoundError", "LOGIC"); ("OSError", "LOGIC");
    ("OverflowError", "LOGIC"); ("MemoryError", "LOGIC");
    ("AssertionError", "LOGIC"); ("RuntimeError", "LOGIC");
    ("NotImplementedError", "LOGIC"); ("StopIteration", "LOGIC");
    ("PermissionError", "LOGIC"); ("FloatingPointError", "LOGIC");
    ("LookupError", "LOGIC") ].

Fixpoint mapping_get (mapping : list (string * string)) (k default : string)
  : string :=
  match mapping with
  | [] => default
  | (k', v) :: mapping' =>
      if String.eqb k k' then v else mapping_get mapping' k default
  end.

Definition _map_exception_to_bug_type (exception_name : string) : string :=
  mapping_get exception_mapping exception_name "LOGIC".

Module Dynamic.

(** A [FrameSummary] of [traceback.extract_tb]. *)
Record FrameSummary : Type := mkFrame {
  filename : string;
  lineno : Z
}.

(** What starting the child process and executing the module in it does: it
    loads; an [Exception] comes out with its traceback (outermost frame
    first); the process ends there ([SystemExit], [KeyboardInterrupt], a
    kill, the time limit of [_run_command]); or the module writes to
    standard output.  The parent decodes every line of the child's standard
    output that starts with a brace, so what it reads of a module that
    writes there depends on the bytes written and on their order with the
    runner's buffered lines; this model does not follow that, and a run with
    [LoadWrites] or [Writes] has no result in it. *)
Inductive load_result : Type :=
| Loaded
| LoadRaises (exc msg : string) (tb : list FrameSummary)
| LoadEnds
| LoadWrites.

(** What calling a function without arguments does: it returns; an
    [Exception] other than [TimeoutError] comes out; one of [SystemExit],
    [KeyboardInterrupt], [TimeoutError] comes out (the one-second alarm
    raises the last), which the runner drops; the process ends during the
    call; or the call writes to standard output.  The runner's lines wait in
    the buffer of the child's standard output, a pipe, until the buffer
    fills or the interpreter exits: when the process ends during a call
    ([os._exit], a kill, the time limit of [_run_command], an exception that
    the runner does not catch) the parent reads those of the lines printed
    so far that had left the buffer, the first [reached] of them. *)
Inductive call_result : Type :=
| Returns
| Raises (exc msg : string) (tb : list FrameSummary)
| Dropped
| Ends (reached : nat)
| Writes.

(** The file under test, as the executor sees it: whether [compile] and
    [ast.parse] accept it, the names of the [FunctionDef] children of the
    module in order, what loading does, what calling [getattr(mod, name)]
    does ([None] when it is not callable), whether the total budget still
    holds before the turn number [k] of the loop over the names, and how
    the child ends once the runner is through: [None] when the interpreter
    exits and writes its buffer out, [Some reached] when it does not (a
    thread that keeps it alive until the time limit, a kill) and the parent
    reads the first [reached] lines only. *)
Record Module : Type := mkModule {
  compiles : bool;
  top_level_defs : list string;
  load : load_result;
  attr : string -> option call_result;
  in_budget : nat -> bool;
  at_exit : option nat
}.

(** The JSON object the runner prints for a failure and the parent decodes:
    the four keys are always there, and a text and an integer come back from
    JSON as they went in. *)
Record Report : Type := mkReport {
  r_file : string;
  r_line : Z;
  r_exc : string;
  r_msg : string
}.

(** The line the runner reports: that of the innermost frame whose file
    name contains the path of the file under test, else that of the
    innermost frame, else 1. *)
Definition pick_lineno (py_file_str : string) (tb : list FrameSummary) : Z :=
  match find (fun f => Py.contains py_file_str (filename f)) (rev tb) with
  | Some f => lineno f
  | None =>
      match rev tb with
      | f :: _ => lineno f
      | [] => 1
      end
  end.

Definition report (py_file_str rel_path exc msg : string)
  (tb : list FrameSummary) : Report :=
  mkReport rel_path (pick_lineno py_file_str tb) exc (Str.take 200 msg).

(** What the parent reads of the lines [printed] when the runner is
    through. *)
Definition finish (M : Module) (printed : list Report) : list Report :=
  match at_exit M with
  | None => printed
  | Some reached => firstn reached printed
  end.

(** The loop [for fname in func_names] of the runner, at turn [k], with the
    lines [printed] so far: what the parent reads in the end. *)
Fixpoint call_each (M : Module) (py_file_str rel_path : string)
  (func_names : list string) (k : nat) (printed : list Report)
  : option (list Report) :=
  match func_names with
  | [] => Some (finish M printed)
  | fname :: rest =>
      if negb (in_budget M k) then Some (finish M printed)
      else
        match attr M fname with
        | None => call_each M py_file_str rel_path rest (S k) printed
        | Some Returns => call_each M py_file_str rel_path rest (S k) printed
        | Some Dropped => call_each M py_file_str rel_path rest (S k) printed
        | Some (Raises exc msg tb) =>
            call_each M py_file_str rel_path rest (S k)
              (printed ++ [report py_file_str rel_path exc msg tb])
        | Some (Ends reached) => Some (firstn reached printed)
        | Some Writes => None
        end
  end.

(** The runner script: what the parent reads on its standard output. *)
Definition runner (M : Module) (py_file_str rel_path : string)
  (func_names : list string) : option (list Report) :=
  match load M with
  | LoadRaises exc msg tb =>
      Some (finish M [report py_file_str rel_path exc msg tb])
  | LoadEnds => Some []
  | LoadWrites => None
  | Loaded => call_each M py_file_str rel_path func_names 0 []
  end.

Definition seen_key : Type := (string * Z * string)%type.

Definition seen_key_eqb (a b : seen_key) : bool :=
  String.eqb (fst (fst a)) (fst (fst b)) && (snd (fst a) =? snd (fst b))
  && String.eqb (snd a) (snd b).

Definition finding_of (r : Report) : Finding :=
  mkFinding (r_file r) (r_line r) (r_exc r ++ ": " ++ r_msg r)
    (_map_exception_to_bug_type (r_exc r)) "dynamic".

(** The loop of the parent over the decoded lines, with the set
    [seen_in_file]. *)
Fixpoint parse_reports (rel_path : string) (reports : list Report)
  (seen_in_file : list seen_key) : list Finding :=
  match reports with
  | [] => []
  | r :: rest =>
      let key := (rel_path, r_line r, r_exc r) in
      if existsb (seen_key_eqb key) seen_in_file
      then parse_reports rel_path rest seen_in_file
      else finding_of r :: parse_reports rel_path rest (key :: seen_in_file)
  end.

(** The reports that the parent turns into findings. *)
Fixpoint first_reports (rel_path : string) (reports : list Report)
  (seen_in_file : list seen_key) : list Report :=
  match reports with
  | [] => []
  | r :: rest =>
      let key := (rel_path, r_line r, r_exc r) in
      if existsb (seen_key_eqb key) seen_in_file
      then first_reports rel_path rest seen_in_file
      else r :: first_reports rel_path rest (key :: seen_in_file)
  end.

Definition is_public (name : string) : bool := negb (Str.startswith name "_").

Definition func_names (M : Module) : list string :=
  firstn 20 (filter is_public (top_level_defs M)).

(** The reports the parent reads for the file, when it runs the child. *)
Definition printed (M : Module) (clone rel_path : string)
  : option (list Report) :=
  runner M (clone ++ "/" ++ rel_path) rel_path (func_names M).

(** [None] when the run has no result in this model (the module under test
    writes to standard output). *)
Definition _analyze_single_file (M : Module) (clone rel_path : string)
  : option (list Finding) :=
  if negb (compiles M) then Some []
  else
    match func_names M with
    | [] => Some []
    | _ =>
        match printed M clone rel_path with
        | Some reports => Some (parse_reports rel_path reports [])
        | None => None
        end
    end.



End Dynamic.

(** ** Aggregator: the tail of [run_comprehensive_analysis] *)

Fixpoint index_of (s : string) (l : list string) (i : nat) : option nat :=
  match l with
  | [] => None
  | x :: l' => if String.eqb s x then Some i else index_of s l' (S i)
  end.

(** [TYPE_PRIORITY.get(t, 99)]. *)
Definition TYPE_PRIORITY (t : string) : nat :=
  match index_of t PRIORITY_ORDER 0 with
  | Some i => i
  | None => 99%nat
  end.

Definition discarded (fp : string) : bool :=
  Py.contains ".ipynb" fp || Py.contains "/docstrings/" fp
  || Py.contains "/doc/" fp.

(** One turn of the loop [for error in all_errors]. *)
Definition dedup_step (clone : string) (best : Dict.t Finding) (error : Finding)
  : Dict.t Finding :=
  let fp := normalize_path clone (file error) in
  if discarded fp then best
  else
    let error' := set_file fp error in
    let key := (fp, line error) in
    match Dict.get key best with
    | None => Dict.set key error' best
    | Some prev =>
        if (TYPE_PRIORITY (type error') <? TYPE_PRIORITY (type prev))%nat
        then Dict.set key error' best
        else best
    end.

Definition dedup (clone : string) (all_errors : list Finding) : Dict.t Finding :=
  fold_left (dedup_step clone) all_errors [].

Definition unique_errors (clone : string) (all_errors : list Finding)
  : list Finding :=
  Dict.values (dedup clone all_errors).

(** The aggregation stage on the concatenated streams; [None] is the
    [ValueError] of [islice] on a [max_fixes] below 0 or above
    [sys.maxsize]. *)
Definition aggregate (clone : string) (max_fixes : Z) (all_errors : list Finding)
  : option (list Finding) :=
  Py.islice (unique_errors clone all_errors) max_fixes.

Definition run_comprehensive_analysis (clone : string) (max_fixes : Z)
  (syntax_errors pattern_errors lint_errors static_errors dynamic_errors
     : list Finding) : option (list Finding) :=
  aggregate clone max_fixes
    (syntax_errors ++ pattern_errors ++ lint_errors ++ static_errors
       ++ dynamic_errors).

(** ** Fixes: [_make_fix] and [apply_fix] *)

Module FixResult.
Record t : Type := mk {
  file : string;
  bug_type : string;
  line : Z;
  fix_text : string;  (* the field [fix], a reserved word here *)
  status : string;
  original_error : string
}.
Definition set_status (s : string) (r : t) : t :=
  mk (file r) (bug_type r) (line r) (fix_text r) s (original_error r).
End FixResult.

(** [generate_fix] stands for [generate_fix_ai], which asks a remote model
    or falls back on fixed texts. *)
Definition _make_fix (generate_fix : string -> string -> string -> string)
  (error : Finding) : FixResult.t :=
  let bug_type :=
    if String.eqb (type error) EmptyString
    then determine_bug_type (message error)
    else type error in
  FixResult.mk (file error) bug_type (line error)
    (generate_fix (message error) bug_type (file error))
    "DETECTED" (message error).

(** What writing a text to a file that was opened for writing, and so
    emptied, comes to: the text is written, or the write raises (a character
    that the encoding lacks, a full disk) and leaves [remains] in the file. *)
Inductive write_result : Type :=
| Written
| Stopped (remains : string).

(** A file of the working copy: its stored text, whether opening it for
    reading and reading its lines succeeds, whether opening it for writing
    succeeds, and what writing a text to it comes to. *)
Record File : Type := mkFile {
  content : string;
  readable : bool;
  writable : bool;
  write : string -> write_result
}.

(** The file system, by full path. *)
Definition FS : Type := string -> option File.

Definition fs_write (fs : FS) (path text : string) : FS :=
  fun p => if String.eqb p path
           then match fs p with
                | Some f => Some (mkFile text (readable f) (writable f) (write f))
                | None => Some (mkFile text true true (fun _ => Written))
                end
           else fs p.

Definition CR : ascii := ascii_of_nat 13.

(** What reading in text mode makes of the stored text: a carriage return
    with the line feed after it, and a carriage return alone, become one
    line feed.  [after_cr] tells that the character before was a carriage
    return.  Writing in text mode leaves a line feed as it is (the line
    separator of the system being the line feed). *)
Fixpoint translate_newlines (after_cr : bool) (s : string) : string :=
  match s with
  | EmptyString => EmptyString
  | String c t =>
      if Ascii.eqb c CR then String LF (translate_newlines true t)
      else if Ascii.eqb c LF && after_cr then translate_newlines false t
      else String c (translate_newlines false t)
  end.

Definition universal_newlines (s : string) : string :=
  translate_newlines false s.

(** [clone_path / rel]: an absolute right operand replaces the left one. *)
Definition path_join (clone rel : string) : string :=
  if String.prefix "/" rel then rel else clone ++ "/" ++ rel.

(** A call either raises or returns. *)
Inductive outcome (A : Type) : Type :=
| Raised (exc : string)
| Returned (a : A).
Arguments Raised {A} exc.
Arguments Returned {A} a.

(** [apply_fix]: the result carries the returned flag, the file system and
    the fix object, which the method mutates.  Every exception between the
    opening for reading and the end of the write is caught by the one
    handler, which sets FAILED and returns [False]. *)
Definition apply_fix (clone_path : option string) (fs : FS) (fx : FixResult.t)
  : outcome (bool * FS * FixResult.t) :=
  match clone_path with
  | None => Raised "RuntimeError"
  | Some clone =>
      let file_path := path_join clone (FixResult.file fx) in
      match fs file_path with
      | None => Returned (false, fs, fx)
      | Some f =>
          if negb (readable f)
          then Returned (false, fs, FixResult.set_status "FAILED" fx)
          else
            let lines := readlines (universal_newlines (content f)) in
            if FixResult.line fx <=? Z.of_nat (length lines) then
              let comment :=
                nl ++ "# AI-FIX (" ++ FixResult.bug_type fx ++ "): "
                   ++ FixResult.fix_text fx ++ nl in
              let lines' := list_insert (FixResult.line fx - 1) comment lines in
              if negb (writable f)
              then Returned (false, fs, FixResult.set_status "FAILED" fx)
              else
                match write f (writelines lines') with
                | Written =>
                    Returned (true, fs_write fs file_path (writelines lines'),
                              FixResult.set_status "APPLIED" fx)
                | Stopped remains =>
                    Returned (false, fs_write fs file_path remains,
                              FixResult.set_status "FAILED" fx)
                end
            else Returned (false, fs, fx)
      end
  end.

(** ** A reference interpreter for the examples *)

(** A model of what CPython 3.11 answers on line-structured sources: every
    statement is on one line, a line is blank, a comment, a block header
    ([def], [async def], [class], [if], [for], [while], [with])
    or a simple statement, and a simple statement is taken to be
    well-formed.  It follows the tokenizer's indentation stack and the
    parser's demand of a colon and of an indented block after a header.  The
    interpreter is not part of the repository; the checker is proved against
    any [Interpreter], and this one serves to run it on examples. *)
Module CPython.

Definition TAB : ascii := Str.chr 9.
Definition FF : ascii := Str.chr 12.

(** The column of the first character of a line, as the tokenizer counts
    it (a tab goes to the next multiple of 8, a form feed starts again),
    the same with tabs counted as one, and the line from there. *)
Fixpoint indentation (s : string) (col altcol : nat) : nat * nat * string :=
  match s with
  | EmptyString => (col, altcol, EmptyString)
  | String c t =>
      if Ascii.eqb c " "%char then indentation t (S col) (S altcol)
      else if Ascii.eqb c TAB then indentation t ((col / 8 + 1) * 8) (S altcol)
      else if Ascii.eqb c FF then indentation t 0 0
      else (col, altcol, s)
  end.

Definition is_blank (body : string) : bool :=
  match body with
  | EmptyString => true
  | String c _ => Ascii.eqb c "#"%char || Ascii.eqb c (Str.chr 13)
  end.

(** [body] starts with the word [kw]. *)
Definition starts_with_word (kw body : string) : bool :=
  String.prefix kw body
  && match String.get (String.length kw) body with
     | Some c => negb (Str.isword c)
     | None => true
     end.

Definition after_async (body : string) : string :=
  Str.lstrip_with (fun c => Ascii.eqb c " "%char || Ascii.eqb c TAB)
    (String.substring 5 (String.length body - 5) body).

(** The statement a header opens, as the error message names it. *)
Definition opener (body : string) : option string :=
  let def_in (b : string) :=
    if starts_with_word "def" b then Some "function definition" else None in
  if starts_with_word "class" body then Some "class definition"
  else if starts_with_word "if" body then Some "'if' statement"
  else if starts_with_word "while" body then Some "'while' statement"
  else if starts_with_word "for" body then Some "'for' statement"
  else if starts_with_word "with" body then Some "'with' statement"
  else if starts_with_word "async" body then def_in (after_async body)
  else def_in body.

(** The code of a line without its comment, and whether a colon stands
    outside all brackets and quotes; [quote] is the quote that is open. *)
Fixpoint code_scan (s : string) (depth : nat) (quote : option ascii)
  : string * bool :=
  match s with
  | EmptyString => (EmptyString, false)
  | String c t =>
      match quote with
      | Some q =>
          let '(code, colon) :=
            code_scan t depth (if Ascii.eqb c q then None else quote) in
          (String c code, colon)
      | None =>
          if Ascii.eqb c "#"%char then (EmptyString, false)
          else
            let depth' :=
              if existsb (Ascii.eqb c) (list_ascii_of_string "([{") then S depth
              else if existsb (Ascii.eqb c) (list_ascii_of_string ")]}")
                   then pred depth
                   else depth in
            let quote' :=
              if Ascii.eqb c Str.DQ || Ascii.eqb c Str.SQ then Some c
              else None in
            let '(code, colon) := code_scan t depth' quote' in
            (String c code, colon || (Ascii.eqb c ":"%char && (depth =? 0)%nat))
      end
  end.

Inductive line_kind : Type :=
| Simple
| Header (what : string)
| BadHeader.

Definition classify (body : string) : line_kind :=
  match opener body with
  | None => Simple
  | Some what =>
      let '(code, colon) := code_scan body 0 None in
      if Str.endswith_char (Str.rstrip code) ":" then Header what
      else if colon then Simple
      else BadHeader
  end.

Definition decimal (n : nat) : string :=
  DecimalString.NilEmpty.string_of_uint (Nat.to_uint n).

Definition tab_msg : string :=
  "inconsistent use of tabs and spaces in indentation".
Definition unindent_msg : string :=
  "unindent does not match any outer indentation level".
Definition expected_block_msg (what : string) (h : nat) : string :=
  "expected an indented block after " ++ what ++ " on line " ++ decimal h.

Fixpoint pop_to (col : nat) (stack : list (nat * nat)) : list (nat * nat) :=
  match stack with
  | (top, alt) :: stack' =>
      if (col <? top)%nat then pop_to col stack' else stack
  | [] => []
  end.

(** The tokenizer at the start of a line: an error message, or the new
    stack and whether an INDENT token comes out. *)
Definition indent_step (stack : list (nat * nat)) (col alt : nat)
  : string + (list (nat * nat) * bool) :=
  let '(top, alttop) := hd (0%nat, 0%nat) stack in
  if (col =? top)%nat then
    if (alt =? alttop)%nat then inr (stack, false) else inl tab_msg
  else if (top <? col)%nat then
    if (alt <=? alttop)%nat then inl tab_msg
    else inr ((col, alt) :: stack, true)
  else
    let stack' := pop_to col stack in
    let '(top', alttop') := hd (0%nat, 0%nat) stack' in
    if (col =? top')%nat then
      if (alt =? alttop')%nat then inr (stack', false) else inl tab_msg
    else inl unindent_msg.

(** The parser over the lines from number [n] on; [pending] is the header
    whose block has not begun, with its line. *)
Fixpoint compile_lines (todo : list string) (n total : nat)
  (stack : list (nat * nat)) (pending : option (nat * string))
  : compile_result :=
  match todo with
  | [] =>
      match pending with
      | Some (h, what) =>
          IndentationError (Some (N.of_nat total)) (expected_block_msg what h)
      | None => CompileOk
      end
  | l :: todo' =>
      let '(col, alt, body) := indentation l 0 0 in
      if is_blank body then compile_lines todo' (S n) total stack pending
      else
        match indent_step stack col alt with
        | inl msg => IndentationError (Some (N.of_nat n)) msg
        | inr (stack', indented) =>
            match pending, indented with
            | Some (h, what), false =>
                IndentationError (Some (N.of_nat n)) (expected_block_msg what h)
            | None, true =>
                IndentationError (Some (N.of_nat n)) "unexpected indent"
            | _, _ =>
                match classify body with
                | BadHeader => SyntaxError (Some (N.of_nat n)) "expected ':'"
                | Header what =>
                    compile_lines todo' (S n) total stack' (Some (n, what))
                | Simple => compile_lines todo' (S n) total stack' None
                end
            end
        end
  end.

Definition compile (src : string) : compile_result :=
  let lines := Str.splitlines src in
  compile_lines lines 1 (length lines) [(0%nat, 0%nat)] None.

(** The [tokenize] module only objects to a dedent that reaches no
    enclosing level. *)
Fixpoint tokenize_lines (todo : list string) (n : nat) (stack : list (nat * nat))
  : tokenize_result :=
  match todo with
  | [] => TokenizeOk
  | l :: todo' =>
      let '(col, _, body) := indentation l 0 0 in
      if is_blank body then tokenize_lines todo' (S n) stack
      else
        let '(top, _) := hd (0%nat, 0%nat) stack in
        if (top <? col)%nat then tokenize_lines todo' (S n) ((col, 0%nat) :: stack)
        else
          let stack' := pop_to col stack in
          if (col =? fst (hd (0%nat, 0%nat) stack'))%nat
          then tokenize_lines todo' (S n) stack'
          else TokenizeIndentationError (Some (N.of_nat n)) unindent_msg
  end.

Definition tokenize (src : string) : tokenize_result :=
  tokenize_lines (Str.splitlines src) 1 [(0%nat, 0%nat)].

(** The interpreter whose [py_compile] runs are given by [runs]. *)
Definition interpreter (runs : string -> CompletedProcess) : Interpreter :=
  mkInterpreter tokenize compile runs.

End CPython.

(** ** Vocabulary of the properties *)

(** What the loop stores for [error]: the same dictionary with its path
    normalised; and whether the loop keeps it at all. *)
Definition normalized (clone : string) (error : Finding) : Finding :=
  set_file (normalize_path clone (file error)) error.

Definition kept (clone : string) (error : Finding) : bool :=
  negb (discarded (normalize_path clone (file error))).

(** The loop invariant of the deduplication, over the findings [seen] so
    far. *)
Definition dedup_inv (clone : string) (seen : list Finding)
  (best : Dict.t Finding) : Prop :=
  NoDup (Dict.keys best)
  /\ (forall k e, In (k, e) best ->
        k = key_of e
        /\ exists x, In x seen /\ kept clone x = true /\ e = normalized clone x)
  /\ (forall x, In x seen -> kept clone x = true ->
        exists e, Dict.get (key_of (normalized clone x)) best = Some e
                  /\ (TYPE_PRIORITY (type e) <= TYPE_PRIORITY (type x))%nat).

(** The specification's reading of a match: some keyword of the type occurs
    in the message, letter case apart. *)
Definition keyword_matches (error_msg bug_type : string) : Prop :=
  exists kw, In kw (keywords bug_type)
             /\ Py.contains (Py.upper kw) (Py.upper error_msg) = true.

(** [errors'] comes from [errors] by appending only, and without putting a
    (file, line) pair twice in a list that had none twice. *)
Definition grows (errors errors' : list Finding) : Prop :=
  (exists added, errors' = (errors ++ added)%list)
  /\ (NoDup (map key_of errors) -> NoDup (map key_of errors')).

(** Every entry of [errors'] beyond [errors] has a line of at least 1. *)
Definition adds_positive_lines (errors errors' : list Finding) : Prop :=
  exists added, errors' = (errors ++ added)%list
                /\ Forall (fun e => 1 <= line e) added.

Definition is_indentation (e : Finding) : bool :=
  String.eqb (type e) "INDENTATION".

(** ** Example inputs *)

(** Two findings that meet on line 3 of [app.py], one of them still carrying
    the clone directory in its path; and a finding whose path has the clone
    directory wedged inside itself. *)
Definition logic_at_3 : Finding :=
  mkFinding "/tmp/repo_clone/app.py" 3 "LOGIC: ZeroDivisionError" "LOGIC" "regex".
Definition syntax_at_3 : Finding :=
  mkFinding "app.py" 3 "SyntaxError: invalid syntax" "SYNTAX" "compile".
Definition nested_root_finding : Finding :=
  mkFinding "/tmp/repo/tmp/repo_clone/_clone/x.py" 1 "F401: unused" "LINTING"
    "ruff".

(** A three-line file and a fix aimed at its fifth line. *)
Definition three_lines : string :=
  "import os" ++ nl ++ "x = 1" ++ nl ++ "print(x)" ++ nl.

Definition small_repo : FS :=
  fun p => if String.eqb p "/tmp/repo_clone/app.py"
           then Some (mkFile three_lines true true (fun _ => Written))
           else None.

Definition fix_at_5 : FixResult.t :=
  FixResult.mk "app.py" "LOGIC" 5 "review the algorithm logic" "DETECTED"
    "LOGIC: ZeroDivisionError".

(** The three lines of the specification's examples. *)
Definition concat_line : string :=
  "x = " ++ String Str.DQ "val" ++ String Str.DQ " + 5".
Definition assign_in_if_line : string := "if x = 5:".
Definition div_zero_line : string := "result = 10 / 0".

(** The example lines with the type each one is reported under. *)
Definition pattern_examples : list (string * string) :=
  [(concat_line, "TYPE_ERROR"); (assign_in_if_line, "SYNTAX");
   (div_zero_line, "LOGIC")].

(** A lookup that finds every module. *)
Definition all_found (module_name : string) : option bool := Some true.

(** The two-block file of the specification: a header without its colon,
    then a block whose body is indented by eight columns. *)
Definition two_block_text : string :=
  "def f()" ++ nl ++ "    x = 1" ++ nl ++ "def g():" ++ nl
  ++ "        print(1)" ++ nl.
Definition two_block_file : SourceFile := mkSource "ex.py" (Some two_block_text).

(** What [python3 -m py_compile] prints for it. *)
Definition two_block_run (py_file : string) : CompletedProcess :=
  mkProcess 1 EmptyString
    ("  File " ++ SyntaxCheck.dq ++ py_file ++ SyntaxCheck.dq ++ ", line 1" ++ nl
     ++ "    def f()" ++ nl ++ "           ^" ++ nl
     ++ "SyntaxError: expected ':'" ++ nl).

(** A well-formed class with one method. *)
Definition class_text : string :=
  "class A:" ++ nl ++ "    def m(self):" ++ nl ++ "        pass" ++ nl.
Definition class_file : SourceFile := mkSource "a.py" (Some class_text).
Definition clean_run (py_file : string) : CompletedProcess :=
  mkProcess 0 EmptyString EmptyString.

(** A file that declares an encoding the interpreter does not know; read as
    text it is a comment and an assignment, and [py_compile] rejects it at
    line 0. *)
Definition unknown_encoding_text : string :=
  "# -*- coding: foo -*-" ++ nl ++ "x = 1" ++ nl.
Definition unknown_encoding_file : SourceFile :=
  mkSource "enc.py" (Some unknown_encoding_text).
Definition unknown_encoding_run (py_file : string) : CompletedProcess :=
  mkProcess 1 EmptyString
    ("  File " ++ SyntaxCheck.dq ++ py_file ++ SyntaxCheck.dq ++ ", line 0" ++ nl
     ++ "SyntaxError: unknown encoding: foo" ++ nl).

(** A fixed fix text. *)
Definition review_manually (msg bug_type path : string) : string :=
  "review the code manually for correctness".

(** A module with one function that divides by zero on line 2, defined
    twice, so that the runner calls it twice. *)
Definition div_tb : list Dynamic.FrameSummary :=
  [Dynamic.mkFrame "<string>" 36; Dynamic.mkFrame "/tmp/repo_clone/m.py" 2].

Definition div_module : Dynamic.Module :=
  Dynamic.mkModule true ["boom"; "_helper"; "boom"] Dynamic.Loaded
    (fun name =>
       if String.eqb name "boom"
       then Some (Dynamic.Raises "ZeroDivisionError" "division by zero" div_tb)
       else Some Dynamic.Returns)
    (fun _ => true) None.




(** ** Names of the run: [__init__] *)

Module Names.

(** The substitution of "_" for the pattern "\s+": every longest run of
    white space becomes one underscore.  [in_run] tells that the character
    before was white space. *)
Fixpoint sub_spaces (in_run : bool) (s : string) : string :=
  match s with
  | EmptyString => EmptyString
  | String c t =>
      if Str.isspace c
      then if in_run then sub_spaces true t
           else String "_"%char (sub_spaces true t)
      else String c (sub_spaces false t)
  end.

(** The class "[A-Z0-9_]". *)
Definition allowed (c : ascii) : bool :=
  Str.code_in 65 90 c || Str.isdigit c || Ascii.eqb c "_"%char.

(** The substitution of nothing for every character outside that class. *)
Fixpoint keep_allowed (s : string) : string :=
  match s with
  | EmptyString => EmptyString
  | String c t => if allowed c then String c (keep_allowed t) else keep_allowed t
  end.

(** What [__init__] stores for [team_name] and for [leader_name]. *)
Definition sanitize (name : string) : string :=
  keep_allowed (sub_spaces false (Py.upper (Str.strip name))).

Definition branch_name (team_name leader_name : string) : string :=
  sanitize team_name ++ "_" ++ sanitize leader_name ++ "_AI_Fix".

End Names.

(** ** The files under analysis: [get_python_files] *)

Definition skip_words : list string :=
  ["__pycache__"; ".git"; "venv"; "env"; "node_modules"; ".tox"].

(** [py_file.name]: what follows the last slash of the path. *)
Fixpoint name_of (path : string) : string :=
  match path with
  | EmptyString => EmptyString
  | String _ t => if Py.contains "/" path then name_of t else path
  end.

(** The two tests of the loop; a path that passes both is appended. *)
Definition listed (py_file : string) : bool :=
  negb (existsb (fun x => Py.contains x py_file) skip_words)
  && negb (Py.contains "test_" (name_of py_file)
           || Str.startswith (name_of py_file) "test_").

(** [rglob] is what [self.clone_path.rglob("*.py")] yields, each path as
    [str] gives it. *)
Definition get_python_files (clone_path : option string) (rglob : list string)
  : list string :=
  match clone_path with
  | None => []
  | Some _ => filter listed rglob
  end.

(** ** Fix texts: [generate_fix_ai], [_generate_heuristic_fix] *)

Definition is_upper (c : ascii) : bool := Str.code_in 65 90 c.

Definition lower_char (c : ascii) : ascii :=
  if is_upper c then ascii_of_nat (nat_of_ascii c + 32) else c.

(** [s.lower()] on ASCII text. *)
Fixpoint lower (s : string) : string :=
  match s with
  | EmptyString => EmptyString
  | String c t => String (lower_char c) (lower t)
  end.

(** The dictionary [fixes]. *)
Definition heuristic_fixes : list (string * string) :=
  [ ("SYNTAX",
     "fix the syntax error — check for missing colons, parentheses, or brackets, and correct the statement");
    ("IMPORT",
     "ensure the module is installed (pip install <name>) and the import path is correct; remove if unused");
    ("INDENTATION",
     "re-indent the block using exactly 4 spaces per level; do not mix spaces and tabs");
    ("TYPE_ERROR",
     "check that operand types are compatible — use str() or int() to convert before operations");
    ("LINTING",
     "remove the unused import / variable or fix the code-style issue flagged by the linter");
    ("LOGIC",
     "review the algorithm logic, add input validation, and test edge cases (None, empty, zero)") ].

Definition _generate_heuristic_fix (error_msg bug_type : string) : string :=
  let msg_lower := lower error_msg in
  let has := fun s => Py.contains s msg_lower in
  if has "imported but unused" || has "f401" || has "unused import"
  then "remove the import statement"
  else if has "redefined" && has "import"
  then "remove the duplicate import statement"
  else if has "undefined name" || has "is not defined" || has "f821"
  then "define the variable before use or fix the name reference"
  else if has "local variable" && has "referenced before assignment"
  then "initialize the variable before referencing it"
  else if has "missing colon" || (has "syntaxerror" && has "colon")
  then "add the colon at the correct position"
  else if has "invalid syntax" || has "syntaxerror"
  then "fix the syntax error — check for missing parentheses, brackets, or colons"
  else if has "indentationerror" || has "unexpected indent"
  then "fix indentation to use consistent 4 spaces"
  else if has "line too long" || has "e501"
  then "shorten the line to stay within the 79-character limit"
  else if has "whitespace"
  then "remove the extraneous whitespace"
  else if has "unused variable" || has "f841"
  then "remove the unused variable or use it"
  else mapping_get heuristic_fixes bug_type
         "review the code manually for correctness".

(** [openai_api_key] is the key of the agent, [openai_loaded] tells that the
    [openai] module was imported, and [ask] stands for the body of the
    [try]: reading the lines around the error, sending the prompt and
    taking the content of the first choice; it is [None] when any of that
    raises. *)
Definition generate_fix_ai (openai_api_key : option string)
  (openai_loaded : bool) (ask : string -> string -> string -> option string)
  (error_msg bug_type file_path : string) : string :=
  let no_key :=
    match openai_api_key with
    | None => true
    | Some k => String.eqb k EmptyString
    end in
  if no_key || negb openai_loaded
  then _generate_heuristic_fix error_msg bug_type
  else
    match ask error_msg bug_type file_path with
    | Some content => Str.strip content
    | None => _generate_heuristic_fix error_msg bug_type
    end.

(** ** Tree walks: [_run_ast_lint], [run_static_analysis] *)

Module Ast.

(** The value of a [Constant] node, as far as the walks look at it. *)
Inductive constant : Type :=
| CInt (value : Z)
| CBool (value : bool)
| CFloat (is_zero : bool)
| CComplex (is_zero : bool)
| CStr (value : string)
| COther.                        (* None, bytes, Ellipsis *)

Inductive operator : Type := Add | Div | FloorDiv | Mod | OtherOp.

Record alias : Type := mkAlias {
  name : string;
  asname : option string
}.

(** A node as [ast.walk] yields it, with the fields that the walks read: an
    operand of a [BinOp] is [Some c] when it is a [Constant] node, and the
    value of an [Attribute] is [Some id] when it is a [Name] node. *)
Inductive node : Type :=
| Import (lineno : Z) (names : list alias)
| ImportFrom (lineno : Z) (names : list alias)
| Name (id : string)
| Attribute (value : option string)
| ExceptHandler (lineno : Z) (has_type : bool)
| BinOp (lineno : Z) (op : operator) (left right : option constant)
| Other.

(** [value == 0], [isinstance(value, str)] and
    [isinstance(value, (int, float))]; a [bool] is an [int]. *)
Definition equals_zero (c : constant) : bool :=
  match c with
  | CInt z => z =? 0
  | CBool b => negb b
  | CFloat is_zero => is_zero
  | CComplex is_zero => is_zero
  | CStr _ => false
  | COther => false
  end.

Definition is_str (c : option constant) : bool :=
  match c with Some (CStr _) => true | _ => false end.

Definition is_num (c : option constant) : bool :=
  match c with
  | Some (CInt _) => true
  | Some (CBool _) => true
  | Some (CFloat _) => true
  | _ => false
  end.

(** [a or b] on an optional text: [None] and the empty text are false. *)
Definition or_else (a : option string) (b : string) : string :=
  match a with
  | Some s => if String.eqb s EmptyString then b else s
  | None => b
  end.

(** [imported[k] = v] on a dictionary of line numbers: a name that is there
    keeps its place and takes the new line, a new one goes last. *)
Fixpoint dict_set (k : string) (v : Z) (d : list (string * Z))
  : list (string * Z) :=
  match d with
  | [] => [(k, v)]
  | (k', v') :: d' =>
      if String.eqb k k' then (k', v) :: d' else (k', v') :: dict_set k v d'
  end.

(** The names that one import node binds, with its line. *)
Definition import_binding (lineno : Z) (a : alias) : list (string * Z) :=
  [(or_else (asname a) (Str.before_char "." (name a)), lineno)].

Definition from_binding (lineno : Z) (a : alias) : list (string * Z) :=
  if String.eqb (name a) "*" then []
  else [(or_else (asname a) (name a), lineno)].

Definition bind (imported : list (string * Z)) (b : list (string * Z))
  : list (string * Z) :=
  fold_left (fun d kv => dict_set (fst kv) (snd kv) d) b imported.

(** The first walk: the dictionary [imported]. *)
Definition collect_imported (nodes : list node) : list (string * Z) :=
  fold_left
    (fun imported n =>
       match n with
       | Import lineno names =>
           fold_left (fun d a => bind d (import_binding lineno a)) names
             imported
       | ImportFrom lineno names =>
           fold_left (fun d a => bind d (from_binding lineno a)) names
             imported
       | _ => imported
       end)
    nodes [].

(** The second walk: the set [used_names]. *)
Definition used_names (nodes : list node) : list string :=
  flat_map
    (fun n =>
       match n with
       | Name id => [id]
       | Attribute (Some id) => [id]
       | _ => []
       end)
    nodes.

(** The items of [imported] whose name is not in [used_names]. *)
Definition unused (nodes : list node) : list (string * Z) :=
  filter (fun kv => negb (existsb (String.eqb (fst kv)) (used_names nodes)))
    (collect_imported nodes).

(** The three tests of the last walk of [run_static_analysis] on one
    node. *)
Definition node_findings (rel_path : string) (n : node) : list Finding :=
  (match n with
   | ExceptHandler lineno false =>
       [mkFinding rel_path lineno
          "LOGIC: bare except catches all errors including KeyboardInterrupt — use specific exception types"
          "LOGIC" "static_analysis"]
   | _ => []
   end)
  ++ (match n with
      | BinOp lineno op _ (Some c) =>
          if match op with Div | FloorDiv | Mod => true | _ => false end
             && equals_zero c
          then [mkFinding rel_path lineno
                  "LOGIC: ZeroDivisionError — dividing by literal zero"
                  "LOGIC" "static_analysis"]
          else []
      | _ => []
      end)
  ++ (match n with
      | BinOp lineno Add lhs rhs =>
          if (is_str lhs && is_num rhs) || (is_num lhs && is_str rhs)
          then [mkFinding rel_path lineno
                  "TYPE_ERROR: cannot concatenate str and int — use str() to convert"
                  "TYPE_ERROR" "static_analysis"]
          else []
      | _ => []
      end).

(** Every name that the import nodes bind, in the order of the walk. *)
Definition bindings (nodes : list node) : list (string * Z) :=
  flat_map
    (fun n =>
       match n with
       | Import lineno names => flat_map (import_binding lineno) names
       | ImportFrom lineno names => flat_map (from_binding lineno) names
       | _ => []
       end)
    nodes.

(** The import that counts for [n] is the last one that binds it: it is on
    line [l], and no later import binds [n]. *)
Definition last_binding (bs : list (string * Z)) (n : string) (l : Z) : Prop :=
  exists pre post,
    bs = (pre ++ (n, l) :: post)%list /\ ~ In n (map fst post).

End Ast.

(** [parse] is [ast.parse] followed by [ast.walk]: the nodes of the tree in
    the order of the walk, [None] when the text does not parse.  A file that
    cannot be read is passed over like one that does not parse. *)
Definition walk_file (parse : string -> option (list Ast.node))
  (f : SourceFile) : option (list Ast.node) :=
  match text f with
  | None => None
  | Some source => parse source
  end.

Definition ast_lint_file (parse : string -> option (list Ast.node))
  (f : SourceFile) : list Finding :=
  match walk_file parse f with
  | None => []
  | Some nodes =>
      map (fun kv =>
             mkFinding (rel_path f) (snd kv)
               ("F401: '" ++ fst kv ++ "' imported but unused")
               "LINTING" "ast_lint")
        (Ast.unused nodes)
  end.

Definition _run_ast_lint (clone_path : option string)
  (parse : string -> option (list Ast.node)) (python_files : list SourceFile)
  : list Finding :=
  match clone_path with
  | None => []
  | Some _ => flat_map (ast_lint_file parse) python_files
  end.

Definition static_analysis_file (parse : string -> option (list Ast.node))
  (f : SourceFile) : list Finding :=
  match walk_file parse f with
  | None => []
  | Some nodes =>
      (map (fun kv =>
              mkFinding (rel_path f) (snd kv)
                ("IMPORT: '" ++ fst kv ++ "' imported but never used")
                "IMPORT" "static_analysis")
         (Ast.unused nodes)
       ++ flat_map (Ast.node_findings (rel_path f)) nodes)%list
  end.

Definition run_static_analysis (clone_path : option string)
  (parse : string -> option (list Ast.node)) (python_files : list SourceFile)
  : list Finding :=
  match clone_path with
  | None => []
  | Some _ => flat_map (static_analysis_file parse) python_files
  end.

(** ** Further vocabulary *)

(** [e] is what the aggregator keeps of the stream [seen] for its key: the
    normalised form of a kept arrival [x] that ranks strictly before every
    earlier kept arrival with the key and no later than every later one. *)
Definition wins (clone : string) (seen : list Finding) (e : Finding) : Prop :=
  exists pre x post,
    seen = (pre ++ x :: post)%list
    /\ kept clone x = true
    /\ e = normalized clone x
    /\ (forall y, In y pre -> kept clone y = true ->
          key_of (normalized clone y) = key_of e ->
          (TYPE_PRIORITY (type x) < TYPE_PRIORITY (type y))%nat)
    /\ (forall y, In y post -> kept clone y = true ->
          key_of (normalized clone y) = key_of e ->
          (TYPE_PRIORITY (type x) <= TYPE_PRIORITY (type y))%nat).

(** A list of lines as [readlines] gives them: no line is empty, a line
    feed ends a line and stands nowhere else, and only the last line may lack
    it. *)
Fixpoint no_lf (s : string) : bool :=
  match s with
  | EmptyString => true
  | String c t => negb (Ascii.eqb c LF) && no_lf t
  end.

Fixpoint no_cr (s : string) : bool :=
  match s with
  | EmptyString => true
  | String c t => negb (Ascii.eqb c CR) && no_cr t
  end.

Definition ended_line (l : string) : Prop :=
  exists body, l = body ++ nl /\ no_lf body = true.

Definition open_line (l : string) : Prop :=
  l <> EmptyString /\ no_lf l = true.

Fixpoint lines_ok (ls : list string) : Prop :=
  match ls with
  | [] => True
  | [l] => ended_line l \/ open_line l
  | l :: ls' => ended_line l /\ lines_ok ls'
  end.

(** What an entry of the syntax checker looks like, by the pass that made
    it: the entries of [py_compile] carry what the parsed output gives; the
    others carry the path of a listed file, a line from 1 on and the type
    INDENTATION, but for the SYNTAX entries of the whole-file [compile]. *)
Definition syntax_finding_ok (python_files : list SourceFile) (e : Finding)
  : Prop :=
  (source e = "py_compile"
   /\ 0 <= line e
   /\ In (type e) PRIORITY_ORDER
   /\ (String.length (message e) <= 200)%nat)
  \/ (In (source e) ["tokenize"; "compile"; "block_scan"]
      /\ 1 <= line e
      /\ (exists f, In f python_files /\ file e = rel_path f)
      /\ (type e = "INDENTATION"
          \/ (type e = "SYNTAX" /\ source e = "compile"))).

(** * Properties *)

(** ** Dictionary facts *)

Lemma string_Z_eqb_eq (a b : string * Z) : string_Z_eqb a b = true <-> a = b.
Proof.
  destruct a as [s z], b as [s' z']; unfold string_Z_eqb; simpl.
  rewrite andb_true_iff, String.eqb_eq, Z.eqb_eq.
  split; [intros [-> ->]; reflexivity | intros H; inversion H; auto].
Qed.

Lemma string_Z_eqb_refl (a : string * Z) : string_Z_eqb a a = true.
Proof. apply string_Z_eqb_eq; reflexivity. Qed.

Lemma string_Z_eqb_neq (a b : string * Z) : a <> b -> string_Z_eqb a b = false.
Proof.
  intros H; destruct (string_Z_eqb a b) eqn:E; auto.
  apply string_Z_eqb_eq in E; contradiction.
Qed.

Section DictFacts.
Context {V : Type}.
Implicit Types (d : Dict.t V) (k : Dict.key) (v : V).

Lemma get_In k v d : Dict.get k d = Some v -> In (k, v) d.
Proof.
  induction d as [|[k' v'] d IH]; simpl; [discriminate|].
  destruct (string_Z_eqb k k') eqn:E.
  - apply string_Z_eqb_eq in E; subst; intros [= ->]; auto.
  - auto.
Qed.

Lemma get_None k d : Dict.get k d = None -> ~ In k (Dict.keys d).
Proof.
  induction d as [|[k' v'] d IH]; simpl; [auto|].
  destruct (string_Z_eqb k k') eqn:E; [discriminate|].
  intros H [<-|Hin]; [rewrite string_Z_eqb_refl in E; discriminate|].
  exact (IH H Hin).
Qed.

Lemma In_get k v d : NoDup (Dict.keys d) -> In (k, v) d -> Dict.get k d = Some v.
Proof.
  induction d as [|[k' v'] d IH]; simpl; [tauto|].
  intros Hnd [H|H].
  - inversion H; subst; rewrite string_Z_eqb_refl; reflexivity.
  - inversion Hnd as [|? ? Hk Hnd']; subst.
    rewrite string_Z_eqb_neq; [auto|].
    intros ->; apply Hk; apply (in_map fst) in H; exact H.
Qed.

Lemma set_fresh k v d : Dict.get k d = None -> Dict.set k v d = (d ++ [(k, v)])%list.
Proof.
  induction d as [|[k' v'] d IH]; simpl; [auto|].
  destruct (string_Z_eqb k k'); [discriminate|].
  intros H; rewrite IH; auto.
Qed.

Lemma keys_set_present k v v0 d :
  Dict.get k d = Some v0 -> Dict.keys (Dict.set k v d) = Dict.keys d.
Proof.
  induction d as [|[k' v'] d IH]; simpl; [discriminate|].
  destruct (string_Z_eqb k k'); simpl; [reflexivity|].
  intros H; rewrite IH; auto.
Qed.

Lemma get_set_same k v d : Dict.get k (Dict.set k v d) = Some v.
Proof.
  induction d as [|[k' v'] d IH]; simpl.
  - rewrite string_Z_eqb_refl; reflexivity.
  - destruct (string_Z_eqb k k') eqn:E; simpl; rewrite E; auto.
Qed.

Lemma get_set_other k k' v d :
  k <> k' -> Dict.get k' (Dict.set k v d) = Dict.get k' d.
Proof.
  intros Hne; induction d as [|[k0 v0] d IH]; simpl.
  - rewrite string_Z_eqb_neq; auto.
  - destruct (string_Z_eqb k k0) eqn:E; simpl.
    + apply string_Z_eqb_eq in E; subst k0.
      rewrite (string_Z_eqb_neq k' k) by congruence; reflexivity.
    + rewrite IH; reflexivity.
Qed.

Lemma In_set k v k' v' d :
  In (k', v') (Dict.set k v d) -> (k', v') = (k, v) \/ In (k', v') d.
Proof.
  induction d as [|[k0 v0] d IH]; simpl.
  - intros [H|[]]; auto.
  - destruct (string_Z_eqb k k0) eqn:E; simpl.
    + apply string_Z_eqb_eq in E; subst k0. intros [H|H]; auto.
    + intros [H|H]; auto. destruct (IH H); auto.
Qed.

Lemma NoDup_keys_set k v d :
  NoDup (Dict.keys d) -> NoDup (Dict.keys (Dict.set k v d)).
Proof.
  intros Hnd; destruct (Dict.get k d) as [v0|] eqn:E.
  - rewrite (keys_set_present _ _ _ _ E); exact Hnd.
  - rewrite (set_fresh _ _ _ E); unfold Dict.keys; rewrite map_app; simpl.
    apply (NoDup_Add (a := k) (l := map fst d)).
    + rewrite <- (app_nil_r (map fst d)) at 1. apply Add_app.
    + split; [exact Hnd | exact (get_None _ _ E)].
Qed.
End DictFacts.

(** ** Aggregator *)

Lemma dedup_inv_grow clone seen best x :
  dedup_inv clone seen best ->
  (kept clone x = true ->
   exists prev, Dict.get (key_of (normalized clone x)) best = Some prev
                /\ (TYPE_PRIORITY (type prev) <= TYPE_PRIORITY (type x))%nat) ->
  dedup_inv clone (seen ++ [x]) best.
Proof.
  intros (Hnd & Hown & Hbest) Hx.
  split; [exact Hnd|split].
  - intros k0 e Hin. destruct (Hown k0 e Hin) as (Hk0 & y & Hy & Hk & He).
    split; [exact Hk0|]. exists y. rewrite in_app_iff. auto.
  - intros y Hy Hk. apply in_app_iff in Hy as [Hy|[<-|[]]]; auto.
Qed.

Lemma dedup_inv_set clone seen best x :
  dedup_inv clone seen best ->
  kept clone x = true ->
  (forall prev, Dict.get (key_of (normalized clone x)) best = Some prev ->
                (TYPE_PRIORITY (type x) < TYPE_PRIORITY (type prev))%nat) ->
  dedup_inv clone (seen ++ [x])
    (Dict.set (key_of (normalized clone x)) (normalized clone x) best).
Proof.
  intros (Hnd & Hown & Hbest) Hkx Hprev.
  split; [apply NoDup_keys_set; exact Hnd|split].
  - intros k0 e Hin. apply In_set in Hin as [Heq|Hin].
    + inversion Heq; subst. split; [reflexivity|].
      exists x. rewrite in_app_iff. simpl. auto.
    + destruct (Hown k0 e Hin) as (Hk0 & y & Hy & Hk & He).
      split; [exact Hk0|]. exists y. rewrite in_app_iff. auto.
  - intros y Hy Hk.
    destruct (string_Z_eqb (key_of (normalized clone x))
                (key_of (normalized clone y))) eqn:E.
    + apply string_Z_eqb_eq in E. rewrite <- E, get_set_same.
      eexists; split; [reflexivity|]. simpl.
      apply in_app_iff in Hy as [Hy|[<-|[]]]; [|lia].
      destruct (Hbest y Hy Hk) as (e & He & Hle).
      rewrite <- E in He. specialize (Hprev e He). lia.
    + assert (Hne : key_of (normalized clone x) <> key_of (normalized clone y)).
      { intros Heq. rewrite Heq, string_Z_eqb_refl in E. discriminate. }
      rewrite (get_set_other _ _ _ _ Hne).
      apply in_app_iff in Hy as [Hy|[<-|[]]]; [auto|].
      contradiction Hne; reflexivity.
Qed.

Lemma dedup_step_inv clone seen best x :
  dedup_inv clone seen best ->
  dedup_inv clone (seen ++ [x]) (dedup_step clone best x).
Proof.
  intros Hinv. unfold dedup_step.
  destruct (discarded (normalize_path clone (file x))) eqn:Hd.
  - apply dedup_inv_grow; [exact Hinv|].
    unfold kept. rewrite Hd. discriminate.
  - assert (Hkx : kept clone x = true) by (unfold kept; rewrite Hd; reflexivity).
    change (normalize_path clone (file x), line x)
      with (key_of (normalized clone x)).
    change (set_file (normalize_path clone (file x)) x)
      with (normalized clone x).
    destruct (Dict.get (key_of (normalized clone x)) best) as [prev|] eqn:Hget.
    + change (type (normalized clone x)) with (type x).
      destruct (TYPE_PRIORITY (type x) <? TYPE_PRIORITY (type prev))%nat eqn:Hlt.
      * apply dedup_inv_set; auto.
        intros p Hp. rewrite Hget in Hp. inversion Hp; subst.
        apply Nat.ltb_lt; exact Hlt.
      * apply dedup_inv_grow; [exact Hinv|].
        intros _. exists prev. split; [exact Hget|].
        apply Nat.ltb_ge; exact Hlt.
    + apply dedup_inv_set; auto.
      intros p Hp. rewrite Hget in Hp. discriminate.
Qed.

Lemma dedup_fold_inv clone l : forall seen best,
  dedup_inv clone seen best ->
  dedup_inv clone (seen ++ l) (fold_left (dedup_step clone) l best).
Proof.
  induction l as [|x l IH]; intros seen best Hinv; simpl.
  - rewrite app_nil_r; exact Hinv.
  - replace (seen ++ x :: l)%list with ((seen ++ [x]) ++ l)%list
      by (rewrite <- app_assoc; reflexivity).
    apply IH, dedup_step_inv, Hinv.
Qed.

Lemma dedup_inv_final clone l : dedup_inv clone l (dedup clone l).
Proof.
  apply (dedup_fold_inv clone l [] []).
  split; [constructor|split]; intros; contradiction.
Qed.

Lemma In_firstn_In {A : Type} (n : nat) (l : list A) (x : A) :
  In x (firstn n l) -> In x l.
Proof.
  intros H. rewrite <- (firstn_skipn n l). apply in_or_app. auto.
Qed.

Lemma NoDup_firstn {A : Type} (n : nat) (l : list A) :
  NoDup l -> NoDup (firstn n l).
Proof.
  intros H. rewrite <- (firstn_skipn n l) in H.
  exact (NoDup_app_remove_r _ _ H).
Qed.

Lemma islice_Some {A : Type} (l out : list A) (stop : Z) :
  Py.islice l stop = Some out -> 0 <= stop /\ out = firstn (Z.to_nat stop) l.
Proof.
  unfold Py.islice. destruct (stop <? 0) eqn:E; [discriminate|].
  destruct (Py.maxsize <? stop); [discriminate|].
  intros [= <-]. split; [apply Z.ltb_ge; exact E | reflexivity].
Qed.

Lemma islice_Some_cap {A : Type} (l out : list A) (stop : Z) :
  Py.islice l stop = Some out -> stop <= Py.maxsize.
Proof.
  unfold Py.islice. destruct (Py.maxsize <? stop) eqn:E.
  - rewrite orb_true_r. discriminate.
  - intros _. apply Z.ltb_ge. exact E.
Qed.

Lemma islice_in_range {A : Type} (l : list A) (stop : Z) :
  0 <= stop -> stop <= Py.maxsize ->
  Py.islice l stop = Some (firstn (Z.to_nat stop) l).
Proof.
  intros H0 H1. unfold Py.islice.
  apply Z.ltb_ge in H0. apply Z.ltb_ge in H1. rewrite H0, H1. reflexivity.
Qed.

Lemma dedup_keys_are_key_of clone l :
  Dict.keys (dedup clone l) = map key_of (unique_errors clone l).
Proof.
  destruct (dedup_inv_final clone l) as (_ & Hown & _).
  unfold unique_errors, Dict.values, Dict.keys.
  induction (dedup clone l) as [|[k e] d IH]; simpl; [reflexivity|].
  rewrite IH by (intros k0 e0 H; apply Hown; right; exact H).
  destruct (Hown k e (or_introl eq_refl)) as (-> & _). reflexivity.
Qed.

Lemma unique_errors_NoDup clone l : NoDup (map key_of (unique_errors clone l)).
Proof.
  rewrite <- dedup_keys_are_key_of. apply (dedup_inv_final clone l).
Qed.

Lemma unique_errors_In clone l e :
  In e (unique_errors clone l) ->
  In (key_of e, e) (dedup clone l)
  /\ exists x, In x l /\ kept clone x = true /\ e = normalized clone x.
Proof.
  intros H. apply in_map_iff in H as ([k e'] & He & Hin). simpl in He. subst e'.
  destruct (dedup_inv_final clone l) as (_ & Hown & _).
  destruct (Hown k e Hin) as (-> & Hx). auto.
Qed.

(** The entry kept for a key has the least priority rank among all the
    findings that arrived with that key. *)
Lemma unique_errors_least clone l e x :
  In e (unique_errors clone l) -> In x l ->
  key_of (normalized clone x) = key_of e ->
  (TYPE_PRIORITY (type e) <= TYPE_PRIORITY (type x))%nat.
Proof.
  intros He Hx Hkey.
  destruct (unique_errors_In _ _ _ He) as (Hin & y & Hy & Hky & Hey).
  destruct (dedup_inv_final clone l) as (Hnd & _ & Hbest).
  assert (Hkx : kept clone x = true).
  { unfold kept in *. injection Hkey as Hf _. simpl in Hf.
    rewrite Hf. subst e. exact Hky. }
  destruct (Hbest x Hx Hkx) as (e' & Hget & Hle).
  rewrite Hkey, (In_get _ _ _ Hnd Hin) in Hget. inversion Hget; subst e'.
  exact Hle.
Qed.

(** C1: when a LOGIC finding [a] and a SYNTAX finding [b] arrive with the
    same normalised (file, line) key, wherever they stand in the stream and
    in whichever order, the dictionary holds the SYNTAX finding under that
    key and the output holds nothing else for it; the finding that any key
    retains ranks earliest in INDENTATION, SYNTAX, IMPORT, TYPE_ERROR,
    LINTING, LOGIC among all that arrived with the key; and the SYNTAX
    finding is in the output when the cap does not cut the list. *)
Theorem aggregator_syntax_beats_logic
  (clone : string) (max_fixes : Z) (all_errors out : list Finding)
  (a b : Finding) :
  type a = "LOGIC" -> type b = "SYNTAX" ->
  key_of (normalized clone a) = key_of (normalized clone b) ->
  kept clone b = true ->
  In a all_errors -> In b all_errors ->
  (forall x, In x all_errors ->
     key_of (normalized clone x) = key_of (normalized clone b) ->
     x = a \/ x = b) ->
  aggregate clone max_fixes all_errors = Some out ->
  Dict.get (key_of (normalized clone b)) (dedup clone all_errors)
    = Some (normalized clone b)
  /\ NoDup (map key_of out)
  /\ (forall e, In e out -> key_of e = key_of (normalized clone b) ->
        e = normalized clone b)
  /\ ~ In (normalized clone a) out
  /\ (forall e x, In e out -> In x all_errors ->
        key_of (normalized clone x) = key_of e ->
        (TYPE_PRIORITY (type e) <= TYPE_PRIORITY (type x))%nat)
  /\ (Z.of_nat (length (unique_errors clone all_errors)) <= max_fixes ->
        In (normalized clone b) out).
Proof.
  intros Ha Hb Hkey Hkb Hina Hinb Honly Hagg.
  apply islice_Some in Hagg as (Hmax & ->).
  destruct (dedup_inv_final clone all_errors) as (Hnd & Hown & Hbest).
  assert (Hget : Dict.get (key_of (normalized clone b)) (dedup clone all_errors)
                 = Some (normalized clone b)).
  { destruct (Hbest b Hinb Hkb) as (e & Hget & Hle).
    destruct (Hown _ _ (get_In _ _ _ Hget)) as (Hk & y & Hy & _ & Hey).
    assert (Hyk : key_of (normalized clone y) = key_of (normalized clone b))
      by (rewrite <- Hey; auto).
    destruct (Honly y Hy Hyk) as [->| ->].
    - subst e. simpl in Hle. rewrite Ha, Hb in Hle.
      vm_compute in Hle. lia.
    - rewrite Hget, Hey. reflexivity. }
  assert (Honly_b : forall e, In e (unique_errors clone all_errors) ->
            key_of e = key_of (normalized clone b) -> e = normalized clone b).
  { intros e He Hk. destruct (unique_errors_In _ _ _ He) as (Hin & _).
    rewrite Hk in Hin. pose proof (In_get _ _ _ Hnd Hin) as Hg.
    rewrite Hget in Hg. inversion Hg; reflexivity. }
  split; [exact Hget|].
  split; [rewrite <- firstn_map; apply NoDup_firstn, unique_errors_NoDup|].
  split; [intros e He; apply Honly_b; exact (In_firstn_In _ _ _ He)|].
  split.
  - intros Hin. apply In_firstn_In in Hin.
    pose proof (Honly_b _ Hin Hkey) as Heq.
    apply (f_equal type) in Heq. simpl in Heq. rewrite Ha, Hb in Heq.
    discriminate.
  - split.
    + intros e x He Hx.
      apply (unique_errors_least clone all_errors); auto.
      exact (In_firstn_In _ _ _ He).
    + intros Hlen. rewrite firstn_all2 by lia.
      apply get_In in Hget. apply (in_map snd) in Hget. exact Hget.
Qed.

Lemma aggregator_syntax_beats_logic_witness :
  aggregate "/tmp/repo_clone" 50 [logic_at_3; syntax_at_3] = Some [syntax_at_3]
  /\ aggregate "/tmp/repo_clone" 50 [syntax_at_3; logic_at_3] = Some [syntax_at_3]
  /\ Dict.get ("app.py", 3) (dedup "/tmp/repo_clone" [logic_at_3; syntax_at_3])
     = Some syntax_at_3.
Proof.
  split; [reflexivity|]. split; [reflexivity|].
  refine (proj1 (aggregator_syntax_beats_logic "/tmp/repo_clone" 50
            [logic_at_3; syntax_at_3] [syntax_at_3] logic_at_3 syntax_at_3
            eq_refl eq_refl eq_refl eq_refl _ _ _ eq_refl)).
  - simpl; auto.
  - simpl; auto.
  - intros x [<-|[<-|[]]] _; auto.
Defined.

(** *** Idempotence *)

Lemma get_fresh {V : Type} (k : Dict.key) (d : Dict.t V) :
  ~ In k (Dict.keys d) -> Dict.get k d = None.
Proof.
  intros H. destruct (Dict.get k d) as [v|] eqn:E; [|reflexivity].
  apply get_In in E. apply (in_map fst) in E. contradiction.
Qed.

Lemma set_file_same (e : Finding) : set_file (file e) e = e.
Proof. destruct e; reflexivity. Qed.

(** On findings whose paths the normalisation leaves alone, that are not
    discarded and whose keys are new and distinct, the loop only appends. *)
Lemma dedup_fold_fixed clone l : forall acc,
  (forall e, In e l ->
     normalize_path clone (file e) = file e /\ discarded (file e) = false) ->
  NoDup (Dict.keys acc ++ map key_of l) ->
  fold_left (dedup_step clone) l acc
  = (acc ++ map (fun e => (key_of e, e)) l)%list.
Proof.
  induction l as [|e l IH]; intros acc Hfix Hnd; simpl.
  - rewrite app_nil_r; reflexivity.
  - destruct (Hfix e (or_introl eq_refl)) as (Hn & Hd).
    assert (Hstep : dedup_step clone acc e = (acc ++ [(key_of e, e)])%list).
    { unfold dedup_step. rewrite Hn, Hd, set_file_same.
      change (file e, line e) with (key_of e).
      rewrite get_fresh.
      - apply set_fresh, get_fresh; intros Hin;
          apply NoDup_remove_2 in Hnd; apply Hnd, in_or_app; auto.
      - intros Hin; apply NoDup_remove_2 in Hnd; apply Hnd, in_or_app; auto. }
    rewrite Hstep, IH.
    + rewrite <- app_assoc; reflexivity.
    + intros e' He'; apply Hfix; right; exact He'.
    + unfold Dict.keys. rewrite map_app, <- app_assoc. exact Hnd.
Qed.

(** A stripped path that no longer contains the root is left alone by a
    second stripping. *)
Lemma normalize_path_stable clone fp :
  Py.contains clone (normalize_path clone fp) = false ->
  normalize_path clone (normalize_path clone fp) = normalize_path clone fp.
Proof.
  intros H. unfold normalize_path at 1. rewrite H. reflexivity.
Qed.

(** C8 (as amended): on every stream whose root-stripped paths are left
    unchanged by a second stripping, running the aggregation stage on its own
    output returns that output. *)
Theorem aggregate_idempotent_on_stable_paths
  (clone : string) (max_fixes : Z) (all_errors out : list Finding) :
  (forall e, In e all_errors ->
     normalize_path clone (normalize_path clone (file e))
     = normalize_path clone (file e)) ->
  aggregate clone max_fixes all_errors = Some out ->
  aggregate clone max_fixes out = Some out.
Proof.
  intros Hstable Hagg.
  pose proof (islice_Some_cap _ _ _ Hagg) as Hcap.
  apply islice_Some in Hagg as (Hmax & Hout).
  assert (Hfix : forall e, In e out ->
            normalize_path clone (file e) = file e /\ discarded (file e) = false).
  { intros e He. subst out. apply In_firstn_In in He.
    destruct (unique_errors_In _ _ _ He) as (_ & x & Hx & Hk & ->).
    simpl. split; [apply Hstable; exact Hx|].
    unfold kept in Hk. apply negb_true_iff in Hk. exact Hk. }
  assert (Hnd : NoDup (map key_of out)).
  { subst out. rewrite <- firstn_map. apply NoDup_firstn, unique_errors_NoDup. }
  unfold aggregate, unique_errors, dedup.
  rewrite (dedup_fold_fixed clone out [] Hfix Hnd). simpl.
  unfold Dict.values. rewrite map_map. simpl. rewrite map_id.
  rewrite (islice_in_range _ _ Hmax Hcap).
  rewrite firstn_all2; [reflexivity|].
  subst out. apply firstn_le_length.
Qed.

Lemma aggregate_idempotent_on_stable_paths_witness :
  aggregate "/tmp/repo_clone" 50 [syntax_at_3] = Some [syntax_at_3].
Proof.
  apply (aggregate_idempotent_on_stable_paths "/tmp/repo_clone" 50
           [logic_at_3; syntax_at_3] [syntax_at_3]).
  - intros e [<-|[<-|[]]]; reflexivity.
  - reflexivity.
Defined.

(** C8 (as stated) fails: stripping the root from
    [/tmp/repo/tmp/repo_clone/_clone/x.py] leaves [/tmp/repo_clone/x.py],
    which a second run strips again to [x.py]. *)
Lemma aggregate_not_idempotent :
  ~ (forall clone max_fixes all_errors out,
       aggregate clone max_fixes all_errors = Some out ->
       aggregate clone max_fixes out = Some out).
Proof.
  intros H.
  specialize (H "/tmp/repo_clone" 50 [nested_root_finding]
                [set_file "/tmp/repo_clone/x.py" nested_root_finding] eq_refl).
  vm_compute in H. discriminate H.
Qed.

(** ** Classifier *)

Lemma keyword_hit_iff error_msg bug_type :
  keyword_hit (Py.upper error_msg) bug_type = true
  <-> keyword_matches error_msg bug_type.
Proof.
  unfold keyword_hit, keyword_matches. rewrite existsb_exists. reflexivity.
Qed.

Lemma first_hit_spec msg order :
  match first_hit msg order with
  | Some t =>
      exists before after,
        order = (before ++ t :: after)%list
        /\ keyword_hit msg t = true
        /\ forall t', In t' before -> keyword_hit msg t' = false
  | None => forall t, In t order -> keyword_hit msg t = false
  end.
Proof.
  induction order as [|t order IH]; simpl.
  - intros t [].
  - destruct (keyword_hit msg t) eqn:Hit.
    + exists [], order. repeat split; auto. intros t' [].
    + destruct (first_hit msg order) as [r|].
      * destruct IH as (before & after & -> & Hr & Hb).
        exists (t :: before), after. repeat split; auto.
        intros t' [<-|Hin]; auto.
      * intros t' [<-|Hin]; auto.
Qed.

(** C2: [determine_bug_type] is total and returns one of the six types;
    the type returned is the first in INDENTATION, SYNTAX, IMPORT,
    TYPE_ERROR, LINTING, LOGIC one of whose keywords occurs in the message,
    letter case apart, and LOGIC when no keyword of any type does; the empty
    message gives LOGIC. *)
Theorem determine_bug_type_first_match (error_msg : string) :
  In (determine_bug_type error_msg) PRIORITY_ORDER
  /\ ((exists before after,
         PRIORITY_ORDER = (before ++ determine_bug_type error_msg :: after)%list
         /\ keyword_matches error_msg (determine_bug_type error_msg)
         /\ forall t, In t before -> ~ keyword_matches error_msg t)
      \/ (determine_bug_type error_msg = "LOGIC"
          /\ forall t, In t PRIORITY_ORDER -> ~ keyword_matches error_msg t))
  /\ determine_bug_type "" = "LOGIC".
Proof.
  assert (Hscan : forall msg,
            determine_bug_type msg
            = match first_hit (Py.upper msg) PRIORITY_ORDER with
              | Some t => t
              | None => "LOGIC"
              end).
  { intros [|c s]; reflexivity. }
  rewrite Hscan.
  pose proof (first_hit_spec (Py.upper error_msg) PRIORITY_ORDER) as H.
  destruct (first_hit (Py.upper error_msg) PRIORITY_ORDER) as [t|].
  - destruct H as (before & after & Heq & Hit & Hb).
    split; [rewrite Heq; apply in_or_app; right; left; reflexivity|].
    split; [|reflexivity].
    left. exists before, after. split; [exact Heq|].
    split; [apply keyword_hit_iff; exact Hit|].
    intros t' Hin Hm. apply keyword_hit_iff in Hm.
    rewrite (Hb t' Hin) in Hm. discriminate.
  - split; [simpl; tauto|]. split; [|reflexivity].
    right. split; [reflexivity|].
    intros t Hin Hm. apply keyword_hit_iff in Hm.
    rewrite (H t Hin) in Hm. discriminate.
Qed.

Example determine_bug_type_examples :
  determine_bug_type "IndentationError: unexpected indent" = "INDENTATION"
  /\ determine_bug_type "invalid syntax" = "SYNTAX"
  /\ determine_bug_type "No module named 'foo'" = "IMPORT"
  /\ determine_bug_type "division by zero" = "LOGIC"
  /\ determine_bug_type "def f()" = "LOGIC"
  /\ determine_bug_type "how" = "LINTING".
Proof. repeat split; reflexivity. Qed.

(** ** Fix lifecycle *)

(** A fix aimed beyond the last line of a readable file comes back
    untouched: the method returns [False] and writes neither the file nor
    the status. *)
Lemma apply_fix_out_of_range clone fs fx f :
  fs (path_join clone (FixResult.file fx)) = Some f ->
  readable f = true ->
  Z.of_nat (length (readlines (universal_newlines (content f))))
  < FixResult.line fx ->
  apply_fix (Some clone) fs fx = Returned (false, fs, fx).
Proof.
  intros Hf Hr Hlen. unfold apply_fix. rewrite Hf, Hr. simpl.
  apply Z.leb_gt in Hlen. rewrite Hlen. reflexivity.
Qed.

(** A way to FAILED: opening or reading the file raises. *)
Lemma apply_fix_unreadable_fails clone fs fx f :
  fs (path_join clone (FixResult.file fx)) = Some f ->
  readable f = false ->
  apply_fix (Some clone) fs fx
  = Returned (false, fs, FixResult.set_status "FAILED" fx).
Proof.
  intros Hf Hr. unfold apply_fix. rewrite Hf, Hr. reflexivity.
Qed.

(** C4 on the code: for a fix on line 5 of a three-line file [apply_fix]
    returns [False] and leaves the status DETECTED; it is neither APPLIED nor
    FAILED. *)
Theorem apply_fix_out_of_range_keeps_status :
  length (readlines three_lines) = 3%nat
  /\ apply_fix (Some "/tmp/repo_clone") small_repo fix_at_5
     = Returned (false, small_repo, fix_at_5)
  /\ FixResult.status fix_at_5 = "DETECTED"
  /\ FixResult.status fix_at_5 <> "FAILED".
Proof.
  split; [reflexivity|]. split; [|split; [reflexivity|discriminate]].
  apply (apply_fix_out_of_range _ _ _
           (mkFile three_lines true true (fun _ => Written)));
    [reflexivity|reflexivity|vm_compute; reflexivity].
Qed.

(** ** Pattern scanner *)

Lemma scan_line_raises find_spec full_text rel lineno raw :
  Pattern.scan_line find_spec full_text rel lineno raw = None
  <-> Pattern.lookup_raises find_spec raw = true.
Proof.
  unfold Pattern.scan_line, Pattern.lookup_raises.
  destruct (String.eqb _ _ || Str.startswith _ _); [split; discriminate|].
  destruct (Re.match_ Pattern.import_re _) as [m|]; [|split; discriminate].
  destruct (find_spec _) as [[|]|]; split; congruence.
Qed.

(** The turns before a line that raises nothing leave the line numbering
    and the later turns as they are. *)
Lemma scan_lines_app find_spec full_text rel before : forall lineno rest,
  forallb (fun l => negb (Pattern.lookup_raises find_spec l)) before = true ->
  Pattern.scan_lines find_spec full_text rel lineno (before ++ rest)
  = (Pattern.scan_lines find_spec full_text rel lineno before
     ++ Pattern.scan_lines find_spec full_text rel
          (lineno + Z.of_nat (length before)) rest)%list.
Proof.
  induction before as [|l before IH]; intros lineno rest Hok.
  - simpl. rewrite Z.add_0_r. reflexivity.
  - simpl in Hok. apply andb_true_iff in Hok as (Hl & Hok).
    cbn [app Pattern.scan_lines].
    destruct (Pattern.scan_line find_spec full_text rel lineno l) as [fs|] eqn:E.
    + rewrite (IH _ _ Hok), <- app_assoc.
      replace (lineno + Z.of_nat (length (l :: before)))
        with (lineno + 1 + Z.of_nat (length before)) by (cbn [length]; lia).
      reflexivity.
    + apply scan_line_raises in E. rewrite E in Hl. discriminate.
Qed.

(** A lookup that never raises lets the scan reach every line. *)
Lemma lookup_total_never_raises find_spec raw_lines :
  (forall module_name, find_spec module_name <> None) ->
  forallb (fun l => negb (Pattern.lookup_raises find_spec l)) raw_lines = true.
Proof.
  intros Htotal. apply forallb_forall. intros l _.
  unfold Pattern.lookup_raises.
  destruct (_ || _); [reflexivity|].
  destruct (Re.match_ Pattern.import_re _) as [m|]; [|reflexivity].
  destruct (find_spec _) eqn:E; [reflexivity|].
  exfalso. exact (Htotal _ E).
Qed.

Lemma scan_line_example full_text rel lineno raw L T :
  In (L, T) pattern_examples ->
  Str.strip (Str.rstrip_lf raw) = L ->
  exists msg,
    Pattern.scan_line all_found full_text rel lineno raw
    = Some [Pattern.regex_finding rel lineno msg T]
    /\ forall find_spec,
         Pattern.scan_line find_spec full_text rel lineno raw
         = Some [Pattern.regex_finding rel lineno msg T].
Proof.
  intros Hin Hs.
  destruct Hin as [H|[H|[H|[]]]]; injection H as HL HT;
    rewrite <- HL in Hs; rewrite <- HT;
    unfold Pattern.scan_line; rewrite Hs;
    (eexists; split; [|intros find_spec]; vm_compute; reflexivity).
Qed.

(** C6 (as amended): when a file that the scanner reads has, on some line,
    one of the three example texts (indentation and the line feed apart),
    and no earlier line makes the module lookup raise, the output of
    [run_regex_pattern_detection] has a finding for that file and that line
    with the type of the example: TYPE_ERROR for the string + number, SYNTAX
    for the assignment in a condition, LOGIC for the division by zero. *)
Theorem pattern_scanner_examples
  (clone : string) (find_spec : string -> option bool)
  (python_files : list SourceFile) (f : SourceFile) (full_text : string)
  (before after : list string) (raw L T : string) :
  In f python_files ->
  text f = Some full_text ->
  readlines full_text = (before ++ raw :: after)%list ->
  forallb (fun l => negb (Pattern.lookup_raises find_spec l)) before = true ->
  Str.strip (Str.rstrip_lf raw) = L ->
  In (L, T) pattern_examples ->
  exists e,
    In e (run_regex_pattern_detection (Some clone) find_spec python_files)
    /\ file e = rel_path f
    /\ line e = Z.of_nat (length before) + 1
    /\ type e = T
    /\ source e = "regex".
Proof.
  intros Hf Ht Hlines Hok Hs HLT.
  destruct (scan_line_example full_text (rel_path f)
              (1 + Z.of_nat (length before)) raw L T HLT Hs)
    as (msg & _ & Hline).
  exists (Pattern.regex_finding (rel_path f) (1 + Z.of_nat (length before)) msg T).
  split; [|unfold Pattern.regex_finding; cbn [file line type source];
           repeat split; lia].
  unfold run_regex_pattern_detection. apply in_flat_map. exists f.
  split; [exact Hf|].
  unfold scan_file. rewrite Ht, Hlines, (scan_lines_app _ _ _ _ _ _ Hok).
  apply in_or_app. right. cbn [Pattern.scan_lines].
  rewrite (Hline find_spec). left. reflexivity.
Qed.

Lemma pattern_scanner_examples_witness :
  exists e,
    In e (run_regex_pattern_detection (Some "/tmp/repo_clone") all_found
            [mkSource "calc.py"
               (Some ("import os" ++ nl ++ "    " ++ div_zero_line ++ nl))])
    /\ file e = "calc.py" /\ line e = 2 /\ type e = "LOGIC"
    /\ source e = "regex".
Proof.
  apply (pattern_scanner_examples "/tmp/repo_clone" all_found _
           (mkSource "calc.py"
              (Some ("import os" ++ nl ++ "    " ++ div_zero_line ++ nl)))
           ("import os" ++ nl ++ "    " ++ div_zero_line ++ nl)
           ["import os" ++ nl] [] ("    " ++ div_zero_line ++ nl)
           div_zero_line "LOGIC").
  - left; reflexivity.
  - reflexivity.
  - reflexivity.
  - reflexivity.
  - reflexivity.
  - right; right; left; reflexivity.
Defined.

(** C6 (as stated) fails: the lookup of [__main__] raises, the handler
    around the loop over the lines drops the rest of the file, and the
    division by zero on line 2 leaves no finding. *)
Lemma pattern_scanner_examples_after_failed_lookup :
  ~ (forall (clone : string) (find_spec : string -> option bool)
            (python_files : list SourceFile) (f : SourceFile)
            (full_text : string) (before after : list string)
            (raw L T : string),
       In f python_files ->
       text f = Some full_text ->
       readlines full_text = (before ++ raw :: after)%list ->
       Str.strip (Str.rstrip_lf raw) = L ->
       In (L, T) pattern_examples ->
       exists e,
         In e (run_regex_pattern_detection (Some clone) find_spec python_files)
         /\ file e = rel_path f
         /\ line e = Z.of_nat (length before) + 1
         /\ type e = T
         /\ source e = "regex").
Proof.
  intros H.
  destruct (H "/tmp/repo_clone"
              (fun m => if String.eqb m "__main__" then None else Some true)
              [mkSource "calc.py"
                 (Some ("import __main__" ++ nl ++ div_zero_line ++ nl))]
              (mkSource "calc.py"
                 (Some ("import __main__" ++ nl ++ div_zero_line ++ nl)))
              ("import __main__" ++ nl ++ div_zero_line ++ nl)
              ["import __main__" ++ nl] [] (div_zero_line ++ nl)
              div_zero_line "LOGIC")
    as (e & He & _).
  - left; reflexivity.
  - reflexivity.
  - reflexivity.
  - reflexivity.
  - right; right; left; reflexivity.
  - vm_compute in He. exact He.
Qed.

Example pattern_scanner_single_lines :
  map (fun e => (line e, type e))
    (scan_file all_found (mkSource "a.py" (Some (concat_line ++ nl))))
  = [(1, "TYPE_ERROR")]
  /\ map (fun e => (line e, type e))
       (scan_file all_found (mkSource "a.py" (Some (assign_in_if_line ++ nl))))
     = [(1, "SYNTAX")]
  /\ map (fun e => (line e, type e))
       (scan_file all_found (mkSource "a.py" (Some (div_zero_line ++ nl))))
     = [(1, "LOGIC")].
Proof. repeat split; vm_compute; reflexivity. Qed.

(** ** Syntax checker *)

Lemma add_recorded errors rel ln :
  existsb (fun e => String.eqb (file e) rel && (line e =? ln)) errors = true
  <-> In (rel, ln) (map key_of errors).
Proof.
  rewrite existsb_exists, in_map_iff. split.
  - intros (e & He & Hk). exists e. split; [|exact He].
    apply andb_true_iff in Hk as (Hf & Hl).
    apply String.eqb_eq in Hf. apply Z.eqb_eq in Hl.
    unfold key_of. congruence.
  - intros (e & Hk & He). exists e. split; [exact He|].
    unfold key_of in Hk. injection Hk as -> ->.
    rewrite String.eqb_refl, Z.eqb_refl. reflexivity.
Qed.

Lemma add_when_recorded errors rel ln msg bt src :
  In (rel, ln) (map key_of errors) ->
  _add errors rel ln msg bt src = errors.
Proof.
  intros H. unfold _add. apply add_recorded in H. rewrite H. reflexivity.
Qed.

Lemma add_when_new errors rel ln msg bt src :
  ~ In (rel, ln) (map key_of errors) ->
  _add errors rel ln msg bt src
  = (errors ++ [mkFinding rel ln msg bt src])%list.
Proof.
  intros H. unfold _add.
  destruct (existsb _ errors) eqn:E; [|reflexivity].
  apply add_recorded in E. contradiction.
Qed.

Lemma grows_refl errors : grows errors errors.
Proof. split; [exists []; rewrite app_nil_r; reflexivity | auto]. Qed.

Lemma grows_trans a b c : grows a b -> grows b c -> grows a c.
Proof.
  intros ((x & ->) & Hab) ((y & ->) & Hbc). split.
  - exists (x ++ y)%list. rewrite app_assoc. reflexivity.
  - auto.
Qed.

Lemma grows_add errors rel ln msg bt src :
  grows errors (_add errors rel ln msg bt src).
Proof.
  destruct (existsb (fun e => String.eqb (file e) rel && (line e =? ln)) errors)
    eqn:E.
  - rewrite add_when_recorded by (apply add_recorded; exact E).
    apply grows_refl.
  - assert (Hnew : ~ In (rel, ln) (map key_of errors)).
    { intros H. apply add_recorded in H. congruence. }
    rewrite add_when_new by exact Hnew. split; [eexists; reflexivity|].
    intros Hnd. rewrite map_app. simpl.
    apply (NoDup_Add (a := (rel, ln)) (l := map key_of errors)).
    + rewrite <- (app_nil_r (map key_of errors)) at 1. apply Add_app.
    + split; assumption.
Qed.

Lemma pass_tokenize_grows I rel content errors :
  grows errors (SyntaxCheck.pass_tokenize I rel content errors).
Proof.
  unfold SyntaxCheck.pass_tokenize.
  destruct (tokenize I content); auto using grows_refl, grows_add.
Qed.

Lemma pass_compile_grows I rel content errors :
  grows errors (SyntaxCheck.pass_compile I rel content errors).
Proof.
  unfold SyntaxCheck.pass_compile.
  destruct (compile I content); auto using grows_refl, grows_add.
Qed.

Lemma pass_py_compile_grows I clone py_file errors :
  grows errors (SyntaxCheck.pass_py_compile I clone py_file errors).
Proof.
  unfold SyntaxCheck.pass_py_compile.
  destruct (returncode _ =? 0); [apply grows_refl|].
  destruct (SyntaxCheck.parse_py_compile _) as [[[rp ln] msg]|];
    auto using grows_refl, grows_add.
Qed.

Lemma compile_block_grows I rel block_start block_lines errors :
  grows errors (SyntaxCheck.compile_block I rel block_start block_lines errors).
Proof.
  unfold SyntaxCheck.compile_block.
  destruct (String.eqb _ _); [apply grows_refl|].
  destruct (compile I _); auto using grows_refl, grows_add.
  destruct (1 <? _)%nat; [|apply grows_refl].
  destruct (String.eqb _ _); [apply grows_refl|].
  destruct (compile I _); auto using grows_refl, grows_add.
Qed.

Lemma block_scan_grows I rel lines todo : forall i block_start errors,
  grows errors (SyntaxCheck.block_scan I rel lines i todo block_start errors).
Proof.
  induction todo as [|raw todo IH]; intros i block_start errors; simpl.
  - apply grows_refl.
  - eapply grows_trans; [|apply IH].
    destruct (_ || _); [apply compile_block_grows | apply grows_refl].
Qed.

Lemma check_file_grows I clone errors f :
  grows errors (SyntaxCheck.check_file I clone errors f).
Proof.
  unfold SyntaxCheck.check_file. destruct (text f); [|apply grows_refl].
  eapply grows_trans; [apply pass_tokenize_grows|].
  eapply grows_trans; [apply pass_compile_grows|].
  eapply grows_trans; [apply pass_py_compile_grows|].
  apply block_scan_grows.
Qed.

Lemma check_files_grow I clone files : forall errors,
  grows errors (fold_left (SyntaxCheck.check_file I clone) files errors).
Proof.
  induction files as [|f files IH]; intros errors; simpl.
  - apply grows_refl.
  - eapply grows_trans; [apply check_file_grows | apply IH].
Qed.

(** C10: [_add] leaves the list alone when the (file, line) pair is already
    recorded and appends one entry otherwise; each of the four passes, run
    on any error list, only appends to it and puts no pair twice; and so the
    list that [run_syntax_check] returns has at most one entry per
    (file, line) pair, the one recorded first. *)
Theorem syntax_check_first_recorded_wins
  (clone_path : option string) (I : Interpreter)
  (python_files : list SourceFile) (errors : list Finding)
  (clone rel_path content py_file message bug_type source : string)
  (line_no : Z)
  (lines todo : list string) (i block_start : nat) :
  (In (rel_path, line_no) (map key_of errors) ->
     _add errors rel_path line_no message bug_type source = errors)
  /\ (~ In (rel_path, line_no) (map key_of errors) ->
        _add errors rel_path line_no message bug_type source
        = (errors ++ [mkFinding rel_path line_no message bug_type source])%list)
  /\ grows errors (SyntaxCheck.pass_tokenize I rel_path content errors)
  /\ grows errors (SyntaxCheck.pass_compile I rel_path content errors)
  /\ grows errors (SyntaxCheck.pass_py_compile I clone py_file errors)
  /\ grows errors
       (SyntaxCheck.block_scan I rel_path lines i todo block_start errors)
  /\ NoDup (map key_of (run_syntax_check clone_path I python_files)).
Proof.
  split; [apply add_when_recorded|].
  split; [apply add_when_new|].
  split; [apply pass_tokenize_grows|].
  split; [apply pass_compile_grows|].
  split; [apply pass_py_compile_grows|].
  split; [apply block_scan_grows|].
  unfold run_syntax_check. destruct clone_path as [c|]; [|constructor].
  apply (check_files_grow I c python_files []). constructor.
Qed.

(** *** The two-block example *)

(** C3 (as amended): on the four-line file [def f()], [    x = 1],
    [def g():], [        print(1)], with an interpreter that answers as
    CPython does (the whole file and the first block lack a colon on line 1,
    the body of the first block alone is an unexpected indent on its line 1,
    the second block compiles), [run_syntax_check] records the syntax error
    of line 1 and exactly one INDENTATION finding, on line 2, the body line
    under the header without colon; it records nothing on line 4. *)
Theorem two_block_example (I : Interpreter) (m1 m2 m3 : string) :
  tokenize I two_block_text = TokenizeOk ->
  compile I two_block_text = SyntaxError (Some 1%N) m1 ->
  py_compile I "/tmp/repo_clone/ex.py" = two_block_run "/tmp/repo_clone/ex.py" ->
  compile I ("def f()" ++ nl ++ "    x = 1") = SyntaxError (Some 1%N) m2 ->
  compile I "    x = 1" = IndentationError (Some 1%N) m3 ->
  compile I ("def g():" ++ nl ++ "        print(1)") = CompileOk ->
  run_syntax_check (Some "/tmp/repo_clone") I [two_block_file]
  = [mkFinding "ex.py" 1 ("SyntaxError: " ++ m1) "SYNTAX" "compile";
     mkFinding "ex.py" 2 ("IndentationError: " ++ m3) "INDENTATION" "block_scan"]
  /\ filter is_indentation
       (run_syntax_check (Some "/tmp/repo_clone") I [two_block_file])
     = [mkFinding "ex.py" 2 ("IndentationError: " ++ m3) "INDENTATION"
          "block_scan"].
Proof.
  intros Htok Hwhole Hrun Hblock1 Hbody1 Hblock2.
  assert (Hres : run_syntax_check (Some "/tmp/repo_clone") I [two_block_file]
    = [mkFinding "ex.py" 1 ("SyntaxError: " ++ m1) "SYNTAX" "compile";
       mkFinding "ex.py" 2 ("IndentationError: " ++ m3) "INDENTATION"
         "block_scan"]).
  { unfold run_syntax_check, SyntaxCheck.check_file, two_block_file.
    cbn [fold_left text rel_path].
    unfold SyntaxCheck.pass_tokenize. rewrite Htok.
    unfold SyntaxCheck.pass_compile. rewrite Hwhole.
    unfold SyntaxCheck.pass_py_compile.
    change ("/tmp/repo_clone" ++ "/" ++ "ex.py") with "/tmp/repo_clone/ex.py".
    rewrite Hrun.
    change (_add [] "ex.py" (lineno_or_1 (Some 1%N)) ("SyntaxError: " ++ m1)
              "SYNTAX" "compile")
      with [mkFinding "ex.py" 1 ("SyntaxError: " ++ m1) "SYNTAX" "compile"].
    replace (returncode (two_block_run "/tmp/repo_clone/ex.py") =? 0)
      with false by reflexivity.
    replace (SyntaxCheck.parse_py_compile _)
      with (Some ("/tmp/repo_clone/ex.py", 1, "def f()"))
      by (vm_compute; reflexivity).
    replace (normalize_path "/tmp/repo_clone" "/tmp/repo_clone/ex.py")
      with "ex.py" by (vm_compute; reflexivity).
    rewrite add_when_recorded by (left; reflexivity).
    replace (Str.splitlines two_block_text)
      with ["def f()"; "    x = 1"; "def g():"; "        print(1)"]
      by (vm_compute; reflexivity).
    cbn [SyntaxCheck.block_scan].
    replace (SyntaxCheck.is_new_block 0 "def f()") with false
      by (vm_compute; reflexivity).
    replace (SyntaxCheck.is_new_block 1 "    x = 1") with false
      by (vm_compute; reflexivity).
    replace (SyntaxCheck.is_new_block 2 "def g():") with true
      by (vm_compute; reflexivity).
    replace (SyntaxCheck.is_new_block 3 "        print(1)") with false
      by (vm_compute; reflexivity).
    cbn [orb length Nat.eqb Nat.sub].
    unfold SyntaxCheck.compile_block.
    replace (Str.slice ["def f()"; "    x = 1"; "def g():"; "        print(1)"] 0 2)
      with ["def f()"; "    x = 1"] by reflexivity.
    replace (Str.slice ["def f()"; "    x = 1"; "def g():"; "        print(1)"] 2
               (3 + 1))
      with ["def g():"; "        print(1)"] by reflexivity.
    replace (Str.join nl ["def f()"; "    x = 1"])
      with ("def f()" ++ nl ++ "    x = 1") by reflexivity.
    replace (Str.join nl ["def g():"; "        print(1)"])
      with ("def g():" ++ nl ++ "        print(1)") by reflexivity.
    rewrite Hblock1, Hblock2.
    replace (Str.join nl (tl ["def f()"; "    x = 1"])) with "    x = 1"
      by reflexivity.
    rewrite Hbody1.
    replace (String.eqb (Str.strip ("def f()" ++ nl ++ "    x = 1")) EmptyString)
      with false by (vm_compute; reflexivity).
    replace (String.eqb (Str.strip "    x = 1") EmptyString)
      with false by (vm_compute; reflexivity).
    replace (String.eqb (Str.strip ("def g():" ++ nl ++ "        print(1)"))
               EmptyString)
      with false by (vm_compute; reflexivity).
    cbn [length Nat.ltb Nat.leb].
    rewrite add_when_new.
    - reflexivity.
    - cbn. intros [H|[]]. discriminate H. }
  split; [exact Hres|]. rewrite Hres. reflexivity.
Qed.

Lemma two_block_example_witness :
  filter is_indentation
    (run_syntax_check (Some "/tmp/repo_clone")
       (CPython.interpreter two_block_run) [two_block_file])
  = [mkFinding "ex.py" 2 "IndentationError: unexpected indent" "INDENTATION"
       "block_scan"].
Proof.
  refine (proj2 (two_block_example (CPython.interpreter two_block_run)
                   "expected ':'" "expected ':'" "unexpected indent"
                   _ _ _ _ _ _)); vm_compute; reflexivity.
Defined.

(** C3 (as stated) fails: the checker does not produce exactly one
    INDENTATION finding located on line 4. *)
Lemma two_block_no_finding_on_line_4 :
  ~ (exists e,
       filter is_indentation
         (run_syntax_check (Some "/tmp/repo_clone")
            (CPython.interpreter two_block_run) [two_block_file]) = [e]
       /\ line e = 4).
Proof.
  intros (e & He & Hl). vm_compute in He. injection He as <-.
  discriminate Hl.
Qed.

(** *** Block boundaries *)

(** C5 on the code: the header test is made on the stripped line, so the
    indented [def m(self):] on the second line of a well-formed class starts
    a new block; the class header is then compiled alone and the method
    alone, and both are reported as indentation errors. *)
Theorem nested_def_starts_block :
  SyntaxCheck.is_new_block 1 "    def m(self):" = true
  /\ SyntaxCheck.block_starts 0 (Str.splitlines class_text) = [1%nat]
  /\ CPython.compile class_text = CompileOk
  /\ run_syntax_check (Some "/tmp/repo_clone") (CPython.interpreter clean_run)
       [class_file]
     = [mkFinding "a.py" 1
          "IndentationError: expected an indented block after class definition on line 1"
          "INDENTATION" "block_scan";
        mkFinding "a.py" 2 "IndentationError: unexpected indent" "INDENTATION"
          "block_scan"].
Proof. repeat split; vm_compute; reflexivity. Qed.

Lemma lstrip_with_app p ws s :
  forallb p (list_ascii_of_string ws) = true ->
  Str.lstrip_with p (ws ++ s) = Str.lstrip_with p s.
Proof.
  induction ws as [|c ws IH]; simpl; [reflexivity|].
  intros H. apply andb_true_iff in H as (Hc & Hws). rewrite Hc. auto.
Qed.

Lemma rstrip_with_app p a b :
  Str.rstrip_with p b <> EmptyString ->
  Str.rstrip_with p (a ++ b) = a ++ Str.rstrip_with p b.
Proof.
  intros Hb. induction a as [|c a IH]; simpl; [reflexivity|].
  rewrite IH. destruct (a ++ Str.rstrip_with p b) eqn:E; [|reflexivity].
  destruct a; simpl in E; [contradiction|discriminate].
Qed.

(** The header test never looks at the indentation: after the first line,
    a [def] line starts a new block however far it is indented. *)
Lemma indented_def_is_new_block (i : nat) (ws rest : string) :
  (0 < i)%nat ->
  forallb Str.isspace (list_ascii_of_string ws) = true ->
  Str.rstrip rest <> EmptyString ->
  SyntaxCheck.is_new_block i (ws ++ "def " ++ rest) = true.
Proof.
  intros Hi Hws Hrest. unfold SyntaxCheck.is_new_block, Str.strip.
  assert (Hdef : Str.rstrip ("def " ++ rest) = "def " ++ Str.rstrip rest)
    by (apply rstrip_with_app; exact Hrest).
  unfold Str.rstrip at 1. rewrite rstrip_with_app;
    [|fold (Str.rstrip ("def " ++ rest)); rewrite Hdef; discriminate].
  fold (Str.rstrip ("def " ++ rest)). rewrite Hdef.
  unfold Str.lstrip. rewrite lstrip_with_app by exact Hws.
  apply Nat.ltb_lt in Hi. rewrite Hi. reflexivity.
Qed.

(** *** Line numbers *)

Lemma lineno_or_1_positive lineno : 1 <= lineno_or_1 lineno.
Proof.
  unfold lineno_or_1. destruct lineno as [n|]; [|lia].
  destruct (n =? 0)%N eqn:E; [lia|]. apply N.eqb_neq in E. lia.
Qed.

Lemma adds_positive_refl errors : adds_positive_lines errors errors.
Proof. exists []. rewrite app_nil_r. auto. Qed.

Lemma adds_positive_trans a b c :
  adds_positive_lines a b -> adds_positive_lines b c ->
  adds_positive_lines a c.
Proof.
  intros (x & -> & Hx) (y & -> & Hy). exists (x ++ y)%list.
  rewrite app_assoc. split; [reflexivity|]. apply Forall_app; auto.
Qed.

Lemma adds_positive_add errors rel ln msg bt src :
  1 <= ln -> adds_positive_lines errors (_add errors rel ln msg bt src).
Proof.
  intros Hln. unfold _add. destruct (existsb _ errors).
  - apply adds_positive_refl.
  - eexists; split; [reflexivity|]. constructor; [exact Hln|constructor].
Qed.

(** The passes that take their line from an exception guard it with
    [or 1]: against any interpreter they only add lines from 1 up. *)
Lemma guarded_passes_add_positive_lines I rel content lines todo errors :
  adds_positive_lines errors (SyntaxCheck.pass_tokenize I rel content errors)
  /\ adds_positive_lines errors (SyntaxCheck.pass_compile I rel content errors)
  /\ forall i block_start,
       adds_positive_lines errors
         (SyntaxCheck.block_scan I rel lines i todo block_start errors).
Proof.
  split; [|split].
  - unfold SyntaxCheck.pass_tokenize. destruct (tokenize I content);
      auto using adds_positive_refl, adds_positive_add, lineno_or_1_positive.
  - unfold SyntaxCheck.pass_compile. destruct (compile I content);
      auto using adds_positive_refl, adds_positive_add, lineno_or_1_positive.
  - revert errors. induction todo as [|raw todo IH]; intros errors i bs; simpl.
    + apply adds_positive_refl.
    + eapply adds_positive_trans; [|apply IH].
      destruct (_ || _); [|apply adds_positive_refl].
      unfold SyntaxCheck.compile_block.
      destruct (String.eqb _ _); [apply adds_positive_refl|].
      destruct (compile I _) as [|l m|l m].
      * apply adds_positive_refl.
      * apply adds_positive_add. pose proof (lineno_or_1_positive l). lia.
      * destruct (1 <? _)%nat; [|apply adds_positive_refl].
        destruct (String.eqb _ _); [apply adds_positive_refl|].
        destruct (compile I _) as [|l' m'|l' m'];
          try apply adds_positive_refl.
        apply adds_positive_add. pose proof (lineno_or_1_positive l'). lia.
Qed.

(** The pattern scanner numbers the lines from 1. *)
Lemma scan_lines_positive find_spec full_text rel raw_lines : forall lineno,
  1 <= lineno ->
  Forall (fun e => 1 <= line e)
    (Pattern.scan_lines find_spec full_text rel lineno raw_lines).
Proof.
  assert (Hline : forall lineno raw found_here,
            Pattern.scan_line find_spec full_text rel lineno raw = Some found_here ->
            Forall (fun e => line e = lineno) found_here).
  { intros lineno raw found_here. unfold Pattern.scan_line.
    assert (Hrest : forall s, Forall (fun e => line e = lineno)
                       (Pattern.rules_after_lookup full_text rel lineno s)).
    { intros s. unfold Pattern.rules_after_lookup.
      repeat (apply Forall_app; split);
        repeat match goal with
               | |- context [match ?x with _ => _ end] => destruct x
               end;
        repeat constructor. }
    destruct (_ || _); [intros [= <-]; constructor|].
    destruct (Re.match_ Pattern.import_re _) as [m|].
    - destruct (find_spec _) as [[|]|]; intros [= <-]; auto.
    - intros [= <-]; apply Hrest. }
  induction raw_lines as [|raw raw_lines IH]; intros lineno Hpos; simpl.
  - constructor.
  - destruct (Pattern.scan_line find_spec full_text rel lineno raw) eqn:E;
      [|constructor].
    apply Forall_app. split.
    + eapply Forall_impl; [|exact (Hline _ _ _ E)]. simpl. intros e ->. lia.
    + apply IH. lia.
Qed.

(** C9 on the code: pass 3 takes the line from the text that [py_compile]
    prints and does not guard it.  For a file with an unknown encoding
    declaration the text says line 0, pass 3 records a finding on line 0, and
    the fix made from it is on line 0 too. *)
Theorem py_compile_pass_records_line_0 :
  run_syntax_check (Some "/tmp/repo_clone")
    (CPython.interpreter unknown_encoding_run) [unknown_encoding_file]
  = [mkFinding "enc.py" 0 "SyntaxError: unknown encoding: foo" "SYNTAX"
       "py_compile"]
  /\ FixResult.line
       (_make_fix review_manually
          (mkFinding "enc.py" 0 "SyntaxError: unknown encoding: foo" "SYNTAX"
             "py_compile")) = 0
  /\ ~ (1 <= 0).
Proof. split; [vm_compute; reflexivity|]. split; [reflexivity|lia]. Qed.

(** ** Dynamic executor *)


Lemma parse_reports_first rel reports : forall seen,
  Dynamic.parse_reports rel reports seen
  = map Dynamic.finding_of (Dynamic.first_reports rel reports seen).
Proof.
  induction reports as [|r reports IH]; intros seen; simpl; [reflexivity|].
  destruct (existsb _ seen); simpl; rewrite IH; reflexivity.
Qed.





(** Every line that the parent reads names the file under test and carries
    at most 200 characters of text, and there is at most one line for each
    name of the loop. *)
Lemma call_each_file M py rel names : forall k printed out,
  Dynamic.call_each M py rel names k printed = Some out ->
  (Forall (fun r => Dynamic.r_file r = rel
                    /\ (String.length (Dynamic.r_msg r) <= 200)%nat) printed ->
   Forall (fun r => Dynamic.r_file r = rel
                    /\ (String.length (Dynamic.r_msg r) <= 200)%nat) out)
  /\ (length out <= length printed + length names)%nat.
Proof.
  assert (Htake : forall n s, (String.length (Str.take n s) <= n)%nat).
  { induction n as [|n IHn]; intros [|c s]; cbn [Str.take String.length];
      try lia. specialize (IHn s). lia. }
  assert (Hfirstn : forall n (l : list Dynamic.Report),
            (Forall (fun r => Dynamic.r_file r = rel
                       /\ (String.length (Dynamic.r_msg r) <= 200)%nat) l ->
             Forall (fun r => Dynamic.r_file r = rel
                       /\ (String.length (Dynamic.r_msg r) <= 200)%nat)
               (firstn n l))
            /\ (length (firstn n l) <= length l)%nat).
  { intros n l. split; [|rewrite length_firstn; apply Nat.le_min_r].
    intros H. apply Forall_forall. intros r Hr.
    rewrite Forall_forall in H. apply H. exact (In_firstn_In _ _ _ Hr). }
  assert (Hfinish : forall l,
            (Forall (fun r => Dynamic.r_file r = rel
                       /\ (String.length (Dynamic.r_msg r) <= 200)%nat) l ->
             Forall (fun r => Dynamic.r_file r = rel
                       /\ (String.length (Dynamic.r_msg r) <= 200)%nat)
               (Dynamic.finish M l))
            /\ (length (Dynamic.finish M l) <= length l)%nat).
  { intros l. unfold Dynamic.finish.
    destruct (Dynamic.at_exit M); [apply Hfirstn|split; [tauto|lia]]. }
  induction names as [|n names IH]; intros k printed out;
    cbn [Dynamic.call_each length].
  - intros [= <-]. destruct (Hfinish printed). split; [assumption|lia].
  - destruct (negb (Dynamic.in_budget M k)).
    { intros [= <-]. destruct (Hfinish printed). split; [assumption|lia]. }
    destruct (Dynamic.attr M n) as [[|exc msg tb| |reached|]|].
    + intros H. destruct (IH _ _ _ H). split; [assumption|lia].
    + intros H. destruct (IH _ _ _ H) as [H1 H2].
      rewrite length_app in H2. cbn [length] in H2. split; [|lia].
      intros Hp. apply H1, Forall_app. split; [exact Hp|].
      apply Forall_cons; [|apply Forall_nil].
      unfold Dynamic.report; cbn [Dynamic.r_file Dynamic.r_msg].
      split; [reflexivity|apply Htake].
    + intros H. destruct (IH _ _ _ H). split; [assumption|lia].
    + intros [= <-]. destruct (Hfirstn reached printed).
      split; [assumption|lia].
    + discriminate.
    + intros H. destruct (IH _ _ _ H). split; [assumption|lia].
Qed.




(** * Further properties *)

(** ** Aggregator: shape of the output, ties, clean streams *)

Lemma unique_errors_kept clone l e :
  In e (unique_errors clone l) ->
  discarded (file e) = false /\ exists x, In x l /\ e = normalized clone x.
Proof.
  intros He. destruct (unique_errors_In _ _ _ He) as (_ & x & Hx & Hk & ->).
  split; [|eauto]. simpl. unfold kept in Hk.
  apply negb_true_iff in Hk. exact Hk.
Qed.

(** X1: the aggregation stage raises exactly on a cap below 0 or above
    [sys.maxsize]; otherwise its output has at most [max_fixes] entries, no
    (file, line) pair twice, no notebook or documentation path, and only
    normalised forms of findings of the stream. *)
Theorem aggregate_output_shape
  (clone : string) (max_fixes : Z) (all_errors : list Finding) :
  (max_fixes < 0 \/ Py.maxsize < max_fixes ->
   aggregate clone max_fixes all_errors = None)
  /\ (0 <= max_fixes <= Py.maxsize ->
      exists out,
        aggregate clone max_fixes all_errors = Some out
        /\ Z.of_nat (length out) <= max_fixes
        /\ (length out <= length all_errors)%nat
        /\ NoDup (map key_of out)
        /\ forall e, In e out ->
             discarded (file e) = false
             /\ exists x, In x all_errors /\ e = normalized clone x).
Proof.
  unfold aggregate. split.
  - unfold Py.islice. intros [H|H]; apply Z.ltb_lt in H; rewrite H;
      [|rewrite orb_true_r]; reflexivity.
  - intros [H Hcap]. pose proof H as Hge.
    rewrite (islice_in_range _ _ H Hcap).
    eexists; split; [reflexivity|].
    split; [pose proof (firstn_le_length (Z.to_nat max_fixes)
                          (unique_errors clone all_errors)); lia|].
    split.
    + rewrite length_firstn. etransitivity; [apply Nat.le_min_r|].
      * clear. unfold unique_errors, Dict.values, dedup.
        rewrite length_map.
        assert (Hlen : forall l best,
                  (length (fold_left (dedup_step clone) l best)
                   <= length best + length l)%nat).
        { induction l as [|x l IH]; intros best; simpl; [lia|].
          etransitivity; [apply IH|].
          assert (length (dedup_step clone best x) <= S (length best))%nat;
            [|lia].
          unfold dedup_step. destruct (discarded _); [lia|].
          assert (Hset : forall (k : Dict.key) (v : Finding) d,
                    (length (Dict.set k v d) <= S (length d))%nat).
          { intros k v d. induction d as [|[k0 v0] d IHd]; simpl; [lia|].
            destruct (string_Z_eqb k k0); simpl; lia. }
          destruct (Dict.get _ best); [destruct (_ <? _)%nat|];
            try apply Hset; lia. }
        apply (Hlen all_errors []).
    + split; [rewrite <- firstn_map; apply NoDup_firstn, unique_errors_NoDup|].
      intros e He. apply In_firstn_In in He.
      exact (unique_errors_kept _ _ _ He).
Qed.

Lemma In_set_other {V : Type} (k k' : Dict.key) (v v' : V) (d : Dict.t V) :
  NoDup (Dict.keys d) ->
  In (k', v') (Dict.set k v d) ->
  (k', v') = (k, v) \/ (k' <> k /\ In (k', v') d).
Proof.
  induction d as [|[k0 v0] d IH]; simpl; intros Hnd.
  - intros [H|[]]; auto.
  - inversion Hnd as [|? ? Hk0 Hnd']; subst.
    destruct (string_Z_eqb k k0) eqn:E; simpl.
    + apply string_Z_eqb_eq in E; subst k0. intros [H|H]; [auto|].
      right. split; [|auto]. intros ->. apply Hk0.
      apply (in_map fst) in H. exact H.
    + intros [H|H].
      * inversion H; subst. right. split; [|auto]. intros ->.
        rewrite string_Z_eqb_refl in E. discriminate.
      * destruct (IH Hnd' H) as [?|[? ?]]; auto.
Qed.

Lemma wins_later clone seen e x :
  wins clone seen e ->
  (kept clone x = true -> key_of (normalized clone x) = key_of e ->
   forall x0, e = normalized clone x0 ->
   (TYPE_PRIORITY (type x0) <= TYPE_PRIORITY (type x))%nat) ->
  wins clone (seen ++ [x]) e.
Proof.
  intros (pre & x0 & post & -> & Hk0 & He & Hpre & Hpost) Hx.
  exists pre, x0, (post ++ [x])%list.
  split; [rewrite <- app_assoc; reflexivity|].
  repeat split; auto.
  intros y Hy Hky Hkey. apply in_app_iff in Hy as [Hy|[<-|[]]]; [auto|].
  exact (Hx Hky Hkey x0 He).
Qed.

Lemma dedup_step_wins clone seen best x :
  dedup_inv clone seen best ->
  (forall k e, In (k, e) best -> wins clone seen e) ->
  forall k e, In (k, e) (dedup_step clone best x) ->
    wins clone (seen ++ [x]) e.
Proof.
  intros Hinv Hw k e. pose proof Hinv as (Hnd & Hown & Hbest).
  unfold dedup_step.
  destruct (discarded (normalize_path clone (file x))) eqn:Hd.
  - intros Hin. apply wins_later; [eauto|].
    intros Hk. unfold kept in Hk. rewrite Hd in Hk. discriminate.
  - assert (Hkx : kept clone x = true) by (unfold kept; rewrite Hd; reflexivity).
    change (normalize_path clone (file x), line x)
      with (key_of (normalized clone x)).
    change (set_file (normalize_path clone (file x)) x)
      with (normalized clone x).
    assert (Hnew : (forall y, In y seen -> kept clone y = true ->
                      key_of (normalized clone y) = key_of (normalized clone x) ->
                      (TYPE_PRIORITY (type x) < TYPE_PRIORITY (type y))%nat) ->
                   wins clone (seen ++ [x]) (normalized clone x)).
    { intros Hall. exists seen, x, []. repeat split; auto.
      intros y []. }
    assert (Hold : forall k' e', In (k', e') best ->
                     k' <> key_of (normalized clone x) ->
                     wins clone (seen ++ [x]) e').
    { intros k' e' Hin Hne. apply wins_later; [eauto|].
      intros _ Hkey. exfalso. apply Hne.
      destruct (Hown _ _ Hin) as (-> & _). symmetry. exact Hkey. }
    destruct (Dict.get (key_of (normalized clone x)) best) as [prev|] eqn:Hget.
    + change (type (normalized clone x)) with (type x).
      pose proof (get_In _ _ _ Hget) as Hprev.
      pose proof (Hw _ _ Hprev) as Hwp.
      destruct (Hown _ _ Hprev) as (Hkp & _).
      destruct (TYPE_PRIORITY (type x) <? TYPE_PRIORITY (type prev))%nat eqn:Hlt.
      * apply Nat.ltb_lt in Hlt. intros Hin.
        apply (In_set_other _ _ _ _ _ Hnd) in Hin as [Heq|[Hne Hin]];
          [|eauto].
        inversion Heq; subst. apply Hnew.
        intros y Hy Hky Hkey.
        destruct Hwp as (pre & x0 & post & Hseen & Hk0 & He0 & Hpre & Hpost).
        assert (Hyk : key_of (normalized clone y) = key_of prev)
          by (rewrite Hkey; exact Hkp).
        assert (Ht0 : type prev = type x0) by (rewrite He0; reflexivity).
        rewrite Ht0 in Hlt.
        rewrite Hseen in Hy. apply in_app_iff in Hy as [Hy|[<-|Hy]].
        -- specialize (Hpre y Hy Hky Hyk). lia.
        -- exact Hlt.
        -- specialize (Hpost y Hy Hky Hyk). lia.
      * apply Nat.ltb_ge in Hlt. intros Hin.
        destruct (string_Z_eqb k (key_of (normalized clone x))) eqn:E.
        -- apply string_Z_eqb_eq in E. subst k.
           pose proof (In_get _ _ _ Hnd Hin) as Hg. rewrite Hget in Hg.
           inversion Hg; subst e. apply wins_later; [exact Hwp|].
           intros _ _ x0 He0. rewrite He0 in Hlt. exact Hlt.
        -- apply (Hold k e Hin). intros ->.
           rewrite string_Z_eqb_refl in E. discriminate.
    + intros Hin.
      apply (In_set_other _ _ _ _ _ Hnd) in Hin as [Heq|[Hne Hin]]; [|eauto].
      inversion Heq; subst. apply Hnew.
      intros y Hy Hky Hkey. exfalso.
      destruct (Hbest y Hy Hky) as (e' & He' & _).
      rewrite Hkey, Hget in He'. discriminate.
Qed.

Lemma dedup_fold_wins clone l : forall seen best,
  dedup_inv clone seen best ->
  (forall k e, In (k, e) best -> wins clone seen e) ->
  forall k e, In (k, e) (fold_left (dedup_step clone) l best) ->
    wins clone (seen ++ l) e.
Proof.
  induction l as [|x l IH]; intros seen best Hinv Hw k e; simpl.
  - rewrite app_nil_r. apply Hw.
  - replace (seen ++ x :: l)%list with ((seen ++ [x]) ++ l)%list
      by (rewrite <- app_assoc; reflexivity).
    apply IH; [apply dedup_step_inv; exact Hinv|].
    apply dedup_step_wins; assumption.
Qed.

(** X2: of the findings that arrive with one (file, line) key the aggregator
    keeps the earliest of those whose type ranks first: the one kept ranks
    strictly before every earlier arrival with the key and no later than
    every later one.  With equal types the first arrival stays. *)
Theorem aggregator_first_of_the_best
  (clone : string) (max_fixes : Z) (all_errors out : list Finding)
  (e : Finding) :
  aggregate clone max_fixes all_errors = Some out ->
  In e out ->
  wins clone all_errors e.
Proof.
  intros Hagg He. apply islice_Some in Hagg as (_ & ->).
  apply In_firstn_In in He.
  destruct (unique_errors_In _ _ _ He) as (Hin & _).
  apply (dedup_fold_wins clone all_errors [] [] ) with (k := key_of e).
  - split; [constructor|split]; intros; contradiction.
  - intros ? ? [].
  - exact Hin.
Qed.

Lemma aggregator_first_of_the_best_witness :
  wins "/tmp/repo_clone" [syntax_at_3; logic_at_3; set_file "app.py" syntax_at_3]
    syntax_at_3.
Proof.
  apply (aggregator_first_of_the_best "/tmp/repo_clone" 50
           [syntax_at_3; logic_at_3; set_file "app.py" syntax_at_3]
           [syntax_at_3] syntax_at_3).
  - reflexivity.
  - left. reflexivity.
Defined.

(** X3: a stream of findings with distinct (file, line) pairs, whose paths need
    no stripping and are no notebook or documentation paths, comes out as it
    went in, in the same order, cut at the cap, for every cap from 0 to
    [sys.maxsize]. *)
Theorem aggregate_passes_clean_streams
  (clone : string) (max_fixes : Z) (all_errors : list Finding) :
  (forall e, In e all_errors ->
     normalize_path clone (file e) = file e /\ discarded (file e) = false) ->
  NoDup (map key_of all_errors) ->
  0 <= max_fixes <= Py.maxsize ->
  aggregate clone max_fixes all_errors
  = Some (firstn (Z.to_nat max_fixes) all_errors).
Proof.
  intros Hclean Hnd [Hmax Hcap]. unfold aggregate, unique_errors, dedup.
  rewrite (dedup_fold_fixed clone all_errors [] Hclean Hnd). simpl.
  unfold Dict.values. rewrite map_map. simpl. rewrite map_id.
  apply islice_in_range; assumption.
Qed.

Lemma aggregate_passes_clean_streams_witness :
  aggregate "/tmp/repo_clone" 1
    [syntax_at_3; mkFinding "app.py" 7 "LOGIC: bare except" "LOGIC" "regex"]
  = Some [syntax_at_3].
Proof.
  apply (aggregate_passes_clean_streams "/tmp/repo_clone" 1
           [syntax_at_3;
            mkFinding "app.py" 7 "LOGIC: bare except" "LOGIC" "regex"]).
  - intros e [<-|[<-|[]]]; split; reflexivity.
  - repeat constructor; simpl; intuition discriminate.
  - vm_compute. split; discriminate.
Defined.

(** ** Classifier: longer messages *)

Lemma upper_app a b : Py.upper (a ++ b) = Py.upper a ++ Py.upper b.
Proof. induction a as [|c a IH]; simpl; [reflexivity|rewrite IH; reflexivity]. Qed.

Lemma determine_bug_type_scan msg :
  determine_bug_type msg
  = match first_hit (Py.upper msg) PRIORITY_ORDER with
    | Some t => t
    | None => "LOGIC"
    end.
Proof. destruct msg; reflexivity. Qed.

Lemma prefix_app needle hay s :
  String.prefix needle hay = true -> String.prefix needle (hay ++ s) = true.
Proof.
  revert hay. induction needle as [|c needle IH]; intros hay.
  - intros _. destruct (hay ++ s); reflexivity.
  - destruct hay as [|d hay]; simpl; [discriminate|].
    destruct (ascii_dec c d); [apply IH|discriminate].
Qed.

Lemma contains_nil needle :
  Py.contains needle EmptyString = String.prefix needle EmptyString.
Proof. destruct needle; reflexivity. Qed.

Lemma contains_cons needle c hay :
  Py.contains needle (String c hay)
  = String.prefix needle (String c hay) || Py.contains needle hay.
Proof.
  cbn [Py.contains]. destruct (String.prefix needle (String c hay)); reflexivity.
Qed.

Lemma contains_app_r needle hay s :
  Py.contains needle hay = true -> Py.contains needle (hay ++ s) = true.
Proof.
  induction hay as [|c hay IH].
  - rewrite contains_nil. intros H. destruct needle; [|discriminate H].
    destruct ("" ++ s); reflexivity.
  - rewrite contains_cons. intros H. change (String c hay ++ s)
      with (String c (hay ++ s)). rewrite contains_cons.
    apply orb_true_iff in H as [H|H]; apply orb_true_iff.
    + left. exact (prefix_app _ _ s H).
    + right. exact (IH H).
Qed.

Lemma contains_app_l needle s hay :
  Py.contains needle hay = true -> Py.contains needle (s ++ hay) = true.
Proof.
  intros H. induction s as [|c s IH]; [exact H|].
  change (String c s ++ hay) with (String c (s ++ hay)).
  rewrite contains_cons, IH. apply orb_true_r.
Qed.

Lemma keyword_hit_mono msg msg' t :
  (forall kw, Py.contains kw msg = true -> Py.contains kw msg' = true) ->
  keyword_hit msg t = true -> keyword_hit msg' t = true.
Proof.
  intros Hmono. unfold keyword_hit. rewrite !existsb_exists.
  intros (kw & Hin & Hc). exists kw. auto.
Qed.

Lemma keyword_hit_longer pre msg post t :
  keyword_hit (Py.upper msg) t = true ->
  keyword_hit (Py.upper (pre ++ msg ++ post)) t = true.
Proof.
  apply keyword_hit_mono. intros kw H. rewrite !upper_app.
  apply contains_app_l, contains_app_r, H.
Qed.

Lemma keyword_miss_shorter pre msg post t :
  keyword_hit (Py.upper (pre ++ msg ++ post)) t = false ->
  keyword_hit (Py.upper msg) t = false.
Proof.
  intros H. destruct (keyword_hit (Py.upper msg) t) eqn:E; [|reflexivity].
  rewrite (keyword_hit_longer pre msg post t E) in H. discriminate H.
Qed.

(** X4: text put before or after a message never moves its type down the
    priority order: the longer message gets the same type or an earlier
    one. *)
Theorem determine_bug_type_longer_message (pre msg post : string) :
  (TYPE_PRIORITY (determine_bug_type (pre ++ msg ++ post))
   <= TYPE_PRIORITY (determine_bug_type msg))%nat.
Proof.
  rewrite !determine_bug_type_scan. cbn [PRIORITY_ORDER first_hit].
  repeat
    (match goal with
     | |- context [keyword_hit (Py.upper (pre ++ msg ++ post)) ?t] =>
         destruct (keyword_hit (Py.upper (pre ++ msg ++ post)) t) eqn:?E;
         [ repeat (match goal with
                   | |- context [keyword_hit (Py.upper msg) ?u] =>
                       destruct (keyword_hit (Py.upper msg) u)
                   end);
           vm_compute; lia
         | rewrite (keyword_miss_shorter pre msg post t) by assumption ]
     end).
  vm_compute; lia.
Qed.

Lemma keyword_W msg :
  Py.contains "W" (Py.upper msg) = true ->
  keyword_hit (Py.upper msg) "LINTING" = true.
Proof.
  intros H. unfold keyword_hit. apply existsb_exists.
  exists "W"%string. split; [|exact H].
  vm_compute. tauto.
Qed.

(** X5: a message with the letter w in it, in either case, is never typed
    LOGIC: the one-letter LINTING keyword catches it when no earlier type
    does. *)
Theorem determine_bug_type_letter_w (msg : string) :
  Py.contains "W" (Py.upper msg) = true ->
  In (determine_bug_type msg)
     ["INDENTATION"; "SYNTAX"; "IMPORT"; "TYPE_ERROR"; "LINTING"].
Proof.
  intros H. rewrite determine_bug_type_scan. cbn [PRIORITY_ORDER first_hit].
  rewrite (keyword_W msg H).
  repeat (match goal with
          | |- context [keyword_hit (Py.upper msg) ?u] =>
              destruct (keyword_hit (Py.upper msg) u)
          end); simpl; tauto.
Qed.

Lemma determine_bug_type_letter_w_witness :
  In (determine_bug_type "OverflowError: math range error")
     ["INDENTATION"; "SYNTAX"; "IMPORT"; "TYPE_ERROR"; "LINTING"].
Proof.
  apply (determine_bug_type_letter_w "OverflowError: math range error").
  reflexivity.
Defined.

(** ** Pattern scanner: what it reports, and where it stops *)

Lemma rules_after_lookup_shape full_text rel lineno stripped :
  Forall (fun e => file e = rel /\ line e = lineno /\ source e = "regex"
                   /\ In (type e) ["IMPORT"; "SYNTAX"; "TYPE_ERROR"; "LOGIC"])
    (Pattern.rules_after_lookup full_text rel lineno stripped).
Proof.
  unfold Pattern.rules_after_lookup.
  repeat (apply Forall_app; split);
    repeat (match goal with
            | |- Forall _ (match ?x with _ => _ end) => destruct x
            | |- Forall _ (if ?x then _ else _) => destruct x
            end);
    try apply Forall_nil;
    (apply Forall_cons; [|apply Forall_nil]);
    unfold Pattern.regex_finding; cbn [file line type source In];
    repeat split; tauto.
Qed.

Lemma scan_line_shape find_spec full_text rel lineno raw found_here :
  Pattern.scan_line find_spec full_text rel lineno raw = Some found_here ->
  Forall (fun e => file e = rel /\ line e = lineno /\ source e = "regex"
                   /\ In (type e) ["IMPORT"; "SYNTAX"; "TYPE_ERROR"; "LOGIC"])
    found_here.
Proof.
  unfold Pattern.scan_line.
  destruct (_ || _); [intros [= <-]; apply Forall_nil|].
  pose proof (rules_after_lookup_shape full_text rel lineno
                (Str.strip (Str.rstrip_lf raw))) as Hrest.
  destruct (Re.match_ Pattern.import_re _) as [m|]; [|intros [= <-]; exact Hrest].
  destruct (find_spec _) as [[|]|]; [| |discriminate]; intros [= <-].
  - exact Hrest.
  - apply Forall_cons; [|exact Hrest].
    unfold Pattern.regex_finding; cbn [file line type source In].
    repeat split; tauto.
Qed.

Lemma scan_lines_shape find_spec full_text rel raw_lines : forall lineno,
  Forall (fun e => file e = rel /\ source e = "regex"
                   /\ In (type e) ["IMPORT"; "SYNTAX"; "TYPE_ERROR"; "LOGIC"]
                   /\ lineno <= line e < lineno + Z.of_nat (length raw_lines))
    (Pattern.scan_lines find_spec full_text rel lineno raw_lines).
Proof.
  induction raw_lines as [|raw raw_lines IH]; intros lineno;
    cbn [Pattern.scan_lines]; [apply Forall_nil|].
  destruct (Pattern.scan_line find_spec full_text rel lineno raw) as [here|] eqn:E;
    [|apply Forall_nil].
  apply Forall_app; split.
  - eapply Forall_impl; [|exact (scan_line_shape _ _ _ _ _ _ E)].
    cbn beta. intros e (Hf & Hl & Hs & Ht). cbn [length]. repeat split; auto; lia.
  - eapply Forall_impl; [|exact (IH (lineno + 1))].
    cbn beta. intros e (Hf & Hs & Ht & Hl). cbn [length]. repeat split; auto; lia.
Qed.

(** X6: every finding of the pattern scanner carries the source "regex", one of
    the four types IMPORT, SYNTAX, TYPE_ERROR and LOGIC, the path of a
    readable file of the list and the number of one of that file's lines,
    counted from 1. *)
Theorem pattern_scanner_findings_shape
  (clone_path : option string) (find_spec : string -> option bool)
  (python_files : list SourceFile) (e : Finding) :
  In e (run_regex_pattern_detection clone_path find_spec python_files) ->
  source e = "regex"
  /\ In (type e) ["IMPORT"; "SYNTAX"; "TYPE_ERROR"; "LOGIC"]
  /\ exists f full_text,
       In f python_files /\ text f = Some full_text
       /\ file e = rel_path f
       /\ 1 <= line e <= Z.of_nat (length (readlines full_text)).
Proof.
  unfold run_regex_pattern_detection. destruct clone_path as [c|]; [|intros []].
  rewrite in_flat_map. intros (f & Hf & He). unfold scan_file in He.
  destruct (text f) as [full_text|] eqn:Ht; [|destruct He].
  pose proof (scan_lines_shape find_spec full_text (rel_path f)
                (readlines full_text) 1) as H.
  rewrite Forall_forall in H. destruct (H e He) as (H1 & H2 & H3 & H4).
  repeat split; auto. exists f, full_text. repeat split; auto; lia.
Qed.

Lemma pattern_scanner_findings_shape_witness :
  source (Pattern.regex_finding "m.py" 1
            "LOGIC: ZeroDivisionError — division by literal zero" "LOGIC")
  = "regex".
Proof.
  refine (proj1 (pattern_scanner_findings_shape (Some "/tmp/repo_clone")
                   (fun _ => Some true) [mkSource "m.py" (Some "x = 1 / 0")]
                   _ _)).
  vm_compute. left. reflexivity.
Defined.

(** X7: when the module lookup raises on a line, the scan of that file ends
    there: the file's findings are those of the lines before it, whatever
    the line itself and the lines after it hold. *)
Theorem pattern_scanner_stops_at_failed_lookup
  (find_spec : string -> option bool) (full_text rel : string)
  (before after : list string) (raw : string) :
  forallb (fun l => negb (Pattern.lookup_raises find_spec l)) before = true ->
  Pattern.lookup_raises find_spec raw = true ->
  Pattern.scan_lines find_spec full_text rel 1 (before ++ raw :: after)
  = Pattern.scan_lines find_spec full_text rel 1 before.
Proof.
  intros Hb Hr. rewrite (scan_lines_app _ _ _ _ _ _ Hb).
  cbn [Pattern.scan_lines].
  rewrite (proj2 (scan_line_raises find_spec full_text rel _ raw) Hr).
  apply app_nil_r.
Qed.

Lemma pattern_scanner_stops_at_failed_lookup_witness :
  let find_spec := fun m => if String.eqb m "__main__" then None else Some true in
  let raw_lines := ["x = 1 / 0" ++ nl; "import __main__" ++ nl; "y = 2 / 0" ++ nl] in
  Pattern.scan_lines find_spec (writelines raw_lines) "m.py" 1 raw_lines
  = [Pattern.regex_finding "m.py" 1
       "LOGIC: ZeroDivisionError — division by literal zero" "LOGIC"].
Proof.
  intros find_spec raw_lines.
  change raw_lines
    with (List.app [String.append "x = 1 / 0" nl]
            (String.append "import __main__" nl :: [String.append "y = 2 / 0" nl]))
    at 2.
  rewrite (pattern_scanner_stops_at_failed_lookup find_spec
             (writelines raw_lines) "m.py" ["x = 1 / 0" ++ nl] ["y = 2 / 0" ++ nl]
             ("import __main__" ++ nl) eq_refl eq_refl).
  reflexivity.
Defined.

(** ** Executor: what [_analyze_single_file] can return *)

Lemma mapping_get_range mapping k d :
  In (mapping_get mapping k d) (d :: map snd mapping).
Proof.
  induction mapping as [|[k' v] mapping IH]; cbn [mapping_get map snd].
  - left. reflexivity.
  - destruct (String.eqb k k'); [right; left; reflexivity|].
    destruct IH as [IH|IH]; [left; exact IH|right; right; exact IH].
Qed.

Lemma map_exception_range exc :
  In (_map_exception_to_bug_type exc)
     ["INDENTATION"; "SYNTAX"; "IMPORT"; "TYPE_ERROR"; "LOGIC"].
Proof.
  pose proof (mapping_get_range exception_mapping exc "LOGIC") as H.
  unfold _map_exception_to_bug_type.
  revert H. generalize (mapping_get exception_mapping exc "LOGIC"). intros t.
  cbn [exception_mapping map snd In]. intuition (subst; tauto).
Qed.

Lemma take_length n : forall s, (String.length (Str.take n s) <= n)%nat.
Proof.
  induction n as [|n IH]; intros [|c s]; cbn [Str.take String.length]; try lia.
  specialize (IH s). lia.
Qed.

Lemma first_reports_incl rel reports : forall seen r,
  In r (Dynamic.first_reports rel reports seen) -> In r reports.
Proof.
  induction reports as [|r0 reports IH]; intros seen r;
    cbn [Dynamic.first_reports]; [intros []|].
  destruct (existsb _ seen).
  - intros H. right. exact (IH _ _ H).
  - intros [<-|H]; [left; reflexivity|right; exact (IH _ _ H)].
Qed.

Lemma first_reports_length rel reports : forall seen,
  (length (Dynamic.first_reports rel reports seen) <= length reports)%nat.
Proof.
  induction reports as [|r0 reports IH]; intros seen;
    cbn [Dynamic.first_reports length]; [lia|].
  destruct (existsb _ seen); cbn [length].
  - specialize (IH seen). lia.
  - specialize (IH ((rel, Dynamic.r_line r0, Dynamic.r_exc r0) :: seen)). lia.
Qed.

Lemma func_names_length M : (length (Dynamic.func_names M) <= 20)%nat.
Proof. unfold Dynamic.func_names. apply firstn_le_length. Qed.

Lemma runner_reports M py rel names reports :
  names <> [] ->
  Dynamic.runner M py rel names = Some reports ->
  (length reports <= length names)%nat
  /\ forall r, In r reports ->
       Dynamic.r_file r = rel /\ (String.length (Dynamic.r_msg r) <= 200)%nat.
Proof.
  intros Hn. unfold Dynamic.runner.
  destruct (Dynamic.load M) as [|exc msg tb| |].
  - intros H. destruct (call_each_file _ _ _ _ _ _ _ H) as [Hall Hlen].
    split; [cbn [length] in Hlen; lia|].
    specialize (Hall (Forall_nil _)). rewrite Forall_forall in Hall. exact Hall.
  - intros [= <-]. unfold Dynamic.finish.
    assert (Hone : forall r,
              In r [Dynamic.report py rel exc msg tb] ->
              Dynamic.r_file r = rel
              /\ (String.length (Dynamic.r_msg r) <= 200)%nat).
    { intros r [<-|[]]. split; [reflexivity|apply take_length]. }
    destruct names; [congruence|].
    destruct (Dynamic.at_exit M) as [reached|].
    + split.
      * rewrite length_firstn. cbn [length]. lia.
      * intros r Hr. apply Hone. exact (In_firstn_In _ _ _ Hr).
    + split; [cbn [length]; lia|exact Hone].
  - intros [= <-]. split; [cbn [length]; lia|intros r []].
  - discriminate.
Qed.

(** X8: for a module that writes nothing to standard output itself, the
    executor returns at most one finding per function it calls, so at most
    twenty for a file, and none for a file that does not compile.  Each
    finding carries the source "dynamic", the path of the file, a type other
    than LINTING, and the exception name, a colon and at most 200 characters
    of the exception's text as its message. *)
Theorem dynamic_findings_shape
  (M : Dynamic.Module) (clone rel : string) (found : list Finding) :
  Dynamic._analyze_single_file M clone rel = Some found ->
  (length found <= length (Dynamic.func_names M))%nat
  /\ (length found <= 20)%nat
  /\ (Dynamic.compiles M = false -> found = [])
  /\ forall e, In e found ->
       source e = "dynamic"
       /\ file e = rel
       /\ In (type e) ["INDENTATION"; "SYNTAX"; "IMPORT"; "TYPE_ERROR"; "LOGIC"]
       /\ exists exc msg,
            message e = exc ++ ": " ++ msg
            /\ type e = _map_exception_to_bug_type exc
            /\ (String.length msg <= 200)%nat.
Proof.
  intros Hrun.
  assert (Hshape :
    (length found <= length (Dynamic.func_names M))%nat
    /\ forall e, In e found ->
         source e = "dynamic"
         /\ file e = rel
         /\ In (type e) ["INDENTATION"; "SYNTAX"; "IMPORT"; "TYPE_ERROR"; "LOGIC"]
         /\ exists exc msg,
              message e = exc ++ ": " ++ msg
              /\ type e = _map_exception_to_bug_type exc
              /\ (String.length msg <= 200)%nat).
  { unfold Dynamic._analyze_single_file in Hrun.
    destruct (negb (Dynamic.compiles M)).
    { injection Hrun as <-. split; [cbn [length]; lia|intros e []]. }
    destruct (Dynamic.func_names M) as [|n names] eqn:En.
    { injection Hrun as <-. split; [cbn [length]; lia|intros e []]. }
    destruct (Dynamic.printed M clone rel) as [reports|] eqn:Ep;
      [|discriminate Hrun].
    injection Hrun as <-. unfold Dynamic.printed in Ep. rewrite En in Ep.
    destruct (runner_reports M _ rel (n :: names) reports
                ltac:(discriminate) Ep) as [Hlen Hrep].
    rewrite parse_reports_first. split.
    - rewrite length_map.
      pose proof (first_reports_length rel reports []). lia.
    - intros e He. apply in_map_iff in He as (r & <- & Hr).
      apply first_reports_incl in Hr. destruct (Hrep r Hr) as [Hf Hm].
      unfold Dynamic.finding_of; cbn [source file type message].
      repeat split; auto.
      + apply map_exception_range.
      + exists (Dynamic.r_exc r), (Dynamic.r_msg r). repeat split; auto. }
  destruct Hshape as [Hlen Hall].
  split; [exact Hlen|].
  split; [pose proof (func_names_length M); lia|].
  split; [|exact Hall].
  intros Hc. unfold Dynamic._analyze_single_file in Hrun.
  rewrite Hc in Hrun. injection Hrun as <-. reflexivity.
Qed.

Lemma dynamic_findings_shape_witness :
  (length [mkFinding "m.py" 2 "ZeroDivisionError: division by zero" "LOGIC"
             "dynamic"] <= 20)%nat.
Proof.
  refine (proj1 (proj2 (dynamic_findings_shape div_module "/tmp/repo_clone"
                          "m.py" _ _))).
  reflexivity.
Defined.

(** ** Syntax checker: what each pass can record *)

Lemma add_Forall (P : Finding -> Prop) errors rel line_no message bug_type src :
  Forall P errors ->
  P (mkFinding rel line_no message bug_type src) ->
  Forall P (_add errors rel line_no message bug_type src).
Proof.
  intros He Hn. unfold _add. destruct (existsb _ errors); [exact He|].
  apply Forall_app. split; [exact He|]. apply Forall_cons; [exact Hn|apply Forall_nil].
Qed.

Lemma digits_value_nonneg s : 0 <= Str.digits_value s.
Proof.
  unfold Str.digits_value.
  assert (H : forall l acc, 0 <= acc ->
            0 <= fold_left (fun acc c => 10 * acc + Z.of_nat (nat_of_ascii c - 48))
                   l acc).
  { induction l as [|c l IH]; intros acc Hacc; cbn [fold_left]; [exact Hacc|].
    apply IH. lia. }
  apply H. lia.
Qed.

Lemma determine_bug_type_range msg : In (determine_bug_type msg) PRIORITY_ORDER.
Proof.
  rewrite determine_bug_type_scan.
  pose proof (first_hit_spec (Py.upper msg) PRIORITY_ORDER) as H.
  destruct (first_hit (Py.upper msg) PRIORITY_ORDER) as [t|].
  - destruct H as (before & after & Ho & _). rewrite Ho.
    apply in_or_app. right. left. reflexivity.
  - cbn. tauto.
Qed.

Lemma parse_py_compile_line error_output rp ln msg :
  SyntaxCheck.parse_py_compile error_output = Some (rp, ln, msg) -> 0 <= ln.
Proof.
  unfold SyntaxCheck.parse_py_compile.
  repeat (match goal with
          | |- context [Re.search ?r ?s] => destruct (Re.search r s)
          end);
    try discriminate; intros [= _ <- _]; apply digits_value_nonneg.
Qed.

Section SyntaxShape.
Variable I : Interpreter.
Variable python_files : list SourceFile.
Variable f : SourceFile.
Hypothesis Hf : In f python_files.

Let ok := syntax_finding_ok python_files.

Lemma guarded_ok line_no message bug_type src :
  In src ["tokenize"; "compile"; "block_scan"] ->
  1 <= line_no ->
  (bug_type = "INDENTATION" \/ (bug_type = "SYNTAX" /\ src = "compile")) ->
  ok (mkFinding (rel_path f) line_no message bug_type src).
Proof.
  intros Hs Hl Ht. right. cbn [source line type file].
  repeat split; auto. exists f. auto.
Qed.

Lemma pass_tokenize_ok content errors :
  Forall ok errors -> Forall ok (SyntaxCheck.pass_tokenize I (rel_path f) content errors).
Proof.
  intros He. unfold SyntaxCheck.pass_tokenize.
  destruct (tokenize I content); auto.
  apply add_Forall; [exact He|].
  apply guarded_ok; [cbn; tauto|apply lineno_or_1_positive|tauto].
Qed.

Lemma pass_compile_ok content errors :
  Forall ok errors -> Forall ok (SyntaxCheck.pass_compile I (rel_path f) content errors).
Proof.
  intros He. unfold SyntaxCheck.pass_compile.
  destruct (compile I content); auto; (apply add_Forall; [exact He|]);
    (apply guarded_ok; [cbn; tauto|apply lineno_or_1_positive|tauto]).
Qed.

Lemma pass_py_compile_ok clone py_file errors :
  Forall ok errors -> Forall ok (SyntaxCheck.pass_py_compile I clone py_file errors).
Proof.
  intros He. unfold SyntaxCheck.pass_py_compile.
  destruct (returncode _ =? 0); [exact He|].
  destruct (SyntaxCheck.parse_py_compile _) as [[[rp ln] msg]|] eqn:E; [|exact He].
  apply add_Forall; [exact He|]. left. cbn [source line type message].
  repeat split.
  - exact (parse_py_compile_line _ _ _ _ E).
  - apply determine_bug_type_range.
  - apply take_length.
Qed.

Lemma compile_block_ok block_start block_lines errors :
  Forall ok errors ->
  Forall ok (SyntaxCheck.compile_block I (rel_path f) block_start block_lines errors).
Proof.
  intros He. unfold SyntaxCheck.compile_block.
  destruct (String.eqb (Str.strip (Str.join nl block_lines)) ""); [exact He|].
  destruct (compile I (Str.join nl block_lines)) as [|lineno msg|lineno msg].
  - exact He.
  - apply add_Forall; [exact He|].
    apply guarded_ok; [cbn; tauto| |tauto].
    pose proof (lineno_or_1_positive lineno). lia.
  - destruct (1 <? length block_lines)%nat; [|exact He].
    destruct (String.eqb (Str.strip (Str.join nl (tl block_lines))) "");
      [exact He|].
    destruct (compile I (Str.join nl (tl block_lines))) as [|lineno' msg'|];
      try exact He.
    apply add_Forall; [exact He|].
    apply guarded_ok; [cbn; tauto| |tauto].
    pose proof (lineno_or_1_positive lineno'). lia.
Qed.

Lemma block_scan_ok lines todo : forall i block_start errors,
  Forall ok errors ->
  Forall ok (SyntaxCheck.block_scan I (rel_path f) lines i todo block_start errors).
Proof.
  induction todo as [|raw todo IH]; intros i block_start errors He;
    cbn [SyntaxCheck.block_scan]; [exact He|].
  apply IH. destruct (_ || _); [apply compile_block_ok|]; exact He.
Qed.

Lemma check_file_ok clone errors :
  Forall ok errors -> Forall ok (SyntaxCheck.check_file I clone errors f).
Proof.
  intros He. unfold SyntaxCheck.check_file. destruct (text f); [|exact He].
  apply block_scan_ok, pass_py_compile_ok, pass_compile_ok, pass_tokenize_ok, He.
Qed.

End SyntaxShape.

Lemma check_files_ok I clone python_files : forall files errors,
  incl files python_files ->
  Forall (syntax_finding_ok python_files) errors ->
  Forall (syntax_finding_ok python_files)
    (fold_left (SyntaxCheck.check_file I clone) files errors).
Proof.
  induction files as [|f files IH]; intros errors Hi He; cbn [fold_left];
    [exact He|].
  apply IH; [intros x Hx; apply Hi; right; exact Hx|].
  apply check_file_ok; [apply Hi; left; reflexivity|exact He].
Qed.

(** X9: every entry that the syntax checker returns comes from one of its four
    passes and looks the part.  An entry of the tokenizer, of the whole-file
    compile or of the block scan has the path of a listed file and a line
    from 1 on; its type is INDENTATION, or SYNTAX for the whole-file compile
    alone, so the block scan records indentation errors only.  An entry of
    [py_compile] has a line from 0 on, one of the six types and a message
    of at most 200 characters. *)
Theorem syntax_check_findings_shape
  (clone_path : option string) (I : Interpreter)
  (python_files : list SourceFile) (e : Finding) :
  In e (run_syntax_check clone_path I python_files) ->
  syntax_finding_ok python_files e.
Proof.
  unfold run_syntax_check. destruct clone_path as [clone|]; [|intros []].
  pose proof (check_files_ok I clone python_files python_files []
                (incl_refl _) (Forall_nil _)) as H.
  rewrite Forall_forall in H. apply H.
Qed.

Lemma syntax_check_findings_shape_witness :
  syntax_finding_ok [two_block_file]
    (nth 0 (run_syntax_check (Some "/tmp/repo_clone")
              (CPython.interpreter two_block_run)
              [two_block_file]) logic_at_3).
Proof.
  apply (syntax_check_findings_shape (Some "/tmp/repo_clone")
           (CPython.interpreter two_block_run)
           [two_block_file]).
  vm_compute. left. reflexivity.
Defined.

(** ** Lines of a text, and what [apply_fix] writes *)

Lemma writelines_app a b :
  writelines (a ++ b) = writelines a ++ writelines b.
Proof.
  unfold writelines. induction a as [|l a IH]; cbn [fold_right app];
    [reflexivity|].
  change (fold_right String.append "" (a ++ b)%list) with (writelines (a ++ b)).
  unfold writelines in IH |- *. rewrite IH.
  clear. induction l as [|c l IHl]; cbn [String.append]; [reflexivity|].
  rewrite IHl. reflexivity.
Qed.

Lemma writelines_readlines s : writelines (readlines s) = s.
Proof.
  induction s as [|c s IH]; cbn [readlines]; [reflexivity|].
  destruct (Ascii.eqb c LF) eqn:Ec.
  - apply Ascii.eqb_eq in Ec. subst c. unfold writelines in IH |- *.
    cbn [fold_right String.append]. rewrite IH. reflexivity.
  - unfold writelines in IH |- *. destruct (readlines s) as [|l ls];
      cbn [fold_right String.append] in IH |- *; rewrite <- IH; reflexivity.
Qed.

Lemma ended_cons c l :
  Ascii.eqb c LF = false -> ended_line l -> ended_line (String c l).
Proof.
  intros Hc (body & -> & Hb). exists (String c body). split; [reflexivity|].
  cbn [no_lf]. rewrite Hc, Hb. reflexivity.
Qed.

Lemma open_cons c l :
  Ascii.eqb c LF = false -> open_line l -> open_line (String c l).
Proof.
  intros Hc (_ & Hb). split; [discriminate|].
  cbn [no_lf]. rewrite Hc, Hb. reflexivity.
Qed.

Lemma lines_ok_readlines s : lines_ok (readlines s).
Proof.
  induction s as [|c s IH]; cbn [readlines]; [exact Logic.I|].
  destruct (Ascii.eqb c LF) eqn:Ec.
  - assert (He : ended_line (String c "")).
    { apply Ascii.eqb_eq in Ec. subst c. exists ""%string. split; reflexivity. }
    destruct (readlines s) as [|l ls]; cbn [lines_ok]; [left; exact He|].
    split; [exact He|exact IH].
  - destruct (readlines s) as [|l [|l' ls]].
    + right. split; [discriminate|]. cbn [no_lf]. rewrite Ec. reflexivity.
    + destruct IH as [IH|IH]; [left; apply ended_cons|right; apply open_cons];
        assumption.
    + destruct IH as [IH1 IH2]. split; [apply ended_cons; assumption|exact IH2].
Qed.

Lemma readlines_ended body rest :
  no_lf body = true ->
  readlines ((body ++ nl) ++ rest) = (body ++ nl) :: readlines rest.
Proof.
  induction body as [|c body IH]; cbn [no_lf String.append readlines].
  - intros _. unfold nl. cbn [String.append readlines].
    rewrite Ascii.eqb_refl. reflexivity.
  - intros H. apply andb_true_iff in H as [Hc Hb]. apply negb_true_iff in Hc.
    rewrite Hc, (IH Hb). reflexivity.
Qed.

Lemma readlines_open l : open_line l -> readlines l = [l].
Proof.
  intros [Hne Hl]. induction l as [|c l IH]; [congruence|].
  cbn [no_lf] in Hl. apply andb_true_iff in Hl as [Hc Hb].
  apply negb_true_iff in Hc. cbn [readlines]. rewrite Hc.
  destruct l as [|c' l']; [reflexivity|].
  rewrite IH; [reflexivity|discriminate|exact Hb].
Qed.

Lemma append_empty_r s : s ++ "" = s.
Proof. induction s as [|c s IH]; cbn; [reflexivity|rewrite IH; reflexivity]. Qed.

Lemma append_assoc (x y z : string) : (x ++ y) ++ z = x ++ (y ++ z).
Proof. induction x as [|c x IH]; cbn; [reflexivity|rewrite IH; reflexivity]. Qed.

Lemma readlines_ended_lines a rest :
  Forall ended_line a ->
  readlines (writelines a ++ rest) = (a ++ readlines rest)%list.
Proof.
  induction 1 as [|l a (body & -> & Hb) _ IH]; [reflexivity|].
  change (writelines ((body ++ nl) :: a)) with ((body ++ nl) ++ writelines a).
  rewrite append_assoc, readlines_ended by exact Hb.
  rewrite IH. reflexivity.
Qed.

Lemma readlines_writelines ls : lines_ok ls -> readlines (writelines ls) = ls.
Proof.
  induction ls as [|l ls IH]; [reflexivity|].
  destruct ls as [|l' ls].
  - intros [(body & -> & Hb)|Ho].
    + change (writelines [body ++ nl]) with ((body ++ nl) ++ "").
      rewrite readlines_ended by exact Hb. reflexivity.
    + change (writelines [l]) with (l ++ ""). rewrite append_empty_r.
      apply readlines_open, Ho.
  - intros [(body & -> & Hb) Hok].
    change (writelines ((body ++ nl) :: l' :: ls))
      with ((body ++ nl) ++ writelines (l' :: ls)).
    rewrite readlines_ended by exact Hb. rewrite (IH Hok). reflexivity.
Qed.

Lemma lines_ok_skipn ls : forall j, lines_ok ls -> lines_ok (skipn j ls).
Proof.
  induction ls as [|l ls IH]; intros [|j] H; cbn [skipn]; try exact H.
  apply IH. destruct ls as [|l' ls]; [exact Logic.I|exact (proj2 H)].
Qed.

Lemma lines_ok_firstn ls : forall j,
  lines_ok ls -> (j < length ls)%nat -> Forall ended_line (firstn j ls).
Proof.
  induction ls as [|l ls IH]; intros [|j] H Hj; cbn [firstn];
    try apply Forall_nil.
  cbn [length] in Hj. destruct ls as [|l' ls]; [cbn [length] in Hj; lia|].
  destruct H as [H1 H2]. apply Forall_cons; [exact H1|].
  apply IH; [exact H2|lia].
Qed.


Lemma fs_write_same fs path text :
  exists f, fs_write fs path text path = Some f /\ content f = text.
Proof.
  unfold fs_write. rewrite String.eqb_refl.
  destruct (fs path) as [f|]; eexists; split; reflexivity.
Qed.



Lemma no_lf_app a b : no_lf a = true -> no_lf b = true -> no_lf (a ++ b) = true.
Proof.
  intros Ha Hb. induction a as [|c a IH]; [exact Hb|].
  cbn [no_lf String.append] in Ha |- *. apply andb_true_iff in Ha as [Hc Ha].
  rewrite Hc, (IH Ha). reflexivity.
Qed.

Lemma no_cr_app a b : no_cr (a ++ b) = no_cr a && no_cr b.
Proof.
  induction a as [|c a IH]; [reflexivity|].
  cbn [no_cr String.append]. rewrite IH. apply andb_assoc.
Qed.

Lemma no_cr_translate s : forall after_cr,
  no_cr (translate_newlines after_cr s) = true.
Proof.
  induction s as [|c s IH]; intros after_cr; [reflexivity|].
  cbn [translate_newlines]. destruct (Ascii.eqb c CR) eqn:Ec.
  - cbn [no_cr]. rewrite IH. reflexivity.
  - destruct (Ascii.eqb c LF && after_cr); [apply IH|].
    cbn [no_cr]. rewrite Ec, IH. reflexivity.
Qed.

Lemma translate_no_cr s :
  no_cr s = true -> universal_newlines s = s.
Proof.
  unfold universal_newlines. induction s as [|c s IH]; [reflexivity|].
  cbn [no_cr translate_newlines]. intros H.
  apply andb_true_iff in H as [Hc Hs]. apply negb_true_iff in Hc.
  rewrite Hc, andb_false_r, (IH Hs). reflexivity.
Qed.

(** The lines of a text with the comment block written in before line
    [k + 1]. *)
Lemma inserted_block_lines (text cmt : string) (k : nat) :
  let lines := readlines text in
  (k < length lines)%nat ->
  no_lf cmt = true ->
  readlines (writelines (firstn k lines ++ (nl ++ cmt ++ nl) :: skipn k lines))
  = (firstn k lines ++ [nl; String.append cmt nl] ++ skipn k lines)%list.
Proof.
  cbv zeta. intros Hk Hc.
  pose proof (lines_ok_readlines text) as Hok.
  rewrite writelines_app.
  rewrite readlines_ended_lines by (apply lines_ok_firstn; assumption).
  f_equal.
  change (writelines ((nl ++ cmt ++ nl) :: skipn k (readlines text)))
    with ((nl ++ cmt ++ nl) ++ writelines (skipn k (readlines text))).
  rewrite (append_assoc nl).
  change (nl ++ (cmt ++ nl) ++ writelines (skipn k (readlines text)))
    with (("" ++ nl)
          ++ ((cmt ++ nl) ++ writelines (skipn k (readlines text)))).
  rewrite readlines_ended by reflexivity.
  rewrite readlines_ended by exact Hc.
  rewrite readlines_writelines by (apply lines_ok_skipn; exact Hok).
  reflexivity.
Qed.

Lemma no_cr_inserted (text cmt : string) (j : nat) :
  no_cr text = true ->
  no_cr cmt = true ->
  no_cr (writelines (firstn j (readlines text) ++ cmt :: skipn j (readlines text)))
  = true.
Proof.
  intros Ht Hc.
  rewrite writelines_app.
  change (writelines (cmt :: skipn j (readlines text)))
    with (cmt ++ writelines (skipn j (readlines text))).
  rewrite <- (writelines_readlines text) in Ht.
  rewrite <- (firstn_skipn j (readlines text)) in Ht at 1.
  rewrite writelines_app, no_cr_app in Ht.
  apply andb_true_iff in Ht as [H1 H2].
  rewrite !no_cr_app, H1, Hc, H2. reflexivity.
Qed.

Lemma apply_fix_inserted_lines
  (clone : string) (fs : FS) (fx : FixResult.t) (f : File) :
  let path := path_join clone (FixResult.file fx) in
  let lines := readlines (universal_newlines (content f)) in
  let k := Z.to_nat (FixResult.line fx - 1) in
  let comment_line :=
    "# AI-FIX (" ++ FixResult.bug_type fx ++ "): "
      ++ FixResult.fix_text fx ++ nl in
  fs path = Some f ->
  readable f = true ->
  writable f = true ->
  (forall text, write f text = Written) ->
  1 <= FixResult.line fx <= Z.of_nat (length lines) ->
  no_lf (FixResult.bug_type fx) = true ->
  no_cr (FixResult.bug_type fx) = true ->
  no_lf (FixResult.fix_text fx) = true ->
  no_cr (FixResult.fix_text fx) = true ->
  exists fs' f',
    apply_fix (Some clone) fs fx
    = Returned (true, fs', FixResult.set_status "APPLIED" fx)
    /\ fs' path = Some f'
    /\ readlines (universal_newlines (content f'))
       = (firstn k lines ++ [nl; comment_line] ++ skipn k lines)%list.
Proof.
  cbv zeta. intros Hf Hr Hw Hwr [Hl1 Hl2] Hb Hb' Ht Ht'.
  unfold apply_fix. rewrite Hf, Hr, Hw, Hwr. cbn [negb].
  apply Z.leb_le in Hl2 as Hl2'. rewrite Hl2'.
  destruct (fs_write_same fs (path_join clone (FixResult.file fx))
              (writelines
                 (list_insert (FixResult.line fx - 1)
                    (nl ++ "# AI-FIX (" ++ FixResult.bug_type fx ++ "): "
                        ++ FixResult.fix_text fx ++ nl)
                    (readlines (universal_newlines (content f))))))
    as (f' & Hf' & Hc).
  eexists _, f'. split; [reflexivity|]. split; [exact Hf'|].
  rewrite Hc. clear Hf' Hc.
  set (text := universal_newlines (content f)) in *.
  set (cmt := "# AI-FIX (" ++ FixResult.bug_type fx ++ "): "
                ++ FixResult.fix_text fx).
  assert (Hj : list_insert (FixResult.line fx - 1)
                 (nl ++ "# AI-FIX (" ++ FixResult.bug_type fx ++ "): "
                     ++ FixResult.fix_text fx ++ nl) (readlines text)
               = (firstn (Z.to_nat (FixResult.line fx - 1)) (readlines text)
                  ++ String.append nl (String.append cmt nl)
                  :: skipn (Z.to_nat (FixResult.line fx - 1)) (readlines text))%list).
  { unfold list_insert.
    replace (FixResult.line fx - 1 <? 0) with false
      by (symmetry; apply Z.ltb_ge; lia).
    rewrite Z.min_l by lia. unfold cmt.
    rewrite !append_assoc. reflexivity. }
  rewrite Hj.
  assert (Hcmt_lf : no_lf cmt = true)
    by (unfold cmt; repeat apply no_lf_app; auto).
  assert (Hcmt_cr : no_cr (nl ++ cmt ++ nl) = true).
  { unfold cmt. rewrite !no_cr_app, Hb', Ht'. reflexivity. }
  rewrite translate_no_cr
    by (apply no_cr_inserted; [apply no_cr_translate|exact Hcmt_cr]).
  rewrite inserted_block_lines by (try exact Hcmt_lf; lia).
  unfold cmt. rewrite !append_assoc. reflexivity.
Qed.

Lemma inserted_pair_shifts {A : Type} (k : nat) (x y : A) (l : list A) :
  (k <= length l)%nat ->
  let l' := (firstn k l ++ [x; y] ++ skipn k l)%list in
  (forall i, (i < k)%nat -> nth_error l' i = nth_error l i)
  /\ (forall i, (k <= i)%nat -> nth_error l' (i + 2) = nth_error l i).
Proof.
  intros Hk. cbv zeta.
  assert (Hlen : length (firstn k l) = k) by (apply firstn_length_le, Hk).
  split; intros i Hi.
  - rewrite nth_error_app1 by lia. rewrite nth_error_firstn.
    replace (i <? k)%nat with true by (symmetry; apply Nat.ltb_lt; exact Hi).
    reflexivity.
  - rewrite nth_error_app2 by lia. rewrite Hlen.
    replace (i + 2 - k)%nat with (S (S (i - k))) by lia.
    cbn [app nth_error]. rewrite nth_error_skipn. f_equal. lia.
Qed.

(** X11: when the file can be read and written, a fix on line [line] of a
    file that has, as read, at least that many lines puts two lines before
    it, an empty one and the comment, provided that neither the type nor the
    fix text holds a line feed or a carriage return: read again, the file
    has its first [line - 1] lines, the two new ones, and the old lines from
    [line] on, each now two lines further down. *)
Theorem apply_fix_adds_two_lines
  (clone : string) (fs : FS) (fx : FixResult.t) (f : File) :
  let path := path_join clone (FixResult.file fx) in
  let lines := readlines (universal_newlines (content f)) in
  let k := Z.to_nat (FixResult.line fx - 1) in
  let comment_line :=
    "# AI-FIX (" ++ FixResult.bug_type fx ++ "): "
      ++ FixResult.fix_text fx ++ nl in
  fs path = Some f ->
  readable f = true ->
  writable f = true ->
  (forall text, write f text = Written) ->
  1 <= FixResult.line fx <= Z.of_nat (length lines) ->
  no_lf (FixResult.bug_type fx) = true ->
  no_cr (FixResult.bug_type fx) = true ->
  no_lf (FixResult.fix_text fx) = true ->
  no_cr (FixResult.fix_text fx) = true ->
  exists fs' f',
    apply_fix (Some clone) fs fx
    = Returned (true, fs', FixResult.set_status "APPLIED" fx)
    /\ fs' path = Some f'
    /\ readlines (universal_newlines (content f'))
       = (firstn k lines ++ [nl; comment_line] ++ skipn k lines)%list
    /\ (forall i, (i < k)%nat ->
          nth_error (readlines (universal_newlines (content f'))) i
          = nth_error lines i)
    /\ (forall i, (k <= i)%nat ->
          nth_error (readlines (universal_newlines (content f'))) (i + 2)
          = nth_error lines i).
Proof.
  cbv zeta. intros Hf Hr Hw Hwr Hl Hb Hb' Ht Ht'.
  destruct (apply_fix_inserted_lines clone fs fx f Hf Hr Hw Hwr Hl Hb Hb' Ht Ht')
    as (fs' & f' & H1 & H2 & H3).
  exists fs', f'. split; [exact H1|]. split; [exact H2|]. split; [exact H3|].
  rewrite H3. apply inserted_pair_shifts. lia.
Qed.

Lemma apply_fix_adds_two_lines_witness :
  let fx := FixResult.mk "app.py" "LOGIC" 2 "review the algorithm logic"
              "DETECTED" "LOGIC: ZeroDivisionError" in
  exists fs' f',
    apply_fix (Some "/tmp/repo_clone") small_repo fx
    = Returned (true, fs', FixResult.set_status "APPLIED" fx)
    /\ fs' "/tmp/repo_clone/app.py" = Some f'
    /\ readlines (universal_newlines (content f'))
       = ["import os" ++ nl; nl;
          "# AI-FIX (LOGIC): review the algorithm logic" ++ nl;
          "x = 1" ++ nl; "print(x)" ++ nl].
Proof.
  intros fx.
  destruct (apply_fix_adds_two_lines "/tmp/repo_clone" small_repo fx
              (mkFile three_lines true true (fun _ => Written)))
    as (fs' & f' & H1 & H2 & H3 & _).
  - reflexivity.
  - reflexivity.
  - reflexivity.
  - reflexivity.
  - vm_compute. split; discriminate.
  - reflexivity.
  - reflexivity.
  - reflexivity.
  - reflexivity.
  - exists fs', f'. split; [exact H1|]. split; [exact H2|exact H3].
Defined.

(** X12: a line number of 0 or below is not out of range for [apply_fix]: on
    a file that can be read and written it writes the file and reports
    APPLIED.  The comment block then goes [1 - line] lines before the end of
    the file as read, before the last line for line 0, or to the top of a
    file that has fewer lines. *)
Theorem apply_fix_counts_from_the_end
  (clone : string) (fs : FS) (fx : FixResult.t) (f : File) :
  let path := path_join clone (FixResult.file fx) in
  let lines := readlines (universal_newlines (content f)) in
  let comment :=
    nl ++ "# AI-FIX (" ++ FixResult.bug_type fx ++ "): "
       ++ FixResult.fix_text fx ++ nl in
  let k := (length lines - Z.to_nat (1 - FixResult.line fx))%nat in
  fs path = Some f ->
  readable f = true ->
  writable f = true ->
  (forall text, write f text = Written) ->
  FixResult.line fx <= 0 ->
  apply_fix (Some clone) fs fx
  = Returned (true,
              fs_write fs path
                (writelines (firstn k lines) ++ comment
                   ++ writelines (skipn k lines)),
              FixResult.set_status "APPLIED" fx).
Proof.
  cbv zeta. intros Hf Hr Hw Hwr Hl. unfold apply_fix.
  rewrite Hf, Hr, Hw, Hwr. cbn [negb].
  set (lines := readlines (universal_newlines (content f))).
  replace (FixResult.line fx <=? Z.of_nat (length lines))
    with true by (symmetry; apply Z.leb_le; lia).
  do 3 f_equal. unfold list_insert.
  replace (FixResult.line fx - 1 <? 0) with true
    by (symmetry; apply Z.ltb_lt; lia).
  replace (Z.to_nat (Z.max 0 (Z.of_nat (length lines)
                              + (FixResult.line fx - 1))))
    with (length lines - Z.to_nat (1 - FixResult.line fx))%nat
    by lia.
  rewrite writelines_app. reflexivity.
Qed.

Lemma apply_fix_counts_from_the_end_witness :
  let fx := FixResult.mk "app.py" "SYNTAX" 0 "check the syntax" "DETECTED"
              "invalid syntax" in
  let CRLF := String CR nl in
  let crlf_repo : FS :=
    fun p => if String.eqb p "/tmp/repo_clone/app.py"
             then Some (mkFile ("import os" ++ CRLF ++ "x = 1" ++ CRLF
                                  ++ "print(x)" ++ CRLF)
                          true true (fun _ => Written))
             else None in
  apply_fix (Some "/tmp/repo_clone") crlf_repo fx
  = Returned (true,
              fs_write crlf_repo "/tmp/repo_clone/app.py"
                ("import os" ++ nl ++ "x = 1" ++ nl ++ nl
                 ++ "# AI-FIX (SYNTAX): check the syntax" ++ nl
                 ++ "print(x)" ++ nl),
              FixResult.set_status "APPLIED" fx).
Proof.
  intros fx CRLF crlf_repo.
  apply (apply_fix_counts_from_the_end "/tmp/repo_clone" crlf_repo fx
           (mkFile ("import os" ++ CRLF ++ "x = 1" ++ CRLF
                      ++ "print(x)" ++ CRLF)
              true true (fun _ => Written))).
  - reflexivity.
  - reflexivity.
  - reflexivity.
  - reflexivity.
  - vm_compute. discriminate.
Defined.

(** ** Names of the run *)

Lemma allowed_plain c :
  Names.allowed c = true ->
  Str.isspace c = false /\ Py.upper_char c = c.
Proof.
  destruct c as [[] [] [] [] [] [] [] []]; vm_compute; intros H;
    try discriminate H; split; reflexivity.
Qed.

Lemma keep_allowed_all s :
  forallb Names.allowed (list_ascii_of_string (Names.keep_allowed s)) = true.
Proof.
  induction s as [|c s IH]; [reflexivity|]. cbn [Names.keep_allowed].
  destruct (Names.allowed c) eqn:E; [|exact IH].
  cbn [list_ascii_of_string forallb]. rewrite E, IH. reflexivity.
Qed.

Section AllowedOnly.
Variable s : string.
Hypothesis Hs : forallb Names.allowed (list_ascii_of_string s) = true.

Lemma allowed_keep : Names.keep_allowed s = s.
Proof.
  induction s as [|c t IH]; [reflexivity|].
  cbn [list_ascii_of_string forallb] in Hs. apply andb_true_iff in Hs as [Hc Ht].
  cbn [Names.keep_allowed]. rewrite Hc, (IH Ht). reflexivity.
Qed.

Lemma allowed_sub_spaces : Names.sub_spaces false s = s.
Proof.
  induction s as [|c t IH]; [reflexivity|].
  cbn [list_ascii_of_string forallb] in Hs. apply andb_true_iff in Hs as [Hc Ht].
  cbn [Names.sub_spaces]. rewrite (proj1 (allowed_plain c Hc)), (IH Ht).
  reflexivity.
Qed.

Lemma allowed_upper : Py.upper s = s.
Proof.
  induction s as [|c t IH]; [reflexivity|].
  cbn [list_ascii_of_string forallb] in Hs. apply andb_true_iff in Hs as [Hc Ht].
  cbn [Py.upper]. rewrite (proj2 (allowed_plain c Hc)), (IH Ht). reflexivity.
Qed.

Lemma allowed_rstrip : Str.rstrip s = s.
Proof.
  unfold Str.rstrip. induction s as [|c t IH]; [reflexivity|].
  cbn [list_ascii_of_string forallb] in Hs. apply andb_true_iff in Hs as [Hc Ht].
  cbn [Str.rstrip_with]. rewrite (IH Ht), (proj1 (allowed_plain c Hc)).
  destruct t; reflexivity.
Qed.

Lemma allowed_lstrip : Str.lstrip s = s.
Proof.
  unfold Str.lstrip. destruct s as [|c t]; [reflexivity|].
  cbn [list_ascii_of_string forallb] in Hs. apply andb_true_iff in Hs as [Hc Ht].
  cbn [Str.lstrip_with]. rewrite (proj1 (allowed_plain c Hc)). reflexivity.
Qed.

End AllowedOnly.

Lemma forallb_string_app p a b :
  forallb p (list_ascii_of_string (a ++ b))
  = forallb p (list_ascii_of_string a) && forallb p (list_ascii_of_string b).
Proof.
  induction a as [|c a IH]; [reflexivity|].
  cbn [String.append list_ascii_of_string forallb]. rewrite IH.
  apply andb_assoc.
Qed.

Lemma allowed_isword c : Names.allowed c = true -> Str.isword c = true.
Proof.
  destruct c as [[] [] [] [] [] [] [] []]; vm_compute; intros H;
    try discriminate H; reflexivity.
Qed.

Lemma forallb_allowed_isword s :
  forallb Names.allowed (list_ascii_of_string s) = true ->
  forallb Str.isword (list_ascii_of_string s) = true.
Proof.
  induction s as [|c s IH]; [reflexivity|].
  cbn [list_ascii_of_string forallb]. intros H.
  apply andb_true_iff in H as [Hc Hs].
  rewrite (allowed_isword c Hc), (IH Hs). reflexivity.
Qed.

(** X13: the stored team and leader names hold capital letters, digits and
    underscores only, and sanitising a stored name again gives it back.
    The branch name is the two names and AI_Fix joined by underscores, so
    it holds letters, digits and underscores only. *)
Theorem names_are_sanitized (team_name leader_name : string) :
  forallb Names.allowed (list_ascii_of_string (Names.sanitize team_name)) = true
  /\ Names.sanitize (Names.sanitize team_name) = Names.sanitize team_name
  /\ forallb Str.isword
       (list_ascii_of_string (Names.branch_name team_name leader_name)) = true
  /\ exists stem,
       Names.branch_name team_name leader_name = stem ++ "_AI_Fix".
Proof.
  assert (Hall : forall n,
            forallb Names.allowed (list_ascii_of_string (Names.sanitize n)) = true)
    by (intros n; apply keep_allowed_all).
  split; [apply Hall|]. split; [|split].
  - pose proof (Hall team_name) as H. revert H.
    generalize (Names.sanitize team_name). intros s H.
    unfold Names.sanitize, Str.strip.
    rewrite (allowed_rstrip s H), (allowed_lstrip s H), (allowed_upper s H),
      (allowed_sub_spaces s H). apply allowed_keep, H.
  - unfold Names.branch_name. rewrite !forallb_string_app.
    rewrite (forallb_allowed_isword _ (Hall team_name)),
      (forallb_allowed_isword _ (Hall leader_name)). reflexivity.
  - exists (Names.sanitize team_name ++ "_" ++ Names.sanitize leader_name).
    unfold Names.branch_name. rewrite !append_assoc. reflexivity.
Qed.

(** ** The files under analysis *)

(** X14: the skip words are looked for in the whole path, the clone directory
    included: when one of them occurs in the clone path, no file of the
    clone is listed. *)
Theorem get_python_files_skip_word_in_clone_path
  (clone word : string) (rglob : list string) :
  In word skip_words ->
  Py.contains word clone = true ->
  (forall py_file, In py_file rglob -> exists rel, py_file = clone ++ "/" ++ rel) ->
  get_python_files (Some clone) rglob = [].
Proof.
  intros Hw Hc Hunder. unfold get_python_files.
  induction rglob as [|p rglob IH]; [reflexivity|]. cbn [filter].
  rewrite IH by (intros q Hq; apply Hunder; right; exact Hq).
  destruct (Hunder p (or_introl eq_refl)) as [rel ->].
  unfold listed.
  replace (existsb (fun x => Py.contains x (clone ++ "/" ++ rel)) skip_words)
    with true; [reflexivity|].
  symmetry. apply existsb_exists. exists word. split; [exact Hw|].
  apply contains_app_r, Hc.
Qed.

Lemma get_python_files_skip_word_in_clone_path_witness :
  get_python_files (Some "/srv/environments/repo_clone")
    ["/srv/environments/repo_clone/app.py";
     "/srv/environments/repo_clone/pkg/core.py"] = [].
Proof.
  apply (get_python_files_skip_word_in_clone_path
           "/srv/environments/repo_clone" "env").
  - vm_compute. tauto.
  - reflexivity.
  - intros p [<-|[<-|[]]]; [exists "app.py"%string|exists "pkg/core.py"%string];
      reflexivity.
Defined.

(** ** Fix texts *)

Lemma mapping_get_no_lf mapping k d :
  no_lf d = true ->
  forallb (fun kv => no_lf (snd kv)) mapping = true ->
  no_lf (mapping_get mapping k d) = true.
Proof.
  intros Hd. induction mapping as [|[k' v] mapping IH];
    cbn [mapping_get forallb snd]; [intros _; exact Hd|].
  intros H. apply andb_true_iff in H as [Hv Hm].
  destruct (String.eqb k k'); [exact Hv|exact (IH Hm)].
Qed.

Lemma mapping_get_nonempty mapping k d :
  d <> EmptyString ->
  forallb (fun kv => negb (String.eqb (snd kv) EmptyString)) mapping = true ->
  mapping_get mapping k d <> EmptyString.
Proof.
  intros Hd. induction mapping as [|[k' v] mapping IH];
    cbn [mapping_get forallb snd]; [intros _; exact Hd|].
  intros H. apply andb_true_iff in H as [Hv Hm].
  destruct (String.eqb k k'); [|exact (IH Hm)].
  apply negb_true_iff, String.eqb_neq in Hv. exact Hv.
Qed.

Lemma heuristic_fix_one_line error_msg bug_type :
  no_lf (_generate_heuristic_fix error_msg bug_type) = true
  /\ _generate_heuristic_fix error_msg bug_type <> EmptyString.
Proof.
  unfold _generate_heuristic_fix. cbv zeta.
  repeat (match goal with
          | |- context [if ?b then _ else _] =>
              destruct b; [split; [reflexivity|discriminate]|]
          end).
  split.
  - apply mapping_get_no_lf; reflexivity.
  - apply mapping_get_nonempty; [discriminate|reflexivity].
Qed.

Lemma heuristic_text_one_line openai_loaded ask error_msg bug_type
  file_path :
  no_lf (generate_fix_ai None openai_loaded ask error_msg bug_type file_path)
  = true.
Proof.
  unfold generate_fix_ai. cbn [orb]. apply heuristic_fix_one_line.
Qed.

(** X15: without a key, with an empty key or without the [openai] module the fix
    text is the heuristic one, whatever the remote model would answer; it
    is never empty and holds no line feed. *)
Theorem generate_fix_without_key
  (openai_api_key : option string) (openai_loaded : bool)
  (ask : string -> string -> string -> option string)
  (error_msg bug_type file_path : string) :
  openai_api_key = None \/ openai_api_key = Some EmptyString
  \/ openai_loaded = false ->
  let fix_text :=
    generate_fix_ai openai_api_key openai_loaded ask error_msg bug_type
      file_path in
  fix_text = _generate_heuristic_fix error_msg bug_type
  /\ fix_text <> EmptyString
  /\ no_lf fix_text = true.
Proof.
  intros H. cbv zeta.
  assert (E : generate_fix_ai openai_api_key openai_loaded ask error_msg
                bug_type file_path
              = _generate_heuristic_fix error_msg bug_type).
  { unfold generate_fix_ai. destruct H as [ -> | [ -> | -> ] ]; cbn [String.eqb orb negb].
    - reflexivity.
    - reflexivity.
    - rewrite orb_true_r. reflexivity. }
  rewrite E. split; [reflexivity|].
  destruct (heuristic_fix_one_line error_msg bug_type) as [H1 H2]. auto.
Qed.

Lemma generate_fix_without_key_witness :
  generate_fix_ai None true (fun _ _ _ => Some "ask the author")
    "F401: 'os' imported but unused" "LINTING" "app.py"
  = "remove the import statement".
Proof.
  rewrite (proj1 (generate_fix_without_key None true
                    (fun _ _ _ => Some "ask the author")
                    "F401: 'os' imported but unused" "LINTING" "app.py"
                    (or_introl eq_refl))).
  reflexivity.
Defined.

Lemma no_lf_priority_order t :
  In t PRIORITY_ORDER -> no_lf t = true /\ no_cr t = true.
Proof.
  cbn [PRIORITY_ORDER In]. intuition (subst; reflexivity).
Qed.

Lemma mapping_get_no_cr mapping k d :
  no_cr d = true ->
  forallb (fun kv => no_cr (snd kv)) mapping = true ->
  no_cr (mapping_get mapping k d) = true.
Proof.
  intros Hd. induction mapping as [|[k' v] mapping IH];
    cbn [mapping_get forallb snd]; [intros _; exact Hd|].
  intros H. apply andb_true_iff in H as [Hv Hm].
  destruct (String.eqb k k'); [exact Hv|exact (IH Hm)].
Qed.

Lemma heuristic_fix_no_cr error_msg bug_type :
  no_cr (_generate_heuristic_fix error_msg bug_type) = true.
Proof.
  unfold _generate_heuristic_fix. cbv zeta.
  repeat (match goal with
          | |- context [if ?b then _ else _] => destruct b; [reflexivity|]
          end).
  apply mapping_get_no_cr; reflexivity.
Qed.

(** X16: a heuristic fix for a finding on line [line] of a file that has, as
    read, that line, and that can be read and written, is applied as two
    lines put before it, an empty one and the comment, when the type of the
    finding holds no line feed and no carriage return: the file grows by two
    lines, and the lines from [line] on move two lines down. *)
Theorem heuristic_fix_takes_two_lines
  (openai_loaded : bool) (ask : string -> string -> string -> option string)
  (e : Finding) (clone : string) (fs : FS) (f : File) :
  let fx := _make_fix (generate_fix_ai None openai_loaded ask) e in
  let path := path_join clone (file e) in
  let lines := readlines (universal_newlines (content f)) in
  let k := Z.to_nat (line e - 1) in
  fs path = Some f ->
  readable f = true ->
  writable f = true ->
  (forall text, write f text = Written) ->
  1 <= line e <= Z.of_nat (length lines) ->
  no_lf (type e) = true ->
  no_cr (type e) = true ->
  exists fs' f' comment_line,
    apply_fix (Some clone) fs fx
    = Returned (true, fs', FixResult.set_status "APPLIED" fx)
    /\ fs' path = Some f'
    /\ readlines (universal_newlines (content f'))
       = (firstn k lines ++ [nl; comment_line] ++ skipn k lines)%list
    /\ length (readlines (universal_newlines (content f')))
       = (length lines + 2)%nat.
Proof.
  cbv zeta. intros Hf Hr Hw Hwr Hl Ht Ht'.
  set (fx := _make_fix (generate_fix_ai None openai_loaded ask) e).
  assert (Hb : no_lf (FixResult.bug_type fx) = true
               /\ no_cr (FixResult.bug_type fx) = true).
  { unfold fx, _make_fix. cbn [FixResult.bug_type].
    destruct (String.eqb (type e) ""); [|split; assumption].
    apply no_lf_priority_order, determine_bug_type_range. }
  assert (Hx : no_lf (FixResult.fix_text fx) = true
               /\ no_cr (FixResult.fix_text fx) = true).
  { unfold fx, _make_fix. cbn [FixResult.fix_text]. split.
    - apply heuristic_text_one_line.
    - unfold generate_fix_ai. cbn [orb]. apply heuristic_fix_no_cr. }
  destruct (apply_fix_inserted_lines clone fs fx f Hf Hr Hw Hwr Hl
              (proj1 Hb) (proj2 Hb) (proj1 Hx) (proj2 Hx))
    as (fs' & f' & H1 & H2 & H3).
  exists fs', f'. eexists. split; [exact H1|]. split; [exact H2|].
  split; [exact H3|]. rewrite H3.
  rewrite !length_app. cbn [length].
  pose proof (firstn_skipn (Z.to_nat (line e - 1))
                (readlines (universal_newlines (content f)))) as E.
  apply (f_equal (@length string)) in E. rewrite length_app in E.
  change (FixResult.line fx) with (line e). lia.
Qed.

Lemma heuristic_fix_takes_two_lines_witness :
  let e := mkFinding "app.py" 2 "LOGIC: ZeroDivisionError" "LOGIC" "regex" in
  let fx := _make_fix (generate_fix_ai None true (fun _ _ _ => None)) e in
  exists fs' f',
    apply_fix (Some "/tmp/repo_clone") small_repo fx
    = Returned (true, fs', FixResult.set_status "APPLIED" fx)
    /\ fs' "/tmp/repo_clone/app.py" = Some f'
    /\ length (readlines (universal_newlines (content f'))) = 5%nat.
Proof.
  intros e fx.
  destruct (heuristic_fix_takes_two_lines true (fun _ _ _ => None) e
              "/tmp/repo_clone" small_repo
              (mkFile three_lines true true (fun _ => Written)))
    as (fs' & f' & comment_line & H1 & H2 & _ & H4).
  - reflexivity.
  - reflexivity.
  - reflexivity.
  - reflexivity.
  - vm_compute. split; discriminate.
  - reflexivity.
  - reflexivity.
  - exists fs', f'. split; [exact H1|]. split; [exact H2|exact H4].
Defined.

(** ** Tree walks: unused imports *)

Lemma dict_set_keys k v d :
  map fst (Ast.dict_set k v d)
  = if existsb (String.eqb k) (map fst d) then map fst d
    else (map fst d ++ [k])%list.
Proof.
  induction d as [|[k' v'] d IH]; [reflexivity|].
  cbn [Ast.dict_set map fst existsb].
  destruct (String.eqb k k') eqn:E; [reflexivity|].
  cbn [map fst orb]. rewrite IH.
  destruct (existsb (String.eqb k) (map fst d)); reflexivity.
Qed.

Lemma dict_set_NoDup k v d :
  NoDup (map fst d) -> NoDup (map fst (Ast.dict_set k v d)).
Proof.
  intros H. rewrite dict_set_keys.
  destruct (existsb (String.eqb k) (map fst d)) eqn:E; [exact H|].
  apply NoDup_app; [exact H|apply NoDup_cons; [intros []|apply NoDup_nil]|].
  intros x Hx [Ek|[]]. subst x.
  assert (existsb (String.eqb k) (map fst d) = true); [|congruence].
  apply existsb_exists. exists k. split; [exact Hx|apply String.eqb_refl].
Qed.

Lemma dict_set_In k v d n l :
  NoDup (map fst d) ->
  In (n, l) (Ast.dict_set k v d)
  <-> (n = k /\ l = v) \/ (n <> k /\ In (n, l) d).
Proof.
  induction d as [|[k' v'] d IH]; cbn [Ast.dict_set map fst In]; intros Hnd.
  - split.
    + intros [[= <- <-]|[]]. left. auto.
    + intros [[-> ->]|[_ []]]. left. reflexivity.
  - inversion Hnd as [|? ? Hk' Hd]; subst.
    destruct (String.eqb k k') eqn:E.
    + apply String.eqb_eq in E. subst k'. cbn [In]. split.
      * intros [[= <- <-]|H]; [left; auto|].
        right. split; [|right; exact H].
        intros ->. apply Hk'. apply (in_map fst) in H. exact H.
      * intros [[-> ->]|[Hn [[= -> ->]|H]]];
          [left; reflexivity|congruence|right; exact H].
    + apply String.eqb_neq in E. cbn [In]. rewrite (IH Hd). split.
      * intros [[= <- <-]|[H|[Hn H]]].
        -- right. split; [congruence|left; reflexivity].
        -- left. exact H.
        -- right. split; [exact Hn|right; exact H].
      * intros [H|[Hn [H|H]]].
        -- right. left. exact H.
        -- left. exact H.
        -- right. right. split; assumption.
Qed.

Lemma last_binding_nil n l : ~ Ast.last_binding [] n l.
Proof. intros ([|] & post & H & _); discriminate H. Qed.

Lemma last_binding_cons k v bs n l :
  Ast.last_binding ((k, v) :: bs) n l
  <-> Ast.last_binding bs n l \/ (n = k /\ l = v /\ ~ In n (map fst bs)).
Proof.
  split.
  - intros ([|p pre] & post & H & Hp); cbn [app] in H.
    + injection H as -> -> ->. right. auto.
    + injection H as _ ->. left. exists pre, post. auto.
  - intros [(pre & post & -> & Hp)|(-> & -> & Hp)].
    + exists ((k, v) :: pre), post. auto.
    + exists [], bs. auto.
Qed.

Lemma bind_spec bs : forall d n l,
  NoDup (map fst d) ->
  NoDup (map fst (Ast.bind d bs))
  /\ (In (n, l) (Ast.bind d bs)
      <-> Ast.last_binding bs n l
          \/ (In (n, l) d /\ ~ In n (map fst bs))).
Proof.
  induction bs as [|[k v] bs IH]; intros d n l Hd.
  - cbn [Ast.bind fold_left map]. split; [exact Hd|]. split.
    + intros H. right. split; [exact H|intros []].
    + intros [H|[H _]]; [destruct (last_binding_nil _ _ H)|exact H].
  - change (Ast.bind d ((k, v) :: bs)) with (Ast.bind (Ast.dict_set k v d) bs).
    destruct (IH (Ast.dict_set k v d) n l (dict_set_NoDup k v d Hd)) as [H1 H2].
    split; [exact H1|].
    rewrite H2, last_binding_cons, (dict_set_In k v d n l Hd).
    cbn [map fst In]. split.
    + intros [H|[[[-> ->]|[Hn H]] Hb]].
      * left. left. exact H.
      * left. right. auto.
      * right. split; [exact H|]. intros [E|E]; [congruence|exact (Hb E)].
    + intros [[H|(-> & -> & Hb)]|[H Hb]].
      * left. exact H.
      * right. split; [left; auto|exact Hb].
      * right. split; [right; split; [|exact H]|]; intros E; apply Hb; auto.
Qed.

Lemma bind_app d a b : Ast.bind d (a ++ b) = Ast.bind (Ast.bind d a) b.
Proof. unfold Ast.bind. apply fold_left_app. Qed.

Lemma bind_flat_map {A : Type} (g : A -> list (string * Z)) names : forall d,
  fold_left (fun d a => Ast.bind d (g a)) names d
  = Ast.bind d (flat_map g names).
Proof.
  induction names as [|a names IH]; intros d; [reflexivity|].
  cbn [fold_left flat_map]. rewrite IH, bind_app. reflexivity.
Qed.

Lemma collect_from nodes : forall d,
  fold_left
    (fun imported n =>
       match n with
       | Ast.Import lineno names =>
           fold_left (fun d a => Ast.bind d (Ast.import_binding lineno a))
             names imported
       | Ast.ImportFrom lineno names =>
           fold_left (fun d a => Ast.bind d (Ast.from_binding lineno a))
             names imported
       | _ => imported
       end)
    nodes d
  = Ast.bind d (Ast.bindings nodes).
Proof.
  unfold Ast.bindings.
  induction nodes as [|n nodes IH]; intros d; [reflexivity|].
  cbn [fold_left flat_map]. rewrite IH, bind_app.
  destruct n as [l names|l names| | | | |]; try reflexivity.
  - rewrite (bind_flat_map (Ast.import_binding l)). reflexivity.
  - rewrite (bind_flat_map (Ast.from_binding l)). reflexivity.
Qed.

Lemma collect_imported_bindings nodes :
  Ast.collect_imported nodes = Ast.bind [] (Ast.bindings nodes).
Proof. apply collect_from. Qed.

Lemma NoDup_map_filter {A B : Type} (f : A -> B) (p : A -> bool) l :
  NoDup (map f l) -> NoDup (map f (filter p l)).
Proof.
  induction l as [|a l IH]; cbn [filter map]; [auto|].
  intros H. inversion H as [|? ? Ha Hl]; subst.
  destruct (p a); [|exact (IH Hl)].
  cbn [map]. apply NoDup_cons; [|exact (IH Hl)].
  intros Hin. apply Ha. apply in_map_iff in Hin as (x & Hx & Hf).
  apply filter_In in Hf as [Hf _]. rewrite <- Hx. apply in_map, Hf.
Qed.

Lemma not_used_iff n used :
  negb (existsb (String.eqb n) used) = true <-> ~ In n used.
Proof.
  rewrite negb_true_iff. split.
  - intros H Hin.
    assert (existsb (String.eqb n) used = true); [|congruence].
    apply existsb_exists. exists n. split; [exact Hin|apply String.eqb_refl].
  - intros H. destruct (existsb (String.eqb n) used) eqn:E; [|reflexivity].
    apply existsb_exists in E as (x & Hx & Ex). apply String.eqb_eq in Ex.
    subst x. contradiction.
Qed.

(** X17: the walks hold a name as unused when no [Name] node and no attribute
    base carries it, and then once, at the line of the last import that
    binds it: earlier imports of the same name are not reported, and a star
    import binds nothing. *)
Theorem unused_import_once_at_last_import (nodes : list Ast.node) :
  NoDup (map fst (Ast.unused nodes))
  /\ forall n l,
       In (n, l) (Ast.unused nodes)
       <-> ~ In n (Ast.used_names nodes)
           /\ Ast.last_binding (Ast.bindings nodes) n l.
Proof.
  unfold Ast.unused. rewrite collect_imported_bindings. split.
  - apply NoDup_map_filter.
    apply (bind_spec (Ast.bindings nodes) [] EmptyString 0), NoDup_nil.
  - intros n l. rewrite filter_In. cbn [fst]. rewrite not_used_iff.
    destruct (bind_spec (Ast.bindings nodes) [] n l (NoDup_nil _)) as [_ H].
    rewrite H. split.
    + intros [[Hb|[[] _]] Hu]. auto.
    + intros [Hu Hb]. auto.
Qed.

Lemma filter_flat_map {A B : Type} (p : B -> bool) (g : A -> list B) l :
  filter p (flat_map g l) = flat_map (fun a => filter p (g a)) l.
Proof.
  induction l as [|a l IH]; [reflexivity|].
  cbn [flat_map]. rewrite filter_app, IH. reflexivity.
Qed.

Lemma map_flat_map {A B C : Type} (h : B -> C) (g : A -> list B) l :
  map h (flat_map g l) = flat_map (fun a => map h (g a)) l.
Proof.
  induction l as [|a l IH]; [reflexivity|].
  cbn [flat_map]. rewrite map_app, IH. reflexivity.
Qed.

Lemma node_findings_no_import rel n :
  filter (fun e => String.eqb (type e) "IMPORT") (Ast.node_findings rel n) = [].
Proof.
  unfold Ast.node_findings. rewrite !filter_app.
  destruct n as [| | | |l [|]|l [| | | |] lhs [c|]|]; cbn;
    repeat (match goal with
            | |- context [if ?b then _ else _] => destruct b; cbn
            end); reflexivity.
Qed.

Lemma static_file_imports parse f :
  map key_of
    (filter (fun e => String.eqb (type e) "IMPORT")
       (static_analysis_file parse f))
  = map key_of (ast_lint_file parse f).
Proof.
  unfold static_analysis_file, ast_lint_file.
  destruct (walk_file parse f) as [nodes|]; [|reflexivity].
  rewrite filter_app, filter_flat_map.
  replace (flat_map _ nodes) with (@nil Finding).
  2:{ symmetry. induction nodes as [|n nodes IH]; [reflexivity|].
      cbn [flat_map]. rewrite node_findings_no_import. exact IH. }
  rewrite app_nil_r.
  induction (Ast.unused nodes) as [|kv l IH]; [reflexivity|].
  cbn [map filter type String.eqb Ascii.eqb Bool.eqb]. cbn. f_equal. exact IH.
Qed.

(** X18: the linter's tree walk and the static analysis report the same unused
    imports: the IMPORT findings of the static analysis stand on the same
    files and lines, in the same order, as the findings of the walk, which
    are typed LINTING. *)
Theorem unused_imports_reported_by_both
  (clone_path : option string) (parse : string -> option (list Ast.node))
  (python_files : list SourceFile) :
  map key_of
    (filter (fun e => String.eqb (type e) "IMPORT")
       (run_static_analysis clone_path parse python_files))
  = map key_of (_run_ast_lint clone_path parse python_files)
  /\ Forall (fun e => type e = "LINTING" /\ source e = "ast_lint")
       (_run_ast_lint clone_path parse python_files).
Proof.
  unfold run_static_analysis, _run_ast_lint.
  destruct clone_path as [c|]; [|split; [reflexivity|apply Forall_nil]].
  split.
  - rewrite filter_flat_map, !map_flat_map.
    induction python_files as [|f fs IH]; [reflexivity|].
    cbn [flat_map]. rewrite static_file_imports, IH. reflexivity.
  - apply Forall_forall. intros e He. apply in_flat_map in He as (f & _ & He).
    unfold ast_lint_file in He. destruct (walk_file parse f); [|destruct He].
    apply in_map_iff in He as (kv & <- & _). split; reflexivity.
Qed.
